(** * Authentication template: storage adapter, rate limiter, token flows

    A shallow embedding of the in-memory storage adapter
    ([lib/db/adapters/memory]), the base adapter ([lib/db/adapter]), the
    fixed-window rate limiter ([lib/rate-limiter]), the password, register
    and login schemas ([lib/validations/auth]), the IP helpers
    ([lib/ip-hash]), the credentials login ([lib/auth]), the route handlers
    under [app/api/auth] and the route middleware, with the properties the
    specification states about them and further properties read off the code.

    Conventions of the embedding:
    - a JavaScript [Map<string, V>] is a [gmap string V];
    - a [Date] and a [Date.now()] reading are a [Z], milliseconds since the
      epoch; every clock reading a function takes is an explicit argument;
    - [null] / an absent optional field is [None];
    - a function that can [throw] returns [Thrown], carrying the state the
      mutations made before the throw left behind;
    - the adapter keeps its records by reference and mutates them in place,
      but only inside its own methods and always followed by a [set] under
      the same key, so each method is a function from store to store;
    - strings are [string]; [toLowerCase] and the regular-expression classes
      act on the ASCII range. *)

From Stdlib Require Import ZArith String Ascii Bool Lia List.
From stdpp Require Import base option gmap strings fin_maps.

Local Open Scope string_scope.
Local Open Scope Z_scope.

(** ** JavaScript primitives used by the code *)

(** Truthiness of a string value: only the empty string is falsy. *)
Definition truthy (s : string) : bool :=
  match s with
  | EmptyString => false
  | String _ _ => true
  end.

(** [o || null] on an optional string. *)
Definition orNull (o : option string) : option string :=
  match o with
  | Some s => if truthy s then Some s else None
  | None => None
  end.

Definition inRange (lo hi : nat) (c : ascii) : bool :=
  (Nat.leb lo (nat_of_ascii c) && Nat.leb (nat_of_ascii c) hi)%bool.

Definition isUpper : ascii -> bool := inRange 65 90.
Definition isLower : ascii -> bool := inRange 97 122.
Definition isDigit : ascii -> bool := inRange 48 57.

Definition lowerChar (c : ascii) : ascii :=
  if isUpper c then ascii_of_nat (nat_of_ascii c + 32) else c.

Fixpoint toLowerCase (s : string) : string :=
  match s with
  | EmptyString => EmptyString
  | String c r => String (lowerChar c) (toLowerCase r)
  end.

(** [/[class]/.test(s)]: some character of [s] is in the class. *)
Fixpoint regexTest (cls : ascii -> bool) (s : string) : bool :=
  match s with
  | EmptyString => false
  | String c r => (cls c || regexTest cls r)%bool
  end.

(** [s.startsWith(p)] *)
Definition startsWith (s p : string) : bool := String.prefix p s.

Definition strLength (s : string) : Z := Z.of_nat (String.length s).

(** ** Database types ([lib/db/types]) *)

Definition Date := Z.

Module User.
Record t := mk {
  id : string;
  email : string;
  passwordHash : string;
  name : string;
  emailVerified : option Date;
  emailVerificationToken : option string;
  emailVerificationTokenExpiresAt : option Date;
  passwordResetToken : option string;
  passwordResetTokenExpiresAt : option Date;
  createdAt : Date;
  updatedAt : Date
}.
End User.

Module CreateUserInput.
Record t := mk {
  email : string;
  passwordHash : string;
  name : string;
  emailVerificationToken : option string;
  emailVerificationTokenExpiresAt : option Date
}.
End CreateUserInput.

(** Every key of [UpdateUserInput] is optional: [None] is an absent key,
    [Some None] an explicit [null], [Some (Some v)] a value. *)
Module UpdateUserInput.
Record t := mk {
  email : option string;
  passwordHash : option string;
  name : option string;
  emailVerified : option (option Date);
  emailVerificationToken : option (option string);
  emailVerificationTokenExpiresAt : option (option Date);
  passwordResetToken : option (option string);
  passwordResetTokenExpiresAt : option (option Date)
}.
End UpdateUserInput.

Module TokenData.
Record t := mk { userId : string; token : string; expiresAt : Date }.
End TokenData.

Module UserForAuth.
Record t := mk {
  id : string;
  email : string;
  name : string;
  passwordHash : string;
  emailVerified : option Date
}.
End UserForAuth.

(** ** The in-memory adapter ([lib/db/adapters/memory]) *)

(** The four module-level maps. *)
Record Store := mkStore {
  users : gmap string User.t;
  emailIndex : gmap string string;
  verificationTokenIndex : gmap string string;
  passwordResetTokenIndex : gmap string string
}.

Definition emptyStore : Store := mkStore ∅ ∅ ∅ ∅.

(** Outcome of an [async] adapter method: the resolved value or the thrown
    error message, each with the store as the call left it. *)
Inductive Result (A : Type) : Type :=
| Returned (a : A) (s : Store)
| Thrown (msg : string) (s : Store).
Arguments Returned {A} a s.
Arguments Thrown {A} msg s.

Definition storeOf {A} (r : Result A) : Store :=
  match r with
  | Returned _ s => s
  | Thrown _ s => s
  end.

Module MemoryAdapter.

Definition findUserByEmail (email : string) (s : Store) : option UserForAuth.t :=
  let normalizedEmail := toLowerCase email in
  match emailIndex s !! normalizedEmail with
  | None => None
  | Some userId =>
      if truthy userId then
        match users s !! userId with
        | None => None
        | Some user =>
            Some (UserForAuth.mk (User.id user) (User.email user) (User.name user)
                    (User.passwordHash user) (User.emailVerified user))
        end
      else None
  end.

Definition findUserById (id : string) (s : Store) : option User.t :=
  users s !! id.

(** [uuid] is the value [uuid()] returns and [now] the [new Date()]. *)
Definition createUser (uuid : string) (now : Date) (data : CreateUserInput.t)
    (s : Store) : Result User.t :=
  let id := uuid in
  let normalizedEmail := toLowerCase (CreateUserInput.email data) in
  let user :=
    User.mk id normalizedEmail (CreateUserInput.passwordHash data)
      (CreateUserInput.name data) None
      (orNull (CreateUserInput.emailVerificationToken data))
      (CreateUserInput.emailVerificationTokenExpiresAt data)
      None None now now in
  let users' := <[id := user]> (users s) in
  let emailIndex' := <[normalizedEmail := id]> (emailIndex s) in
  let verificationTokenIndex' :=
    match CreateUserInput.emailVerificationToken data with
    | Some tok =>
        if truthy tok then <[tok := id]> (verificationTokenIndex s)
        else verificationTokenIndex s
    | None => verificationTokenIndex s
    end in
  Returned user
    (mkStore users' emailIndex' verificationTokenIndex' (passwordResetTokenIndex s)).

(** [if (old) index.delete(old)]: the record's old token leaves the index
    when it is truthy. *)
Definition dropOld (old : option string) (idx : gmap string string) : gmap string string :=
  match old with
  | Some o => if truthy o then delete o idx else idx
  | None => idx
  end.

(** The index update both token branches of [updateUser] perform: nothing
    when the key is absent from [data]; otherwise drop the old token and add
    the new one when it is truthy. *)
Definition reindexToken (id : string) (old : option string)
    (new : option (option string)) (idx : gmap string string) : gmap string string :=
  match new with
  | None => idx
  | Some newTok =>
      let idx1 := dropOld old idx in
      match newTok with
      | Some t => if truthy t then <[t := id]> idx1 else idx1
      | None => idx1
      end
  end.

Definition updateUser (id : string) (data : UpdateUserInput.t) (now : Date)
    (s : Store) : Result User.t :=
  match users s !! id with
  | None => Thrown ("User not found: " ++ id) s
  | Some user =>
      let emailIndex' :=
        match UpdateUserInput.email data with
        | Some e =>
            if (truthy e && negb (String.eqb e (User.email user)))%bool
            then <[toLowerCase e := id]> (delete (User.email user) (emailIndex s))
            else emailIndex s
        | None => emailIndex s
        end in
      let verificationTokenIndex' :=
        reindexToken id (User.emailVerificationToken user)
          (UpdateUserInput.emailVerificationToken data) (verificationTokenIndex s) in
      let passwordResetTokenIndex' :=
        reindexToken id (User.passwordResetToken user)
          (UpdateUserInput.passwordResetToken data) (passwordResetTokenIndex s) in
      let updatedUser :=
        User.mk (User.id user)
          (match UpdateUserInput.email data with
           | Some e => if truthy e then toLowerCase e else User.email user
           | None => User.email user
           end)
          (default (User.passwordHash user) (UpdateUserInput.passwordHash data))
          (default (User.name user) (UpdateUserInput.name data))
          (default (User.emailVerified user) (UpdateUserInput.emailVerified data))
          (default (User.emailVerificationToken user)
             (UpdateUserInput.emailVerificationToken data))
          (default (User.emailVerificationTokenExpiresAt user)
             (UpdateUserInput.emailVerificationTokenExpiresAt data))
          (default (User.passwordResetToken user)
             (UpdateUserInput.passwordResetToken data))
          (default (User.passwordResetTokenExpiresAt user)
             (UpdateUserInput.passwordResetTokenExpiresAt data))
          (User.createdAt user) now in
      Returned updatedUser
        (mkStore (<[id := updatedUser]> (users s)) emailIndex'
           verificationTokenIndex' passwordResetTokenIndex')
  end.

Definition emailExists (email : string) (s : Store) : bool :=
  bool_decide (is_Some (emailIndex s !! toLowerCase email)).

Definition withVerificationToken (user : User.t) (tok : option string)
    (exp : option Date) (now : Date) : User.t :=
  User.mk (User.id user) (User.email user) (User.passwordHash user) (User.name user)
    (User.emailVerified user) tok exp
    (User.passwordResetToken user) (User.passwordResetTokenExpiresAt user)
    (User.createdAt user) now.

Definition withPasswordResetToken (user : User.t) (tok : option string)
    (exp : option Date) (now : Date) : User.t :=
  User.mk (User.id user) (User.email user) (User.passwordHash user) (User.name user)
    (User.emailVerified user)
    (User.emailVerificationToken user) (User.emailVerificationTokenExpiresAt user)
    tok exp (User.createdAt user) now.

Definition setVerificationToken (userId token : string) (expiresAt now : Date)
    (s : Store) : Result unit :=
  match users s !! userId with
  | None => Thrown ("User not found: " ++ userId) s
  | Some user =>
      let idx := dropOld (User.emailVerificationToken user) (verificationTokenIndex s) in
      let user' := withVerificationToken user (Some token) (Some expiresAt) now in
      Returned tt
        (mkStore (<[userId := user']> (users s)) (emailIndex s)
           (<[token := userId]> idx) (passwordResetTokenIndex s))
  end.

Definition getVerificationToken (token : string) (s : Store) : option TokenData.t :=
  match verificationTokenIndex s !! token with
  | None => None
  | Some userId =>
      if truthy userId then
        match users s !! userId with
        | None => None
        | Some user =>
            match User.emailVerificationTokenExpiresAt user with
            | None => None
            | Some exp => Some (TokenData.mk userId token exp)
            end
        end
      else None
  end.

Definition clearVerificationToken (userId : string) (now : Date) (s : Store)
    : Result unit :=
  match users s !! userId with
  | None => Returned tt s
  | Some user =>
      let idx := dropOld (User.emailVerificationToken user) (verificationTokenIndex s) in
      let user' := withVerificationToken user None None now in
      Returned tt
        (mkStore (<[userId := user']> (users s)) (emailIndex s) idx
           (passwordResetTokenIndex s))
  end.

Definition setPasswordResetToken (userId token : string) (expiresAt now : Date)
    (s : Store) : Result unit :=
  match users s !! userId with
  | None => Thrown ("User not found: " ++ userId) s
  | Some user =>
      let idx := dropOld (User.passwordResetToken user) (passwordResetTokenIndex s) in
      let user' := withPasswordResetToken user (Some token) (Some expiresAt) now in
      Returned tt
        (mkStore (<[userId := user']> (users s)) (emailIndex s)
           (verificationTokenIndex s) (<[token := userId]> idx))
  end.

Definition getPasswordResetToken (token : string) (s : Store) : option TokenData.t :=
  match passwordResetTokenIndex s !! token with
  | None => None
  | Some userId =>
      if truthy userId then
        match users s !! userId with
        | None => None
        | Some user =>
            match User.passwordResetTokenExpiresAt user with
            | None => None
            | Some exp => Some (TokenData.mk userId token exp)
            end
        end
      else None
  end.

Definition clearPasswordResetToken (userId : string) (now : Date) (s : Store)
    : Result unit :=
  match users s !! userId with
  | None => Returned tt s
  | Some user =>
      let idx := dropOld (User.passwordResetToken user) (passwordResetTokenIndex s) in
      let user' := withPasswordResetToken user None None now in
      Returned tt
        (mkStore (<[userId := user']> (users s)) (emailIndex s)
           (verificationTokenIndex s) idx)
  end.

(** [BaseAdapter.verifyUserEmail]: [nowV] is the verified timestamp, [now]
    the [updatedAt] reading inside [updateUser]. *)
Definition verifyUserEmail (userId : string) (nowV now : Date) (s : Store)
    : Result unit :=
  match updateUser userId
          (UpdateUserInput.mk None None None (Some (Some nowV)) (Some None) (Some None)
             None None) now s with
  | Returned _ s' => Returned tt s'
  | Thrown m s' => Thrown m s'
  end.

(** [BaseAdapter.updatePassword] *)
Definition updatePassword (userId passwordHash : string) (now : Date) (s : Store)
    : Result unit :=
  match updateUser userId
          (UpdateUserInput.mk None (Some passwordHash) None None None None
             (Some None) (Some None)) now s with
  | Returned _ s' => Returned tt s'
  | Thrown m s' => Thrown m s'
  end.

(** [static clear()]: the four maps are emptied. *)
Definition clear (s : Store) : Store := emptyStore.

(** [static getUserCount()] *)
Definition getUserCount (s : Store) : nat := size (users s).

End MemoryAdapter.

(** ** The rate limiter ([lib/rate-limiter]) *)

Module RateLimitEntry.
Record t := mk { count : Z; resetAt : Z }.
End RateLimitEntry.

Module RateLimitConfig.
Record t := mk { limit : Z; windowSeconds : Z }.
End RateLimitConfig.

Module RateLimitResult.
Record t := mk { allowed : bool; remaining : Z; resetAt : Z }.
End RateLimitResult.

(** The module-level state: the store and the time of the last sweep. *)
Record RLState := mkRL {
  rateLimitStore : gmap string RateLimitEntry.t;
  lastCleanupTime : Z
}.

Definition CLEANUP_INTERVAL_MS : Z := 5 * 60 * 1000.

Module RATE_LIMITS.
Definition REGISTRATION := RateLimitConfig.mk 5 3600.
Definition LOGIN := RateLimitConfig.mk 10 900.
Definition PASSWORD_RESET := RateLimitConfig.mk 5 3600.
Definition VERIFICATION_EMAIL := RateLimitConfig.mk 3 3600.
Definition GENERAL := RateLimitConfig.mk 100 60.
End RATE_LIMITS.

(** An entry survives the sweep at [now] unless [entry.resetAt < now]. *)
Definition live (now : Z) (kv : string * RateLimitEntry.t) : Prop :=
  ¬ (RateLimitEntry.resetAt kv.2 < now).

#[local] Instance live_dec now kv : Decision (live now kv).
Proof. unfold live. apply _. Defined.

Definition cleanupExpiredEntries (now : Z) (st : RLState) : RLState :=
  if now - lastCleanupTime st <? CLEANUP_INTERVAL_MS then st
  else mkRL (filter (live now) (rateLimitStore st)) now.

Definition rateLimitKey (identifier endpoint : string) : string :=
  identifier ++ ":" ++ endpoint.

(** [nowC] is the clock reading inside [cleanupExpiredEntries], [now] the one
    [checkRateLimit] takes after it. *)
Definition checkRateLimit (identifier endpoint : string) (config : RateLimitConfig.t)
    (nowC now : Z) (st : RLState) : RateLimitResult.t * RLState :=
  let st1 := cleanupExpiredEntries nowC st in
  let key := rateLimitKey identifier endpoint in
  let fresh :=
    let resetAt := now + RateLimitConfig.windowSeconds config * 1000 in
    (RateLimitResult.mk true (RateLimitConfig.limit config - 1) resetAt,
     mkRL (<[key := RateLimitEntry.mk 1 resetAt]> (rateLimitStore st1))
       (lastCleanupTime st1)) in
  match rateLimitStore st1 !! key with
  | None => fresh
  | Some entry =>
      if RateLimitEntry.resetAt entry <? now then fresh
      else if RateLimitConfig.limit config <=? RateLimitEntry.count entry then
        (RateLimitResult.mk false 0 (RateLimitEntry.resetAt entry), st1)
      else
        let count' := RateLimitEntry.count entry + 1 in
        (RateLimitResult.mk true (RateLimitConfig.limit config - count')
           (RateLimitEntry.resetAt entry),
         mkRL (<[key := RateLimitEntry.mk count' (RateLimitEntry.resetAt entry)]>
                 (rateLimitStore st1))
           (lastCleanupTime st1))
  end.

(** A run of requests on one key: each element is the pair of clock readings
    of one [checkRateLimit] call. *)
Fixpoint checkMany (identifier endpoint : string) (config : RateLimitConfig.t)
    (times : list (Z * Z)) (st : RLState) : list RateLimitResult.t * RLState :=
  match times with
  | nil => (nil, st)
  | (nowC, now) :: rest =>
      let '(r, st1) := checkRateLimit identifier endpoint config nowC now st in
      let '(rs, st2) := checkMany identifier endpoint config rest st1 in
      (r :: rs, st2)
  end.

(** ** Responses and constants ([lib/constants]) *)

Module ERROR_CODES.
Definition INVALID_VERIFICATION_TOKEN := "INVALID_VERIFICATION_TOKEN".
Definition VERIFICATION_TOKEN_EXPIRED := "VERIFICATION_TOKEN_EXPIRED".
Definition INVALID_RESET_TOKEN := "INVALID_RESET_TOKEN".
Definition RESET_TOKEN_EXPIRED := "RESET_TOKEN_EXPIRED".
Definition VALIDATION_ERROR := "VALIDATION_ERROR".
Definition NOT_FOUND := "NOT_FOUND".
Definition INTERNAL_ERROR := "INTERNAL_ERROR".
Definition RATE_LIMITED := "RATE_LIMITED".
End ERROR_CODES.

Module HTTP_STATUS.
Definition OK : Z := 200.
Definition CREATED : Z := 201.
Definition BAD_REQUEST : Z := 400.
Definition NOT_FOUND : Z := 404.
Definition CONFLICT : Z := 409.
Definition TOO_MANY_REQUESTS : Z := 429.
Definition INTERNAL_SERVER_ERROR : Z := 500.
End HTTP_STATUS.

Module ERROR_MESSAGES.
Definition INVALID_VERIFICATION_TOKEN := "Invalid verification token".
Definition VERIFICATION_TOKEN_EXPIRED := "Verification token has expired".
Definition INVALID_RESET_TOKEN := "Invalid or expired reset token".
Definition RESET_TOKEN_EXPIRED := "Password reset token has expired".
Definition VALIDATION_ERROR := "Invalid request data".
Definition INTERNAL_ERROR := "An unexpected error occurred".
End ERROR_MESSAGES.

(** What a route handler answers.  [JsonError st c m] is the body
    [{ error: { code: c, message: m } }] with status [st] (the [details] of a
    schema failure are left out); [JsonSuccess] is [{ success: true }] with
    status 200. *)
Inductive Response : Type :=
| JsonError (status : Z) (code message : string)
| JsonRateLimited (retryAfter rateLimitReset : Z)
| JsonSuccess
| JsonCreated (id email name : string) (createdAt : Date) (message : string)
| Redirect (path : string).

(** [Math.ceil(x / 1000)] on an integer [x]. *)
Definition ceilDiv1000 (x : Z) : Z := - ((- x) / 1000).

Definition rateLimitResponse (resetAt nowR : Z) : Response :=
  JsonRateLimited (ceilDiv1000 (resetAt - nowR)) (ceilDiv1000 resetAt).

Definition applyRateLimit (identifier endpoint : string) (config : RateLimitConfig.t)
    (nowC now nowR : Z) (st : RLState) : option Response * RLState :=
  let '(result, st') := checkRateLimit identifier endpoint config nowC now st in
  if RateLimitResult.allowed result then (None, st')
  else (Some (rateLimitResponse (RateLimitResult.resetAt result) nowR), st').

(** ** Validation schemas ([lib/validations/auth]) *)

Definition passwordSchema (password : string) : bool :=
  ((8 <=? strLength password) && (strLength password <=? 128)
   && regexTest isUpper password && regexTest isLower password
   && regexTest isDigit password)%bool.

Definition isSpace (c : ascii) : bool :=
  (Nat.eqb (nat_of_ascii c) 32 || inRange 9 13 c)%bool.

Fixpoint trimStart (s : string) : string :=
  match s with
  | EmptyString => EmptyString
  | String c r => if isSpace c then trimStart r else s
  end.

Fixpoint trimEnd (s : string) : string :=
  match s with
  | EmptyString => EmptyString
  | String c r =>
      match trimEnd r with
      | EmptyString => if isSpace c then EmptyString else String c EmptyString
      | r' => String c r'
      end
  end.

Definition trim (s : string) : string := trimEnd (trimStart s).

(** The request body of [POST /api/auth/register]; a field that is absent or
    not a string is [None]. *)
Module RegisterBody.
Record t := mk { email : option string; password : option string; name : option string }.
End RegisterBody.

Module RegisterInput.
Record t := mk { email : string; password : string; name : string }.
End RegisterInput.

(** [registerSchema.safeParse]; [isEmail] is the schema library's address
    syntax check. *)
Definition registerSchema (isEmail : string -> bool) (body : RegisterBody.t)
    : option RegisterInput.t :=
  match RegisterBody.email body, RegisterBody.password body, RegisterBody.name body with
  | Some email, Some password, Some name =>
      if (isEmail email && (strLength email <=? 255) && passwordSchema password
          && (1 <=? strLength name) && (strLength name <=? 100))%bool
      then Some (RegisterInput.mk (toLowerCase email) password (trim name))
      else None
  | _, _, _ => None
  end.

(** ** Route handlers ([app/api/auth/*/route]) *)

(** The clock readings one request can take, named by the place in the code
    that takes them. *)
Module Clock.
Record t := mk {
  cleanup : Z; (* [Date.now()] in [cleanupExpiredEntries] *)
  check : Z;   (* [Date.now()] in [checkRateLimit] *)
  retry : Z;   (* [Date.now()] in [rateLimitResponse] *)
  issue : Z;   (* [Date.now()] where a new token's expiry is computed *)
  expiry : Z;  (* [new Date()] in a handler's expiry comparison *)
  stamp : Z;   (* [new Date()] in [verifyUserEmail] *)
  write : Z    (* [new Date()] inside the adapter method *)
}.
End Clock.

(** The collaborators outside the repository: the password hash, the schema
    library's address check, and the two mail senders ([true] when the send
    resolves, [false] when it throws). *)
Module Collaborators.
Record t := mk {
  hash : string -> Z -> string;
  isEmail : string -> bool;
  sendVerificationEmail : string -> string -> string -> bool;
  sendPasswordResetEmail : string -> string -> string -> bool
}.
End Collaborators.

(** Process state a handler runs against: the adapter's maps and the rate
    limiter's. *)
Record World := mkWorld { db : Store; rl : RLState }.

Definition internalError : Response :=
  JsonError HTTP_STATUS.INTERNAL_SERVER_ERROR ERROR_CODES.INTERNAL_ERROR
    ERROR_MESSAGES.INTERNAL_ERROR.

Definition invalidVerificationToken : Response :=
  JsonError HTTP_STATUS.BAD_REQUEST ERROR_CODES.INVALID_VERIFICATION_TOKEN
    ERROR_MESSAGES.INVALID_VERIFICATION_TOKEN.

Definition verificationTokenExpired : Response :=
  JsonError HTTP_STATUS.BAD_REQUEST ERROR_CODES.VERIFICATION_TOKEN_EXPIRED
    ERROR_MESSAGES.VERIFICATION_TOKEN_EXPIRED.

Definition invalidResetToken : Response :=
  JsonError HTTP_STATUS.BAD_REQUEST ERROR_CODES.INVALID_RESET_TOKEN
    ERROR_MESSAGES.INVALID_RESET_TOKEN.

Definition resetTokenExpired : Response :=
  JsonError HTTP_STATUS.BAD_REQUEST ERROR_CODES.RESET_TOKEN_EXPIRED
    ERROR_MESSAGES.RESET_TOKEN_EXPIRED.

(** A 400 answer with the [VALIDATION_ERROR] code, whatever its message. *)
Definition isValidationError (r : Response) : Prop :=
  exists message,
    r = JsonError HTTP_STATUS.BAD_REQUEST ERROR_CODES.VALIDATION_ERROR message.

(** The request got past [applyRateLimit], which left the limiter in [rl']. *)
Definition passesRateLimit (ipHash endpoint : string) (config : RateLimitConfig.t)
    (clk : Clock.t) (w : World) (rl' : RLState) : Prop :=
  applyRateLimit ipHash endpoint config (Clock.cleanup clk) (Clock.check clk)
    (Clock.retry clk) (rl w) = (None, rl').

Module VerifyEmailRoute.

(** [GET /api/auth/verify-email?token=...]; [token] is
    [searchParams.get("token")]. *)
Definition GET (token : option string) (clk : Clock.t) (w : World) : Response * World :=
  match token with
  | None =>
      (JsonError HTTP_STATUS.BAD_REQUEST ERROR_CODES.VALIDATION_ERROR "Token is required", w)
  | Some token =>
      if negb (truthy token) then
        (JsonError HTTP_STATUS.BAD_REQUEST ERROR_CODES.VALIDATION_ERROR "Token is required", w)
      else
        match MemoryAdapter.getVerificationToken token (db w) with
        | None =>
            (JsonError HTTP_STATUS.BAD_REQUEST ERROR_CODES.INVALID_VERIFICATION_TOKEN
               ERROR_MESSAGES.INVALID_VERIFICATION_TOKEN, w)
        | Some tokenData =>
            if TokenData.expiresAt tokenData <? Clock.expiry clk then
              (JsonError HTTP_STATUS.BAD_REQUEST ERROR_CODES.VERIFICATION_TOKEN_EXPIRED
                 ERROR_MESSAGES.VERIFICATION_TOKEN_EXPIRED, w)
            else
              match MemoryAdapter.verifyUserEmail (TokenData.userId tokenData)
                      (Clock.stamp clk) (Clock.write clk) (db w) with
              | Returned _ s' => (Redirect "/verify-email/success", mkWorld s' (rl w))
              | Thrown _ s' => (internalError, mkWorld s' (rl w))
              end
        end
  end.

(** The JSON body of the resend request; an [email] that is absent or not a
    string is [None]. *)
Record Body := mkBody { email : option string }.

(** [POST /api/auth/verify-email]: send or resend the verification email;
    [tokenUuid] is what [randomUUID()] returns. *)
Definition POST (env : Collaborators.t) (ipHash : string) (body : Body)
    (tokenUuid : string) (clk : Clock.t) (w : World) : Response * World :=
  let '(rateLimitResult, rl') :=
    applyRateLimit ipHash "verify-email" RATE_LIMITS.VERIFICATION_EMAIL
      (Clock.cleanup clk) (Clock.check clk) (Clock.retry clk) (rl w) in
  match rateLimitResult with
  | Some resp => (resp, mkWorld (db w) rl')
  | None =>
      match email body with
      | None =>
          (JsonError HTTP_STATUS.BAD_REQUEST ERROR_CODES.VALIDATION_ERROR
             "Email is required", mkWorld (db w) rl')
      | Some email =>
          if negb (truthy email) then
            (JsonError HTTP_STATUS.BAD_REQUEST ERROR_CODES.VALIDATION_ERROR
               "Email is required", mkWorld (db w) rl')
          else
            match MemoryAdapter.findUserByEmail email (db w) with
            | None =>
                (JsonError HTTP_STATUS.NOT_FOUND ERROR_CODES.NOT_FOUND "Email not found",
                 mkWorld (db w) rl')
            | Some user =>
                match UserForAuth.emailVerified user with
                | Some _ => (JsonSuccess, mkWorld (db w) rl')
                | None =>
                    let token := tokenUuid in
                    let expiresAt := Clock.issue clk + 24 * 60 * 60 * 1000 in
                    match MemoryAdapter.setVerificationToken (UserForAuth.id user) token
                            expiresAt (Clock.write clk) (db w) with
                    | Thrown _ s' => (internalError, mkWorld s' rl')
                    | Returned _ s' =>
                        if Collaborators.sendVerificationEmail env (UserForAuth.email user)
                             token "en"
                        then (JsonSuccess, mkWorld s' rl')
                        else (internalError, mkWorld s' rl')
                    end
                end
            end
      end
  end.

End VerifyEmailRoute.

Module ResetPasswordRoute.

(** The JSON body; a field that is absent or not a string is [None]. *)
Record Body := mkBody { token : option string; password : option string }.

Definition POST (env : Collaborators.t) (ipHash : string) (body : Body)
    (clk : Clock.t) (w : World) : Response * World :=
  let '(rateLimitResult, rl') :=
    applyRateLimit ipHash "reset-password" RATE_LIMITS.PASSWORD_RESET
      (Clock.cleanup clk) (Clock.check clk) (Clock.retry clk) (rl w) in
  match rateLimitResult with
  | Some resp => (resp, mkWorld (db w) rl')
  | None =>
      match token body, password body with
      | Some token, Some password =>
          if negb (truthy token && truthy password) then
            (JsonError HTTP_STATUS.BAD_REQUEST ERROR_CODES.VALIDATION_ERROR
               "Token and password are required", mkWorld (db w) rl')
          else if strLength password <? 8 then
            (JsonError HTTP_STATUS.BAD_REQUEST ERROR_CODES.VALIDATION_ERROR
               "Password must be at least 8 characters", mkWorld (db w) rl')
          else
            match MemoryAdapter.getPasswordResetToken token (db w) with
            | None =>
                (JsonError HTTP_STATUS.BAD_REQUEST ERROR_CODES.INVALID_RESET_TOKEN
                   ERROR_MESSAGES.INVALID_RESET_TOKEN, mkWorld (db w) rl')
            | Some tokenData =>
                if TokenData.expiresAt tokenData <? Clock.expiry clk then
                  (JsonError HTTP_STATUS.BAD_REQUEST ERROR_CODES.RESET_TOKEN_EXPIRED
                     ERROR_MESSAGES.RESET_TOKEN_EXPIRED, mkWorld (db w) rl')
                else
                  let passwordHash := Collaborators.hash env password 12 in
                  match MemoryAdapter.updatePassword (TokenData.userId tokenData)
                          passwordHash (Clock.write clk) (db w) with
                  | Returned _ s' => (JsonSuccess, mkWorld s' rl')
                  | Thrown _ s' => (internalError, mkWorld s' rl')
                  end
            end
      | _, _ =>
          (JsonError HTTP_STATUS.BAD_REQUEST ERROR_CODES.VALIDATION_ERROR
             "Token and password are required", mkWorld (db w) rl')
      end
  end.

End ResetPasswordRoute.

Module RegisterRoute.

(** [idUuid] is what [uuid()] returns inside [createUser], [tokenUuid]
    what [randomUUID()] returns in the handler. *)
Definition POST (env : Collaborators.t) (ipHash : string) (body : RegisterBody.t)
    (idUuid tokenUuid : string) (clk : Clock.t) (w : World) : Response * World :=
  let '(rateLimitResult, rl') :=
    applyRateLimit ipHash "register" RATE_LIMITS.REGISTRATION
      (Clock.cleanup clk) (Clock.check clk) (Clock.retry clk) (rl w) in
  match rateLimitResult with
  | Some resp => (resp, mkWorld (db w) rl')
  | None =>
      match registerSchema (Collaborators.isEmail env) body with
      | None =>
          (JsonError HTTP_STATUS.BAD_REQUEST ERROR_CODES.VALIDATION_ERROR
             ERROR_MESSAGES.VALIDATION_ERROR, mkWorld (db w) rl')
      | Some data =>
          let email := RegisterInput.email data in
          if MemoryAdapter.emailExists email (db w) then
            (JsonError HTTP_STATUS.CONFLICT "EMAIL_EXISTS" "Email already in use",
             mkWorld (db w) rl')
          else
            let passwordHash := Collaborators.hash env (RegisterInput.password data) 12 in
            let verificationToken := tokenUuid in
            let verificationExpiresAt := Clock.issue clk + 24 * 60 * 60 * 1000 in
            match MemoryAdapter.createUser idUuid (Clock.write clk)
                    (CreateUserInput.mk email passwordHash (RegisterInput.name data)
                       (Some verificationToken) (Some verificationExpiresAt)) (db w) with
            | Returned user s' =>
                (* a failed send is logged and swallowed *)
                let _ := Collaborators.sendVerificationEmail env (User.email user)
                           verificationToken "en" in
                (JsonCreated (User.id user) (User.email user) (User.name user)
                   (User.createdAt user) "VERIFICATION_EMAIL_SENT", mkWorld s' rl')
            | Thrown _ s' => (internalError, mkWorld s' rl')
            end
      end
  end.

End RegisterRoute.

Module ForgotPasswordRoute.

(** The JSON body; an [email] that is absent or not a string is [None]. *)
Record Body := mkBody { email : option string }.

Definition POST (env : Collaborators.t) (ipHash : string) (body : Body)
    (tokenUuid : string) (clk : Clock.t) (w : World) : Response * World :=
  let '(rateLimitResult, rl') :=
    applyRateLimit ipHash "forgot-password" RATE_LIMITS.PASSWORD_RESET
      (Clock.cleanup clk) (Clock.check clk) (Clock.retry clk) (rl w) in
  match rateLimitResult with
  | Some resp => (resp, mkWorld (db w) rl')
  | None =>
      match email body with
      | None =>
          (JsonError HTTP_STATUS.BAD_REQUEST ERROR_CODES.VALIDATION_ERROR
             "Email is required", mkWorld (db w) rl')
      | Some email =>
          if negb (truthy email) then
            (JsonError HTTP_STATUS.BAD_REQUEST ERROR_CODES.VALIDATION_ERROR
               "Email is required", mkWorld (db w) rl')
          else
            match MemoryAdapter.findUserByEmail email (db w) with
            | None => (JsonSuccess, mkWorld (db w) rl')
            | Some user =>
                let token := tokenUuid in
                let expiresAt := Clock.issue clk + 60 * 60 * 1000 in
                match MemoryAdapter.setPasswordResetToken (UserForAuth.id user) token
                        expiresAt (Clock.write clk) (db w) with
                | Thrown _ s' => (internalError, mkWorld s' rl')
                | Returned _ s' =>
                    if Collaborators.sendPasswordResetEmail env (UserForAuth.email user)
                         token "en"
                    then (JsonSuccess, mkWorld s' rl')
                    else (internalError, mkWorld s' rl')
                end
            end
      end
  end.

End ForgotPasswordRoute.

(** ** Route middleware ([middleware.ts]) *)

Module Middleware.

Definition PROTECTED_ROUTES : list string := "/dashboard" :: nil.

Definition AUTH_ROUTES : list string :=
  "/" :: "/login" :: "/register" :: "/forgot-password" :: "/reset-password"
  :: "/verify-email" :: nil.

Inductive Outcome : Type :=
| RedirectLogin (callbackUrl : string)
| RedirectDashboard
| Next.

Definition isProtectedRoute (pathname : string) : bool :=
  existsb (fun route =>
             (String.eqb pathname route || startsWith pathname (route ++ "/"))%bool)
    PROTECTED_ROUTES.

Definition isAuthRoute (pathname : string) : bool :=
  existsb (fun route =>
             if String.eqb route "/verify-email"
             then (String.eqb pathname route || startsWith pathname (route ++ "/"))%bool
             else String.eqb pathname route)
    AUTH_ROUTES.

(** [secret] is [process.env.NEXTAUTH_SECRET], [production] whether
    [NODE_ENV] is ["production"]; the result is the new value of the
    [secretValidated] flag, or [None] when the function throws. *)
Definition validateSecret (secret : option string) (production : bool)
    (secretValidated : bool) : option bool :=
  if secretValidated then Some true
  else if (negb (match secret with Some s => truthy s | None => false end)
           && production)%bool
  then None
  else Some true.

(** The decision the middleware takes once the session token is known. *)
Definition gate (pathname : string) (isAuthenticated : bool) : Outcome :=
  if (isProtectedRoute pathname && negb isAuthenticated)%bool
  then RedirectLogin pathname
  else if (isAuthRoute pathname && isAuthenticated)%bool
  then RedirectDashboard
  else Next.

(** [token] is what [getToken] resolves to ([None] when not
    authenticated); the result is [None] when [validateSecret] throws. *)
Definition middleware {JWT : Type} (secret : option string) (production : bool)
    (secretValidated : bool) (pathname : string) (token : option JWT)
    : option (Outcome * bool) :=
  match validateSecret secret production secretValidated with
  | None => None
  | Some flag =>
      let isAuthenticated := match token with Some _ => true | None => false end in
      Some (gate pathname isAuthenticated, flag)
  end.

End Middleware.

(** ** Index consistency and reachable stores *)

(** A token index is consistent with the user table when every entry is a
    non-empty token that is the current token of the user it points to. *)
Definition indexOk (field : User.t -> option string) (idx : gmap string string)
    (us : gmap string User.t) : Prop :=
  forall t uid, idx !! t = Some uid ->
    t <> "" /\ exists usr, us !! uid = Some usr /\ field usr = Some t.

Definition Consistent (s : Store) : Prop :=
  indexOk User.emailVerificationToken (verificationTokenIndex s) (users s)
  /\ indexOk User.passwordResetToken (passwordResetTokenIndex s) (users s).

(** One adapter call.  Generated ids are fresh, and the tokens handed to the
    two [set] methods are non-empty, as the handlers' [randomUUID()] values
    are. *)
Inductive step : Store -> Store -> Prop :=
| step_createUser uuid now data s :
    users s !! uuid = None ->
    step s (storeOf (MemoryAdapter.createUser uuid now data s))
| step_updateUser id data now s :
    step s (storeOf (MemoryAdapter.updateUser id data now s))
| step_setVerificationToken userId token expiresAt now s :
    token <> "" ->
    step s (storeOf (MemoryAdapter.setVerificationToken userId token expiresAt now s))
| step_clearVerificationToken userId now s :
    step s (storeOf (MemoryAdapter.clearVerificationToken userId now s))
| step_setPasswordResetToken userId token expiresAt now s :
    token <> "" ->
    step s (storeOf (MemoryAdapter.setPasswordResetToken userId token expiresAt now s))
| step_clearPasswordResetToken userId now s :
    step s (storeOf (MemoryAdapter.clearPasswordResetToken userId now s)).

(** The stores the adapter can be in: the empty maps of a fresh process,
    followed by any number of calls. *)
Inductive reachable : Store -> Prop :=
| reachable_empty : reachable emptyStore
| reachable_step s s' : reachable s -> step s s' -> reachable s'.

(** Every record is stored under its own [id]. *)
Definition keysOk (s : Store) : Prop :=
  forall k usr, users s !! k = Some usr -> User.id usr = k.

(** The two route sets of the middleware, as sets of paths: a protected
    route or anything below it; an auth route itself, or anything below
    [/verify-email]. *)
Definition inProtectedSet (pathname : string) : Prop :=
  exists route, In route Middleware.PROTECTED_ROUTES
    /\ (pathname = route \/ exists rest, pathname = route ++ "/" ++ rest).

Definition inAuthSet (pathname : string) : Prop :=
  In pathname Middleware.AUTH_ROUTES
  \/ exists rest, pathname = "/verify-email" ++ "/" ++ rest.

(** ** Remaining rate-limiter entry point *)

(** [clearRateLimits()]; [production] is whether [NODE_ENV] is
    ["production"].  [lastCleanupTime] is not reset. *)
Definition clearRateLimits (production : bool) (st : RLState) : bool * RLState :=
  if production then (false, st)
  else (true, mkRL ∅ (lastCleanupTime st)).

(** A string without the character [":"]. *)
Fixpoint colonFree (s : string) : bool :=
  match s with
  | EmptyString => true
  | String c r => (negb (Ascii.eqb c ":") && colonFree r)%bool
  end.

(** ** IP hashing ([lib/ip-hash]) *)

Module IpHash.

Definition DEFAULT_SALT : string := "auth-template-default-salt-dev-only".

(** [getEffectiveSalt()]: [envSalt] is [process.env.IP_HASH_SALT],
    [production] whether [NODE_ENV] is ["production"], [resolvedSalt] the
    module-level cache.  The result is the salt with the new cache, or [None]
    when the function throws. *)
Definition getEffectiveSalt (envSalt : option string) (production : bool)
    (resolvedSalt : option string) : option (string * option string) :=
  match resolvedSalt with
  | Some salt => Some (salt, resolvedSalt)
  | None =>
      let salt := orNull envSalt in
      match salt with
      | None =>
          if production then None
          else Some (DEFAULT_SALT, Some DEFAULT_SALT)
      | Some v => Some (v, Some v)
      end
  end.

(** [hashIP(ip)]; [sha256hex data] stands for
    [createHash("sha256").update(data).digest("hex")]. *)
Definition hashIP (sha256hex : string -> string) (envSalt : option string)
    (production : bool) (ip : string) (resolvedSalt : option string)
    : option (string * option string) :=
  let normalizedIP := toLowerCase (trim ip) in
  match getEffectiveSalt envSalt production resolvedSalt with
  | None => None
  | Some (salt, cache) => Some (sha256hex (salt ++ ":" ++ normalizedIP), cache)
  end.

(** [s.split(",")[0]]: the part of [s] before its first comma. *)
Fixpoint firstField (s : string) : string :=
  match s with
  | EmptyString => EmptyString
  | String c r => if Ascii.eqb c "," then EmptyString else String c (firstField r)
  end.

(** [getClientIP(headers)]; [headers name] is [headers.get(name)]. *)
Definition getClientIP (headers : string -> option string) : string :=
  let fromRealIP :=
    match headers "x-real-ip" with
    | Some realIP => if truthy realIP then trim realIP else "unknown-ip"
    | None => "unknown-ip"
    end in
  match headers "x-forwarded-for" with
  | Some forwardedFor =>
      if truthy forwardedFor then
        let clientIP := trim (firstField forwardedFor) in
        if truthy clientIP then clientIP else fromRealIP
      else fromRealIP
  | None => fromRealIP
  end.

Definition getHashedClientIP (sha256hex : string -> string) (envSalt : option string)
    (production : bool) (headers : string -> option string)
    (resolvedSalt : option string) : option (string * option string) :=
  hashIP sha256hex envSalt production (getClientIP headers) resolvedSalt.

End IpHash.

(** ** Login ([lib/auth], [lib/validations/auth]) *)

Module Credentials.
Record t := mk { email : option string; password : option string }.
End Credentials.

Module LoginInput.
Record t := mk { email : string; password : string }.
End LoginInput.

(** [loginSchema.safeParse] *)
Definition loginSchema (isEmail : string -> bool) (credentials : Credentials.t)
    : option LoginInput.t :=
  match Credentials.email credentials, Credentials.password credentials with
  | Some email, Some password =>
      if (isEmail email && (1 <=? strLength password))%bool
      then Some (LoginInput.mk (toLowerCase email) password)
      else None
  | _, _ => None
  end.

(** What [authorize] resolves to, or the message of the [Error] it throws. *)
Inductive AuthResult : Type :=
| Authorized (id email name : string)
| AuthError (message : string).

(** [authorize(credentials)] of the credentials provider; [compare] is the
    password hash library's [compare(password, hash)]. *)
Definition authorize (isEmail : string -> bool) (compare : string -> string -> bool)
    (credentials : option Credentials.t) (s : Store) : AuthResult :=
  match credentials with
  | None => AuthError "Email and password are required"
  | Some credentials =>
      let present o := match o with Some v => truthy v | None => false end in
      if negb (present (Credentials.email credentials)
               && present (Credentials.password credentials))%bool
      then AuthError "Email and password are required"
      else
        match loginSchema isEmail credentials with
        | None => AuthError "Invalid email or password"
        | Some result =>
            match MemoryAdapter.findUserByEmail (LoginInput.email result) s with
            | None => AuthError "Invalid email or password"
            | Some user =>
                if negb (compare (LoginInput.password result) (UserForAuth.passwordHash user))
                then AuthError "Invalid email or password"
                else
                  match UserForAuth.emailVerified user with
                  | None => AuthError "EMAIL_NOT_VERIFIED"
                  | Some _ =>
                      Authorized (UserForAuth.id user) (UserForAuth.email user)
                        (UserForAuth.name user)
                  end
            end
        end
  end.

(** ** Further store invariants *)

(** The email index is consistent with the user table when every entry
    points to a stored user whose email is the entry's key, and every stored
    email is in normal form. *)
Definition emailIndexOk (s : Store) : Prop :=
  (forall e uid, emailIndex s !! e = Some uid ->
     exists usr, users s !! uid = Some usr /\ User.email usr = e)
  /\ (forall uid usr, users s !! uid = Some usr ->
        toLowerCase (User.email usr) = User.email usr).

(** The part of a record that [findUserByEmail] hands out. *)
Definition authView (user : User.t) : UserForAuth.t :=
  UserForAuth.mk (User.id user) (User.email user) (User.name user)
    (User.passwordHash user) (User.emailVerified user).

(** Where following a redirect of the gate leads. *)
Definition redirectTarget (o : Middleware.Outcome) : option string :=
  match o with
  | Middleware.RedirectLogin _ => Some "/login"
  | Middleware.RedirectDashboard => Some "/dashboard"
  | Middleware.Next => None
  end.

(** ** Sample data for the concrete runs *)

Definition demoEnv : Collaborators.t :=
  Collaborators.mk (fun p _ => "$2b$12$" ++ p) (fun _ => true)
    (fun _ _ _ => true) (fun _ _ _ => true).

(** A store with one user who holds verification token ["t0"] and reset
    token ["r0"], both expiring at 100. *)
Definition demoStore : Store :=
  storeOf (MemoryAdapter.setPasswordResetToken "u1" "r0" 100 1
             (storeOf (MemoryAdapter.createUser "u1" 0
                         (CreateUserInput.mk "a@x.com" "h" "Ann" (Some "t0") (Some 100))
                         emptyStore))).

Definition demoWorld : World := mkWorld demoStore (mkRL ∅ 0).

(** * Properties *)

(** ** Rate limiter *)

Lemma cleanup_lookup_Some now st k e :
  rateLimitStore (cleanupExpiredEntries now st) !! k = Some e ->
  rateLimitStore st !! k = Some e.
Proof.
  unfold cleanupExpiredEntries.
  destruct (now - lastCleanupTime st <? CLEANUP_INTERVAL_MS); [done|].
  cbn. rewrite map_lookup_filter_Some. tauto.
Qed.

Lemma cleanup_lookup_None now st k :
  rateLimitStore st !! k = None ->
  rateLimitStore (cleanupExpiredEntries now st) !! k = None.
Proof.
  intros H. destruct (rateLimitStore (cleanupExpiredEntries now st) !! k) eqn:E; [|done].
  apply cleanup_lookup_Some in E. congruence.
Qed.

Lemma cleanup_lookup_live nowC now st k e :
  nowC <= now ->
  rateLimitStore st !! k = Some e ->
  ¬ (RateLimitEntry.resetAt e < now) ->
  rateLimitStore (cleanupExpiredEntries nowC st) !! k = Some e.
Proof.
  intros Hle Hk Hlive. unfold cleanupExpiredEntries.
  destruct (nowC - lastCleanupTime st <? CLEANUP_INTERVAL_MS); [done|].
  cbn. rewrite map_lookup_filter_Some. split; [done|].
  unfold live; cbn. lia.
Qed.

(** After the sweep, an entry of [k] is either the stored one or gone, and
    it is gone only if it had expired. *)
Lemma cleanup_lookup_cases nowC now st k :
  nowC <= now ->
  rateLimitStore (cleanupExpiredEntries nowC st) !! k = rateLimitStore st !! k
  \/ (rateLimitStore (cleanupExpiredEntries nowC st) !! k = None
      /\ exists e, rateLimitStore st !! k = Some e /\ RateLimitEntry.resetAt e < now).
Proof.
  intros Hle. destruct (rateLimitStore st !! k) as [e|] eqn:E.
  - destruct (decide (RateLimitEntry.resetAt e < now)) as [Hexp|Hlive].
    + destruct (rateLimitStore (cleanupExpiredEntries nowC st) !! k) as [e'|] eqn:E'.
      * left. apply cleanup_lookup_Some in E'. congruence.
      * right. eauto.
    + left. eapply cleanup_lookup_live; eauto.
  - left. by apply cleanup_lookup_None.
Qed.

Section RateLimiter.

Variables (identifier endpoint : string) (config : RateLimitConfig.t).

Let key := rateLimitKey identifier endpoint.
Let limit := RateLimitConfig.limit config.
Let window := RateLimitConfig.windowSeconds config * 1000.

(** First branch: no entry, or an entry whose [resetAt] has passed. *)
Lemma checkRateLimit_fresh nowC now st :
  nowC <= now ->
  (rateLimitStore st !! key = None
   \/ exists e, rateLimitStore st !! key = Some e /\ RateLimitEntry.resetAt e < now) ->
  let '(r, st') := checkRateLimit identifier endpoint config nowC now st in
  r = RateLimitResult.mk true (limit - 1) (now + window)
  /\ rateLimitStore st' !! key = Some (RateLimitEntry.mk 1 (now + window)).
Proof.
  intros Hle Hpre. unfold checkRateLimit. fold key.
  assert (Hcase : rateLimitStore (cleanupExpiredEntries nowC st) !! key = None
                  \/ exists e, rateLimitStore (cleanupExpiredEntries nowC st) !! key = Some e
                               /\ RateLimitEntry.resetAt e < now).
  { destruct Hpre as [Hn | (e & He & Hexp)].
    - left. by apply cleanup_lookup_None.
    - destruct (rateLimitStore (cleanupExpiredEntries nowC st) !! key) as [e'|] eqn:E'.
      + right. exists e'. split; [done|].
        apply cleanup_lookup_Some in E'. congruence.
      + by left. }
  destruct Hcase as [-> | (e & -> & Hexp)].
  - cbn. split; [done|]. apply lookup_insert_eq.
  - apply Z.ltb_lt in Hexp. rewrite Hexp. cbn. split; [done|]. apply lookup_insert_eq.
Qed.

(** Second branch: a live entry whose count has reached the limit. *)
Lemma checkRateLimit_denied nowC now st e :
  nowC <= now ->
  rateLimitStore st !! key = Some e ->
  ¬ (RateLimitEntry.resetAt e < now) ->
  limit <= RateLimitEntry.count e ->
  let '(r, st') := checkRateLimit identifier endpoint config nowC now st in
  r = RateLimitResult.mk false 0 (RateLimitEntry.resetAt e)
  /\ rateLimitStore st' !! key = Some e.
Proof.
  intros Hle Hk Hlive Hcnt. unfold checkRateLimit. fold key.
  rewrite (cleanup_lookup_live nowC now st key e Hle Hk Hlive).
  apply Z.ltb_nlt in Hlive. rewrite Hlive.
  apply Z.leb_le in Hcnt. fold limit. rewrite Hcnt.
  split; [done|]. apply Z.ltb_nlt in Hlive. by eapply cleanup_lookup_live.
Qed.

(** Third branch: a live entry below the limit is incremented. *)
Lemma checkRateLimit_counted nowC now st e :
  nowC <= now ->
  rateLimitStore st !! key = Some e ->
  ¬ (RateLimitEntry.resetAt e < now) ->
  RateLimitEntry.count e < limit ->
  let '(r, st') := checkRateLimit identifier endpoint config nowC now st in
  r = RateLimitResult.mk true (limit - (RateLimitEntry.count e + 1))
        (RateLimitEntry.resetAt e)
  /\ rateLimitStore st' !! key
     = Some (RateLimitEntry.mk (RateLimitEntry.count e + 1) (RateLimitEntry.resetAt e)).
Proof.
  intros Hle Hk Hlive Hcnt. unfold checkRateLimit. fold key.
  rewrite (cleanup_lookup_live nowC now st key e Hle Hk Hlive).
  apply Z.ltb_nlt in Hlive. rewrite Hlive.
  assert (Hl : (limit <=? RateLimitEntry.count e) = false) by (apply Z.leb_gt; lia).
  fold limit. rewrite Hl. cbn.
  split; [done|]. apply lookup_insert_eq.
Qed.

(** Requests inside the window of an entry, as long as there is room under
    the limit, are all allowed and each adds one to the count. *)
Lemma checkMany_counted times : forall st k R,
  rateLimitStore st !! key = Some (RateLimitEntry.mk k R) ->
  Forall (fun ct : Z * Z => ct.1 <= ct.2 /\ ct.2 <= R) times ->
  k + Z.of_nat (length times) <= limit ->
  let run := checkMany identifier endpoint config times st in
  map RateLimitResult.allowed run.1 = repeat true (length times)
  /\ rateLimitStore run.2 !! key
     = Some (RateLimitEntry.mk (k + Z.of_nat (length times)) R).
Proof.
  induction times as [|[c t] rest IH]; intros st k R Hk Hall Hroom.
  - cbn. split; [done|]. rewrite Hk. do 2 f_equal. lia.
  - apply Forall_cons in Hall as [[Hct HtR] Hall]. cbn in Hct, HtR.
    cbn [length] in Hroom.
    pose proof (checkRateLimit_counted c t st (RateLimitEntry.mk k R) Hct Hk) as Hstep.
    cbn in Hstep. cbn [checkMany].
    destruct (checkRateLimit identifier endpoint config c t st) as [r st1].
    destruct Hstep as [-> Hk1]; [lia | lia |].
    specialize (IH st1 (k + 1) R Hk1 Hall ltac:(lia)). cbn in IH.
    destruct (checkMany identifier endpoint config rest st1) as [rs st2].
    cbn in *. destruct IH as [-> ->]. split; [done|].
    do 2 f_equal. lia.
Qed.

End RateLimiter.

Lemma checkMany_app identifier endpoint config l1 l2 st :
  checkMany identifier endpoint config (l1 ++ l2)%list st
  = let r1 := checkMany identifier endpoint config l1 st in
    let r2 := checkMany identifier endpoint config l2 r1.2 in
    ((r1.1 ++ r2.1)%list, r2.2).
Proof.
  revert st. induction l1 as [|[c t] l1 IH]; intros st; cbn.
  - by destruct (checkMany identifier endpoint config l2 st).
  - destruct (checkRateLimit identifier endpoint config c t st) as [r st1].
    rewrite IH. cbn.
    destruct (checkMany identifier endpoint config l1 st1) as [rs1 st2]. cbn.
    by destruct (checkMany identifier endpoint config l2 st2).
Qed.

(** C6. [checkRateLimit] is the fixed-window state machine on the entry of
    the key [identifier:endpoint]: with no entry, or an entry whose [resetAt]
    has passed, it stores [count = 1], [resetAt = now + windowSeconds * 1000]
    and allows; with a live entry at the limit it denies with [remaining = 0]
    and the entry untouched; otherwise it increments the count and allows with
    [remaining = limit - count].  Hence, for a limit [N >= 1], of [N + 1]
    requests inside one window the first [N] are allowed and the last is
    denied, and a request after [resetAt] has passed is allowed again. *)
Theorem checkRateLimit_fixed_window
    (identifier endpoint : string) (config : RateLimitConfig.t) :
  let key := rateLimitKey identifier endpoint in
  let limit := RateLimitConfig.limit config in
  let window := RateLimitConfig.windowSeconds config * 1000 in
  let check := checkRateLimit identifier endpoint config in
  (forall nowC now st,
      nowC <= now ->
      (rateLimitStore st !! key = None
       \/ exists e, rateLimitStore st !! key = Some e /\ RateLimitEntry.resetAt e < now) ->
      RateLimitResult.allowed (check nowC now st).1 = true
      /\ RateLimitResult.resetAt (check nowC now st).1 = now + window
      /\ rateLimitStore (check nowC now st).2 !! key
         = Some (RateLimitEntry.mk 1 (now + window)))
  /\ (forall nowC now st e,
      nowC <= now ->
      rateLimitStore st !! key = Some e ->
      ¬ (RateLimitEntry.resetAt e < now) ->
      limit <= RateLimitEntry.count e ->
      (check nowC now st).1 = RateLimitResult.mk false 0 (RateLimitEntry.resetAt e)
      /\ rateLimitStore (check nowC now st).2 !! key = Some e)
  /\ (forall nowC now st e,
      nowC <= now ->
      rateLimitStore st !! key = Some e ->
      ¬ (RateLimitEntry.resetAt e < now) ->
      RateLimitEntry.count e < limit ->
      (check nowC now st).1
      = RateLimitResult.mk true (limit - (RateLimitEntry.count e + 1))
          (RateLimitEntry.resetAt e)
      /\ rateLimitStore (check nowC now st).2 !! key
         = Some (RateLimitEntry.mk (RateLimitEntry.count e + 1) (RateLimitEntry.resetAt e)))
  /\ (forall st c0 t0 rest cN tN,
      1 <= limit ->
      c0 <= t0 ->
      (rateLimitStore st !! key = None
       \/ exists e, rateLimitStore st !! key = Some e /\ RateLimitEntry.resetAt e < t0) ->
      Z.of_nat (length rest) = limit - 1 ->
      Forall (fun ct : Z * Z => ct.1 <= ct.2 /\ ct.2 <= t0 + window) (rest ++ (cN, tN) :: nil)%list ->
      let run := checkMany identifier endpoint config ((c0, t0) :: rest ++ (cN, tN) :: nil)%list st in
      map RateLimitResult.allowed run.1 = (repeat true (Z.to_nat limit) ++ false :: nil)%list
      /\ forall c t, c <= t -> t0 + window < t ->
           RateLimitResult.allowed (check c t run.2).1 = true).
Proof.
  intros key limit window check. subst key limit window check.
  split; [|split; [|split]].
  - intros nowC now st Hle Hpre.
    pose proof (checkRateLimit_fresh identifier endpoint config nowC now st Hle Hpre) as Hf.
    destruct (checkRateLimit identifier endpoint config nowC now st) as [r st'].
    destruct Hf as [-> Hk]. cbn. by rewrite Hk.
  - intros nowC now st e Hle Hk Hlive Hcnt.
    pose proof (checkRateLimit_denied identifier endpoint config nowC now st e
                  Hle Hk Hlive Hcnt) as Hf.
    destruct (checkRateLimit identifier endpoint config nowC now st) as [r st'].
    destruct Hf as [-> Hk']. cbn. by rewrite Hk'.
  - intros nowC now st e Hle Hk Hlive Hcnt.
    pose proof (checkRateLimit_counted identifier endpoint config nowC now st e
                  Hle Hk Hlive Hcnt) as Hf.
    destruct (checkRateLimit identifier endpoint config nowC now st) as [r st'].
    destruct Hf as [-> Hk']. cbn. by rewrite Hk'.
  - intros st c0 t0 rest cN tN Hlim Hc0 Hpre Hlen Hall.
    apply Forall_app in Hall as [Hrest Hlast].
    apply Forall_cons in Hlast as [[HcN HtN] _]. cbn in HcN, HtN.
    pose proof (checkRateLimit_fresh identifier endpoint config c0 t0 st Hc0 Hpre) as Hf.
    cbn [checkMany].
    destruct (checkRateLimit identifier endpoint config c0 t0 st) as [r0 st0].
    destruct Hf as [-> Hk0].
    rewrite checkMany_app.
    pose proof (checkMany_counted identifier endpoint config rest st0 1 _
                  Hk0 Hrest ltac:(lia)) as [Hrs Hk1].
    destruct (checkMany identifier endpoint config rest st0) as [rs st1]. cbn in Hrs, Hk1.
    cbn [fst snd].
    pose proof (checkRateLimit_denied identifier endpoint config cN tN st1 _ HcN Hk1
                  ltac:(cbn; lia) ltac:(cbn; lia)) as Hd.
    cbn [checkMany].
    destruct (checkRateLimit identifier endpoint config cN tN st1) as [rN stN].
    destruct Hd as [-> HkN]. cbn in HkN |- *.
    split.
    + rewrite map_app, Hrs. cbn.
      replace (Z.to_nat (RateLimitConfig.limit config)) with (S (length rest)) by lia. done.
    + intros c t Hct Hpast.
      pose proof (checkRateLimit_fresh identifier endpoint config c t stN Hct) as Hf.
      destruct (checkRateLimit identifier endpoint config c t stN) as [r st'].
      destruct Hf as [-> _]; [|done].
      right. eexists. split; [exact HkN|]. cbn. lia.
Qed.

Lemma checkRateLimit_fixed_window_witness :
  let cfg := RateLimitConfig.mk 2 60 in
  let run := checkMany "ip" "login" cfg ((0, 0) :: (5, 5) :: (9, 10) :: nil) (mkRL ∅ 0) in
  map RateLimitResult.allowed run.1 = true :: true :: false :: nil
  /\ RateLimitResult.allowed (checkRateLimit "ip" "login" cfg 60001 60001 run.2).1 = true.
Proof.
  intros cfg run.
  destruct (checkRateLimit_fixed_window "ip" "login" cfg) as (_ & _ & _ & Hrun).
  destruct (Hrun (mkRL ∅ 0) 0 0 ((5, 5) :: nil) 9 10) as [Hres Hnext].
  - cbn; lia.
  - lia.
  - left. reflexivity.
  - reflexivity.
  - repeat constructor; cbn; lia.
  - split; [exact Hres|]. apply Hnext; cbn; lia.
Defined.

(** C9. For a limit of at least 1, a call that finds a live entry whose count
    has reached the limit answers [allowed = false] and leaves that entry as
    it was (the call changes nothing beyond the sweep of expired entries);
    and whatever the branch, the [remaining] it reports is non-negative. *)
Theorem checkRateLimit_denied_frame
    (identifier endpoint : string) (config : RateLimitConfig.t) :
  1 <= RateLimitConfig.limit config ->
  (forall nowC now st e,
      nowC <= now ->
      rateLimitStore st !! rateLimitKey identifier endpoint = Some e ->
      RateLimitConfig.limit config <= RateLimitEntry.count e ->
      ¬ (RateLimitEntry.resetAt e < now) ->
      let r := checkRateLimit identifier endpoint config nowC now st in
      RateLimitResult.allowed r.1 = false
      /\ rateLimitStore r.2 !! rateLimitKey identifier endpoint = Some e
      /\ r.2 = cleanupExpiredEntries nowC st)
  /\ (forall nowC now st,
      0 <= RateLimitResult.remaining
             (checkRateLimit identifier endpoint config nowC now st).1).
Proof.
  intros Hlim. split.
  - intros nowC now st e Hle Hk Hcnt Hlive r. subst r.
    pose proof (cleanup_lookup_live nowC now st _ e Hle Hk Hlive) as Hk'.
    unfold checkRateLimit. rewrite Hk'.
    apply Z.ltb_nlt in Hlive. rewrite Hlive.
    apply Z.leb_le in Hcnt. rewrite Hcnt. cbn. done.
  - intros nowC now st. unfold checkRateLimit.
    destruct (rateLimitStore (cleanupExpiredEntries nowC st) !! _) as [e|]; cbn; [|lia].
    destruct (RateLimitEntry.resetAt e <? now); cbn; [lia|].
    destruct (RateLimitConfig.limit config <=? RateLimitEntry.count e) eqn:E; cbn; [lia|].
    apply Z.leb_gt in E. lia.
Qed.

Lemma checkRateLimit_denied_frame_witness :
  let cfg := RateLimitConfig.mk 1 60 in
  let e := RateLimitEntry.mk 1 60000 in
  let st := mkRL {[ "ip:login" := e ]} 0 in
  let r := checkRateLimit "ip" "login" cfg 400000 400000 st in
  (RateLimitResult.allowed
     (checkRateLimit "ip" "login" cfg 10 10 st).1 = false
   /\ rateLimitStore (checkRateLimit "ip" "login" cfg 10 10 st).2 !! "ip:login" = Some e)
  /\ 0 <= RateLimitResult.remaining r.1.
Proof.
  intros cfg e st r.
  destruct (checkRateLimit_denied_frame "ip" "login" cfg) as [Hden Hrem].
  - cbn; lia.
  - split.
    + destruct (Hden 10 10 st e) as (Ha & Hk & _).
      * lia.
      * reflexivity.
      * cbn; lia.
      * cbn; lia.
      * split; [exact Ha | exact Hk].
    + apply Hrem.
Defined.

(** ** Storage adapter: index consistency *)

Lemma truthy_true s : truthy s = true <-> s <> "".
Proof. destruct s; cbn; split; intros; congruence. Qed.

Lemma long_truthy p : 8 <= strLength p -> truthy p = true.
Proof. destruct p; [unfold strLength; cbn; lia | done]. Qed.

Lemma truthy_false s : truthy s = false <-> s = "".
Proof. destruct s; cbn; split; intros; congruence. Qed.

Lemma dropOld_lookup_Some old idx t uid :
  MemoryAdapter.dropOld old idx !! t = Some uid ->
  idx !! t = Some uid /\ (old = Some t -> t = "").
Proof.
  unfold MemoryAdapter.dropOld. destruct old as [o|]; [|by intros; split].
  destruct (truthy o) eqn:Ho.
  - intros H. apply lookup_delete_Some in H as [Hne H]. split; [done|]. congruence.
  - intros H. split; [done|]. intros [= ->]. by apply truthy_false.
Qed.

Lemma dropOld_lookup_old t idx :
  t <> "" -> MemoryAdapter.dropOld (Some t) idx !! t = None.
Proof.
  intros Ht. cbn. apply truthy_true in Ht. rewrite Ht. apply lookup_delete_eq.
Qed.

Lemma dropOld_lookup_ne old idx t :
  old <> Some t -> MemoryAdapter.dropOld old idx !! t = idx !! t.
Proof.
  intros Hne. unfold MemoryAdapter.dropOld. destruct old as [o|]; [|done].
  destruct (truthy o); [|done]. apply lookup_delete_ne. congruence.
Qed.

Section IndexOk.

Variable field : User.t -> option string.

Lemma indexOk_empty us : indexOk field ∅ us.
Proof. intros t uid H. by rewrite lookup_empty in H. Qed.

(** Rewriting records without touching [field] keeps the index right. *)
Lemma indexOk_frame idx us us' :
  (forall uid usr, us !! uid = Some usr ->
     exists usr', us' !! uid = Some usr' /\ field usr' = field usr) ->
  indexOk field idx us -> indexOk field idx us'.
Proof.
  intros Hfr Hok t uid Ht. destruct (Hok t uid Ht) as (Hne & usr & Hu & Hf).
  split; [done|]. destruct (Hfr uid usr Hu) as (usr' & Hu' & Hf').
  exists usr'. split; [done|]. congruence.
Qed.

(** Dropping the old token of [u] makes any new record for [u] fit. *)
Lemma indexOk_drop idx us u usr usr' :
  indexOk field idx us ->
  us !! u = Some usr ->
  indexOk field (MemoryAdapter.dropOld (field usr) idx) (<[u := usr']> us).
Proof.
  intros Hok Hu t uid Ht.
  apply dropOld_lookup_Some in Ht as [Ht Hold].
  destruct (Hok t uid Ht) as (Hne & usr0 & Hu0 & Hf0).
  split; [done|]. destruct (Strings.String.string_dec uid u) as [->|Hneq].
  - exfalso. apply Hne, Hold. congruence.
  - exists usr0. by rewrite lookup_insert_ne.
Qed.

(** Dropping the old token of [u] and entering the new one. *)
Lemma indexOk_set idx us u usr usr' t :
  indexOk field idx us ->
  us !! u = Some usr ->
  field usr' = Some t ->
  t <> "" ->
  indexOk field (<[t := u]> (MemoryAdapter.dropOld (field usr) idx)) (<[u := usr']> us).
Proof.
  intros Hok Hu Hf Ht t0 uid Ht0.
  destruct (Strings.String.string_dec t t0) as [<-|Hneq].
  - rewrite lookup_insert_eq in Ht0. injection Ht0 as <-.
    split; [done|]. exists usr'. by rewrite lookup_insert_eq.
  - rewrite lookup_insert_ne in Ht0 by done.
    by apply (indexOk_drop idx us u usr usr' Hok Hu).
Qed.

Lemma indexOk_reindex idx us u usr usr' new :
  indexOk field idx us ->
  us !! u = Some usr ->
  field usr' = default (field usr) new ->
  indexOk field (MemoryAdapter.reindexToken u (field usr) new idx) (<[u := usr']> us).
Proof.
  intros Hok Hu Hf. unfold MemoryAdapter.reindexToken.
  destruct new as [[t|]|]; cbn in Hf.
  - destruct (truthy t) eqn:Et.
    + apply indexOk_set; [done..|]. by apply truthy_true.
    + by apply indexOk_drop.
  - by apply indexOk_drop.
  - eapply indexOk_frame; [|exact Hok]. intros uid usr0 Hu0.
    destruct (Strings.String.string_dec uid u) as [->|Hneq].
    + exists usr'. rewrite lookup_insert_eq. split; [done|]. congruence.
    + exists usr0. by rewrite lookup_insert_ne.
Qed.

(** Rewriting the record of [u] without touching [field]. *)
Lemma indexOk_rewrite idx us u usr usr' :
  indexOk field idx us ->
  us !! u = Some usr ->
  field usr' = field usr ->
  indexOk field idx (<[u := usr']> us).
Proof.
  intros Hok Hu Hf. eapply indexOk_frame; [|exact Hok]. intros uid usr0 Hu0.
  destruct (Strings.String.string_dec uid u) as [->|Hneq].
  - exists usr'. rewrite lookup_insert_eq. split; [done|]. congruence.
  - exists usr0. by rewrite lookup_insert_ne.
Qed.

(** A record under a fresh id disturbs no entry. *)
Lemma indexOk_fresh idx us u usr' :
  indexOk field idx us ->
  us !! u = None ->
  indexOk field idx (<[u := usr']> us).
Proof.
  intros Hok Hu. eapply indexOk_frame; [|exact Hok]. intros uid usr0 Hu0.
  exists usr0. rewrite lookup_insert_ne; [done|]. congruence.
Qed.

End IndexOk.

Lemma Consistent_empty : Consistent emptyStore.
Proof. split; apply indexOk_empty. Qed.

Lemma Consistent_step s s' : Consistent s -> step s s' -> Consistent s'.
Proof.
  intros [Hv Hp] Hstep. destruct Hstep as
    [uuid now data s Hfresh | id data now s | u t e now s Ht | u now s
    | u t e now s Ht | u now s].
  - cbn. split; cbn.
    + destruct (CreateUserInput.emailVerificationToken data) as [tok|] eqn:Etok; cbn.
      * destruct (truthy tok) eqn:Et.
        -- intros t0 uid Ht0.
           destruct (Strings.String.string_dec tok t0) as [<-|Hneq].
           ++ rewrite lookup_insert_eq in Ht0. injection Ht0 as <-.
              split; [by apply truthy_true|].
              eexists. rewrite lookup_insert_eq. by split.
           ++ rewrite lookup_insert_ne in Ht0 by done.
              by apply (indexOk_fresh _ _ _ uuid _ Hv Hfresh).
        -- by apply indexOk_fresh.
      * by apply indexOk_fresh.
    + by apply indexOk_fresh.
  - unfold MemoryAdapter.updateUser.
    destruct (users s !! id) as [user|] eqn:Hu; cbn; [|done].
    split; cbn; by apply indexOk_reindex.
  - unfold MemoryAdapter.setVerificationToken.
    destruct (users s !! u) as [user|] eqn:Hu; cbn; [|done].
    split; cbn; [by apply indexOk_set | by eapply indexOk_rewrite].
  - unfold MemoryAdapter.clearVerificationToken.
    destruct (users s !! u) as [user|] eqn:Hu; cbn; [|done].
    split; cbn; [by apply indexOk_drop | by eapply indexOk_rewrite].
  - unfold MemoryAdapter.setPasswordResetToken.
    destruct (users s !! u) as [user|] eqn:Hu; cbn; [|done].
    split; cbn; [by eapply indexOk_rewrite | by apply indexOk_set].
  - unfold MemoryAdapter.clearPasswordResetToken.
    destruct (users s !! u) as [user|] eqn:Hu; cbn; [|done].
    split; cbn; [by eapply indexOk_rewrite | by apply indexOk_drop].
Qed.

(** Every store the adapter can be in has consistent token indexes. *)
Lemma reachable_Consistent s : reachable s -> Consistent s.
Proof.
  induction 1 as [|s s' _ IH Hstep]; [apply Consistent_empty|].
  by apply (Consistent_step s s').
Qed.

(** ** Storage adapter: token lookups *)

Lemma getVerificationToken_Some t s td :
  MemoryAdapter.getVerificationToken t s = Some td ->
  exists usr,
    verificationTokenIndex s !! t = Some (TokenData.userId td)
    /\ users s !! TokenData.userId td = Some usr
    /\ User.emailVerificationTokenExpiresAt usr = Some (TokenData.expiresAt td)
    /\ TokenData.token td = t.
Proof.
  unfold MemoryAdapter.getVerificationToken.
  destruct (verificationTokenIndex s !! t) as [uid|]; [|done].
  destruct (truthy uid); [|done].
  destruct (users s !! uid) as [usr|] eqn:Hu; [|done].
  destruct (User.emailVerificationTokenExpiresAt usr) as [exp|] eqn:He; [|done].
  intros [= <-]. cbn. eauto.
Qed.

Lemma getPasswordResetToken_Some t s td :
  MemoryAdapter.getPasswordResetToken t s = Some td ->
  exists usr,
    passwordResetTokenIndex s !! t = Some (TokenData.userId td)
    /\ users s !! TokenData.userId td = Some usr
    /\ User.passwordResetTokenExpiresAt usr = Some (TokenData.expiresAt td)
    /\ TokenData.token td = t.
Proof.
  unfold MemoryAdapter.getPasswordResetToken.
  destruct (passwordResetTokenIndex s !! t) as [uid|]; [|done].
  destruct (truthy uid); [|done].
  destruct (users s !! uid) as [usr|] eqn:Hu; [|done].
  destruct (User.passwordResetTokenExpiresAt usr) as [exp|] eqn:He; [|done].
  intros [= <-]. cbn. eauto.
Qed.

(** A lookup is decided by the index entry and the record it points to. *)
Lemma getVerificationToken_ext t s s' :
  verificationTokenIndex s' !! t = verificationTokenIndex s !! t ->
  (forall uid, verificationTokenIndex s !! t = Some uid -> users s' !! uid = users s !! uid) ->
  MemoryAdapter.getVerificationToken t s' = MemoryAdapter.getVerificationToken t s.
Proof.
  intros Hi Hu. unfold MemoryAdapter.getVerificationToken. rewrite Hi.
  destruct (verificationTokenIndex s !! t) as [uid|]; [|done].
  by rewrite (Hu uid).
Qed.

Lemma getPasswordResetToken_ext t s s' :
  passwordResetTokenIndex s' !! t = passwordResetTokenIndex s !! t ->
  (forall uid, passwordResetTokenIndex s !! t = Some uid -> users s' !! uid = users s !! uid) ->
  MemoryAdapter.getPasswordResetToken t s' = MemoryAdapter.getPasswordResetToken t s.
Proof.
  intros Hi Hu. unfold MemoryAdapter.getPasswordResetToken. rewrite Hi.
  destruct (passwordResetTokenIndex s !! t) as [uid|]; [|done].
  by rewrite (Hu uid).
Qed.

(** C10. For a [userId] with no stored user, [clearVerificationToken] and
    [clearPasswordResetToken] return and leave the store as it was, while
    [setVerificationToken] and [setPasswordResetToken] throw the
    user-not-found error. *)
Theorem clear_missing_noop_set_missing_throws
    (s : Store) (userId token : string) (expiresAt now : Date) :
  users s !! userId = None ->
  MemoryAdapter.clearVerificationToken userId now s = Returned tt s
  /\ MemoryAdapter.clearPasswordResetToken userId now s = Returned tt s
  /\ MemoryAdapter.setVerificationToken userId token expiresAt now s
     = Thrown ("User not found: " ++ userId) s
  /\ MemoryAdapter.setPasswordResetToken userId token expiresAt now s
     = Thrown ("User not found: " ++ userId) s.
Proof.
  intros Hu.
  unfold MemoryAdapter.clearVerificationToken, MemoryAdapter.clearPasswordResetToken,
    MemoryAdapter.setVerificationToken, MemoryAdapter.setPasswordResetToken.
  by rewrite Hu.
Qed.

Lemma clear_missing_noop_set_missing_throws_witness :
  MemoryAdapter.clearVerificationToken "ghost" 7 emptyStore = Returned tt emptyStore
  /\ MemoryAdapter.clearPasswordResetToken "ghost" 7 emptyStore = Returned tt emptyStore
  /\ MemoryAdapter.setVerificationToken "ghost" "tok" 99 7 emptyStore
     = Thrown "User not found: ghost" emptyStore
  /\ MemoryAdapter.setPasswordResetToken "ghost" "tok" 99 7 emptyStore
     = Thrown "User not found: ghost" emptyStore.
Proof.
  apply (clear_missing_noop_set_missing_throws emptyStore "ghost" "tok" 99 7).
  reflexivity.
Defined.

(** ** Storage adapter: supersession *)

Lemma setVerificationToken_supersedes s u t2 e now sv :
  MemoryAdapter.setVerificationToken u t2 e now s = Returned tt sv ->
  (forall usr t1,
      users s !! u = Some usr -> User.emailVerificationToken usr = Some t1 ->
      t1 <> "" -> t1 <> t2 ->
      MemoryAdapter.getVerificationToken t1 sv = None)
  /\ (reachable s ->
      forall t1, t1 <> t2 ->
        (forall td, MemoryAdapter.getVerificationToken t1 s = Some td -> TokenData.userId td = u) ->
        MemoryAdapter.getVerificationToken t1 sv = None)
  /\ (reachable s ->
      forall t td, MemoryAdapter.getVerificationToken t sv = Some td ->
        TokenData.userId td = u -> t = t2).
Proof.
  unfold MemoryAdapter.setVerificationToken.
  destruct (users s !! u) as [usr|] eqn:Hu; [|done]. intros [= <-].
  split; [|split].
  - intros usr0 t1 [= <-] Hf Ht1 Hne.
    unfold MemoryAdapter.getVerificationToken; cbn.
    rewrite lookup_insert_ne by done. rewrite Hf.
    by rewrite dropOld_lookup_old.
  - intros Hr t1 Hne Hown. apply reachable_Consistent in Hr as [Hv _].
    destruct (MemoryAdapter.dropOld (User.emailVerificationToken usr)
                (verificationTokenIndex s) !! t1) as [uid|] eqn:Hd.
    + apply dropOld_lookup_Some in Hd as [Hi Hold].
      destruct (Hv t1 uid Hi) as (Hne1 & usr0 & Hu0 & Hf0).
      assert (Hneq : uid <> u).
      { intros ->. apply Hne1, Hold. congruence. }
      destruct (MemoryAdapter.getVerificationToken t1 s) as [td|] eqn:Hg.
      * apply getVerificationToken_Some in Hg as Hg'.
        destruct Hg' as (_ & Hi' & _). specialize (Hown td eq_refl). congruence.
      * rewrite <- Hg. apply getVerificationToken_ext; cbn.
        -- rewrite lookup_insert_ne by done. rewrite dropOld_lookup_ne; [done|].
           intros Ho. by apply Hne1, Hold.
        -- intros uid' Hi'. rewrite lookup_insert_ne; [done|]. congruence.
    + unfold MemoryAdapter.getVerificationToken; cbn.
      rewrite lookup_insert_ne by done. by rewrite Hd.
  - intros Hr t td Hg <-. apply reachable_Consistent in Hr as [Hv _].
    apply getVerificationToken_Some in Hg as (_ & Hi & _). cbn in Hi.
    destruct (Strings.String.string_dec t2 t) as [->|Hne]; [done|].
    rewrite lookup_insert_ne in Hi by done.
    apply dropOld_lookup_Some in Hi as [Hi Hold].
    destruct (Hv t _ Hi) as (Hne1 & usr0 & Hu0 & Hf0).
    exfalso. apply Hne1, Hold. congruence.
Qed.

Lemma setPasswordResetToken_supersedes s u t2 e now sp :
  MemoryAdapter.setPasswordResetToken u t2 e now s = Returned tt sp ->
  (forall usr t1,
      users s !! u = Some usr -> User.passwordResetToken usr = Some t1 ->
      t1 <> "" -> t1 <> t2 ->
      MemoryAdapter.getPasswordResetToken t1 sp = None)
  /\ (reachable s ->
      forall t1, t1 <> t2 ->
        (forall td, MemoryAdapter.getPasswordResetToken t1 s = Some td -> TokenData.userId td = u) ->
        MemoryAdapter.getPasswordResetToken t1 sp = None)
  /\ (reachable s ->
      forall t td, MemoryAdapter.getPasswordResetToken t sp = Some td ->
        TokenData.userId td = u -> t = t2).
Proof.
  unfold MemoryAdapter.setPasswordResetToken.
  destruct (users s !! u) as [usr|] eqn:Hu; [|done]. intros [= <-].
  split; [|split].
  - intros usr0 t1 [= <-] Hf Ht1 Hne.
    unfold MemoryAdapter.getPasswordResetToken; cbn.
    rewrite lookup_insert_ne by done. rewrite Hf.
    by rewrite dropOld_lookup_old.
  - intros Hr t1 Hne Hown. apply reachable_Consistent in Hr as [_ Hp].
    destruct (MemoryAdapter.dropOld (User.passwordResetToken usr)
                (passwordResetTokenIndex s) !! t1) as [uid|] eqn:Hd.
    + apply dropOld_lookup_Some in Hd as [Hi Hold].
      destruct (Hp t1 uid Hi) as (Hne1 & usr0 & Hu0 & Hf0).
      assert (Hneq : uid <> u).
      { intros ->. apply Hne1, Hold. congruence. }
      destruct (MemoryAdapter.getPasswordResetToken t1 s) as [td|] eqn:Hg.
      * apply getPasswordResetToken_Some in Hg as Hg'.
        destruct Hg' as (_ & Hi' & _). specialize (Hown td eq_refl). congruence.
      * rewrite <- Hg. apply getPasswordResetToken_ext; cbn.
        -- rewrite lookup_insert_ne by done. rewrite dropOld_lookup_ne; [done|].
           intros Ho. by apply Hne1, Hold.
        -- intros uid' Hi'. rewrite lookup_insert_ne; [done|]. congruence.
    + unfold MemoryAdapter.getPasswordResetToken; cbn.
      rewrite lookup_insert_ne by done. by rewrite Hd.
  - intros Hr t td Hg <-. apply reachable_Consistent in Hr as [_ Hp].
    apply getPasswordResetToken_Some in Hg as (_ & Hi & _). cbn in Hi.
    destruct (Strings.String.string_dec t2 t) as [->|Hne]; [done|].
    rewrite lookup_insert_ne in Hi by done.
    apply dropOld_lookup_Some in Hi as [Hi Hold].
    destruct (Hp t _ Hi) as (Hne1 & usr0 & Hu0 & Hf0).
    exfalso. apply Hne1, Hold. congruence.
Qed.

(** C5. Once [setVerificationToken] (resp. [setPasswordResetToken]) has
    stored a new token [t2] for user [u], a token [t1] of the same purpose
    that [u] held before no longer resolves: the token on [u]'s record is
    dropped from the index, and in every store the adapter can reach any
    other token that resolved to [u] or to nobody resolves to nobody, so that
    [t2] is the only token of that purpose that resolves to [u]. *)
Theorem token_supersession (s : Store) (u t2 : string) (e now : Date) :
  (forall sv,
      MemoryAdapter.setVerificationToken u t2 e now s = Returned tt sv ->
      (forall usr t1,
          users s !! u = Some usr -> User.emailVerificationToken usr = Some t1 ->
          t1 <> "" -> t1 <> t2 ->
          MemoryAdapter.getVerificationToken t1 sv = None)
      /\ (reachable s ->
          forall t1, t1 <> t2 ->
            (forall td, MemoryAdapter.getVerificationToken t1 s = Some td ->
                        TokenData.userId td = u) ->
            MemoryAdapter.getVerificationToken t1 sv = None)
      /\ (reachable s ->
          forall t td, MemoryAdapter.getVerificationToken t sv = Some td ->
            TokenData.userId td = u -> t = t2))
  /\ (forall sp,
      MemoryAdapter.setPasswordResetToken u t2 e now s = Returned tt sp ->
      (forall usr t1,
          users s !! u = Some usr -> User.passwordResetToken usr = Some t1 ->
          t1 <> "" -> t1 <> t2 ->
          MemoryAdapter.getPasswordResetToken t1 sp = None)
      /\ (reachable s ->
          forall t1, t1 <> t2 ->
            (forall td, MemoryAdapter.getPasswordResetToken t1 s = Some td ->
                        TokenData.userId td = u) ->
            MemoryAdapter.getPasswordResetToken t1 sp = None)
      /\ (reachable s ->
          forall t td, MemoryAdapter.getPasswordResetToken t sp = Some td ->
            TokenData.userId td = u -> t = t2)).
Proof.
  split; intros s' Hset.
  - by apply (setVerificationToken_supersedes s u t2 e now).
  - by apply (setPasswordResetToken_supersedes s u t2 e now).
Qed.

Lemma token_supersession_witness :
  let s1 := storeOf (MemoryAdapter.createUser "u1" 0
                       (CreateUserInput.mk "a@x.com" "h" "Ann" (Some "t0") (Some 100))
                       emptyStore) in
  let s2 := storeOf (MemoryAdapter.setPasswordResetToken "u1" "r1" 200 1 s1) in
  let s3 := storeOf (MemoryAdapter.setPasswordResetToken "u1" "r2" 300 2 s2) in
  let s4 := storeOf (MemoryAdapter.setVerificationToken "u1" "t2" 300 3 s2) in
  MemoryAdapter.getPasswordResetToken "r1" s3 = None
  /\ MemoryAdapter.getVerificationToken "t0" s4 = None.
Proof.
  intros s1 s2 s3 s4.
  assert (Hr : reachable s2).
  { apply (reachable_step s1).
    - apply (reachable_step emptyStore); [apply reachable_empty|].
      by apply (step_createUser "u1" 0).
    - by apply (step_setPasswordResetToken "u1" "r1" 200 1 s1). }
  destruct (token_supersession s2 "u1" "r2" 300 2) as [_ Hp].
  destruct (token_supersession s2 "u1" "t2" 300 3) as [Hv _].
  destruct (Hp s3 eq_refl) as (_ & Hp2 & _).
  destruct (Hv s4 eq_refl) as (Hv1 & _).
  split.
  - apply (Hp2 Hr "r1"); [done|]. intros td Hg. vm_compute in Hg. by injection Hg as <-.
  - by eapply (Hv1 _ "t0").
Defined.

(** ** Consuming a token *)

Lemma updateUser_found id data now s usr :
  users s !! id = Some usr ->
  exists usr', MemoryAdapter.updateUser id data now s
               = Returned usr'
                   (mkStore (<[id := usr']> (users s))
                      (emailIndex (storeOf (MemoryAdapter.updateUser id data now s)))
                      (MemoryAdapter.reindexToken id (User.emailVerificationToken usr)
                         (UpdateUserInput.emailVerificationToken data)
                         (verificationTokenIndex s))
                      (MemoryAdapter.reindexToken id (User.passwordResetToken usr)
                         (UpdateUserInput.passwordResetToken data)
                         (passwordResetTokenIndex s)))
    /\ User.emailVerificationToken usr'
       = default (User.emailVerificationToken usr) (UpdateUserInput.emailVerificationToken data)
    /\ User.emailVerificationTokenExpiresAt usr'
       = default (User.emailVerificationTokenExpiresAt usr)
           (UpdateUserInput.emailVerificationTokenExpiresAt data)
    /\ User.passwordResetToken usr'
       = default (User.passwordResetToken usr) (UpdateUserInput.passwordResetToken data)
    /\ User.passwordResetTokenExpiresAt usr'
       = default (User.passwordResetTokenExpiresAt usr)
           (UpdateUserInput.passwordResetTokenExpiresAt data)
    /\ User.passwordHash usr'
       = default (User.passwordHash usr) (UpdateUserInput.passwordHash data)
    /\ User.emailVerified usr'
       = default (User.emailVerified usr) (UpdateUserInput.emailVerified data).
Proof.
  intros Hu. unfold MemoryAdapter.updateUser. rewrite Hu. cbn.
  eexists. split; [reflexivity|]. cbn. done.
Qed.

(** What [verifyUserEmail] leaves behind for a stored user: the record has
    no verification token and no expiry, and the index has lost the record's
    old token. *)
Lemma verifyUserEmail_found u nowV now s usr :
  users s !! u = Some usr ->
  exists s' usr',
    MemoryAdapter.verifyUserEmail u nowV now s = Returned tt s'
    /\ users s' = <[u := usr']> (users s)
    /\ User.emailVerificationToken usr' = None
    /\ User.emailVerificationTokenExpiresAt usr' = None
    /\ User.emailVerified usr' = Some nowV
    /\ verificationTokenIndex s'
       = MemoryAdapter.dropOld (User.emailVerificationToken usr) (verificationTokenIndex s)
    /\ passwordResetTokenIndex s' = passwordResetTokenIndex s.
Proof.
  intros Hu. unfold MemoryAdapter.verifyUserEmail.
  destruct (updateUser_found u
              (UpdateUserInput.mk None None None (Some (Some nowV)) (Some None) (Some None)
                 None None) now s usr Hu)
    as (usr' & -> & Ht & He & _ & _ & _ & Hv).
  eexists _, usr'. split; [reflexivity|]. cbn. done.
Qed.

Lemma updatePassword_found u h now s usr :
  users s !! u = Some usr ->
  exists s' usr',
    MemoryAdapter.updatePassword u h now s = Returned tt s'
    /\ users s' = <[u := usr']> (users s)
    /\ User.passwordResetToken usr' = None
    /\ User.passwordResetTokenExpiresAt usr' = None
    /\ User.passwordHash usr' = h
    /\ passwordResetTokenIndex s'
       = MemoryAdapter.dropOld (User.passwordResetToken usr) (passwordResetTokenIndex s)
    /\ verificationTokenIndex s' = verificationTokenIndex s.
Proof.
  intros Hu. unfold MemoryAdapter.updatePassword.
  destruct (updateUser_found u
              (UpdateUserInput.mk None (Some h) None None None None (Some None) (Some None))
              now s usr Hu)
    as (usr' & -> & _ & _ & Ht & He & Hh & _).
  eexists _, usr'. split; [reflexivity|]. cbn. done.
Qed.

(** After [verifyUserEmail] for the user a token resolved to, the token
    resolves to nobody. *)
Lemma verifyUserEmail_unreachable t s td nowV now s' :
  MemoryAdapter.getVerificationToken t s = Some td ->
  MemoryAdapter.verifyUserEmail (TokenData.userId td) nowV now s = Returned tt s' ->
  MemoryAdapter.getVerificationToken t s' = None.
Proof.
  intros Hg Hv. apply getVerificationToken_Some in Hg as (usr & Hi & Hu & _).
  destruct (verifyUserEmail_found _ nowV now s usr Hu)
    as (s1 & usr' & Hv' & Hus & _ & He & _ & Hidx & _).
  rewrite Hv in Hv'. injection Hv' as <-.
  unfold MemoryAdapter.getVerificationToken. rewrite Hidx.
  destruct (MemoryAdapter.dropOld _ _ !! t) as [uid|] eqn:Hd; [|done].
  apply dropOld_lookup_Some in Hd as [Hi' _].
  assert (uid = TokenData.userId td) as -> by congruence.
  destruct (truthy _); [|done].
  rewrite Hus, lookup_insert_eq. by rewrite He.
Qed.

Lemma updatePassword_unreachable t s td h now s' :
  MemoryAdapter.getPasswordResetToken t s = Some td ->
  MemoryAdapter.updatePassword (TokenData.userId td) h now s = Returned tt s' ->
  MemoryAdapter.getPasswordResetToken t s' = None.
Proof.
  intros Hg Hv. apply getPasswordResetToken_Some in Hg as (usr & Hi & Hu & _).
  destruct (updatePassword_found _ h now s usr Hu)
    as (s1 & usr' & Hv' & Hus & _ & He & _ & Hidx & _).
  rewrite Hv in Hv'. injection Hv' as <-.
  unfold MemoryAdapter.getPasswordResetToken. rewrite Hidx.
  destruct (MemoryAdapter.dropOld _ _ !! t) as [uid|] eqn:Hd; [|done].
  apply dropOld_lookup_Some in Hd as [Hi' _].
  assert (uid = TokenData.userId td) as -> by congruence.
  destruct (truthy _); [|done].
  rewrite Hus, lookup_insert_eq. by rewrite He.
Qed.

(** In a reachable store the index entry itself goes away. *)
Lemma verifyUserEmail_unindexed t s td nowV now s' :
  reachable s ->
  MemoryAdapter.getVerificationToken t s = Some td ->
  MemoryAdapter.verifyUserEmail (TokenData.userId td) nowV now s = Returned tt s' ->
  verificationTokenIndex s' !! t = None
  /\ exists usr', users s' !! TokenData.userId td = Some usr'
                  /\ User.emailVerificationToken usr' = None
                  /\ User.emailVerificationTokenExpiresAt usr' = None.
Proof.
  intros Hr Hg Hv. apply reachable_Consistent in Hr as [Hc _].
  apply getVerificationToken_Some in Hg as (usr & Hi & Hu & _).
  destruct (verifyUserEmail_found _ nowV now s usr Hu)
    as (s1 & usr' & Hv' & Hus & Ht & He & _ & Hidx & _).
  rewrite Hv in Hv'. injection Hv' as <-.
  destruct (Hc t _ Hi) as (Hne & usr0 & Hu0 & Hf0).
  assert (usr0 = usr) as -> by congruence.
  split.
  - rewrite Hidx, Hf0. by apply dropOld_lookup_old.
  - exists usr'. by rewrite Hus, lookup_insert_eq.
Qed.

Lemma updatePassword_unindexed t s td h now s' :
  reachable s ->
  MemoryAdapter.getPasswordResetToken t s = Some td ->
  MemoryAdapter.updatePassword (TokenData.userId td) h now s = Returned tt s' ->
  passwordResetTokenIndex s' !! t = None
  /\ exists usr', users s' !! TokenData.userId td = Some usr'
                  /\ User.passwordResetToken usr' = None
                  /\ User.passwordResetTokenExpiresAt usr' = None.
Proof.
  intros Hr Hg Hv. apply reachable_Consistent in Hr as [_ Hc].
  apply getPasswordResetToken_Some in Hg as (usr & Hi & Hu & _).
  destruct (updatePassword_found _ h now s usr Hu)
    as (s1 & usr' & Hv' & Hus & Ht & He & _ & Hidx & _).
  rewrite Hv in Hv'. injection Hv' as <-.
  destruct (Hc t _ Hi) as (Hne & usr0 & Hu0 & Hf0).
  assert (usr0 = usr) as -> by congruence.
  split.
  - rewrite Hidx, Hf0. by apply dropOld_lookup_old.
  - exists usr'. by rewrite Hus, lookup_insert_eq.
Qed.

(** ** Route handlers *)

Lemma applyRateLimit_Some identifier endpoint config nowC now nowR st r st' :
  applyRateLimit identifier endpoint config nowC now nowR st = (Some r, st') ->
  exists a b, r = JsonRateLimited a b.
Proof.
  unfold applyRateLimit.
  destruct (checkRateLimit identifier endpoint config nowC now st) as [res st1].
  destruct (RateLimitResult.allowed res); [done|].
  intros [= <- <-]. unfold rateLimitResponse. eauto.
Qed.

Section VerifyEmail.

Variables (t : string) (clk : Clock.t) (w : World).
Hypothesis Ht : t <> "".

Lemma verifyEmail_GET_unknown :
  MemoryAdapter.getVerificationToken t (db w) = None ->
  VerifyEmailRoute.GET (Some t) clk w = (invalidVerificationToken, w).
Proof.
  intros Hg. unfold VerifyEmailRoute.GET.
  apply truthy_true in Ht. rewrite Ht, Hg. done.
Qed.

Lemma verifyEmail_GET_expired td :
  MemoryAdapter.getVerificationToken t (db w) = Some td ->
  TokenData.expiresAt td < Clock.expiry clk ->
  VerifyEmailRoute.GET (Some t) clk w = (verificationTokenExpired, w).
Proof.
  intros Hg He. unfold VerifyEmailRoute.GET.
  apply truthy_true in Ht. rewrite Ht, Hg. cbn.
  apply Z.ltb_lt in He. by rewrite He.
Qed.

Lemma verifyEmail_GET_live td :
  MemoryAdapter.getVerificationToken t (db w) = Some td ->
  Clock.expiry clk <= TokenData.expiresAt td ->
  exists s',
    MemoryAdapter.verifyUserEmail (TokenData.userId td) (Clock.stamp clk)
      (Clock.write clk) (db w) = Returned tt s'
    /\ VerifyEmailRoute.GET (Some t) clk w
       = (Redirect "/verify-email/success", mkWorld s' (rl w)).
Proof.
  intros Hg He. unfold VerifyEmailRoute.GET.
  apply truthy_true in Ht. rewrite Ht, Hg. cbn.
  assert (Hlt : (TokenData.expiresAt td <? Clock.expiry clk) = false)
    by (apply Z.ltb_ge; lia).
  rewrite Hlt.
  apply getVerificationToken_Some in Hg as (usr & _ & Hu & _).
  destruct (verifyUserEmail_found _ (Clock.stamp clk) (Clock.write clk) _ usr Hu)
    as (s' & _ & -> & _).
  by exists s'.
Qed.

End VerifyEmail.

(** A successful confirmation went through every check. *)
Lemma verifyEmail_GET_success_inv tok clk w w' :
  VerifyEmailRoute.GET tok clk w = (Redirect "/verify-email/success", w') ->
  exists t td s',
    tok = Some t /\ t <> ""
    /\ MemoryAdapter.getVerificationToken t (db w) = Some td
    /\ Clock.expiry clk <= TokenData.expiresAt td
    /\ MemoryAdapter.verifyUserEmail (TokenData.userId td) (Clock.stamp clk)
         (Clock.write clk) (db w) = Returned tt s'
    /\ w' = mkWorld s' (rl w).
Proof.
  destruct tok as [t|]; [|done]. cbn.
  destruct (truthy t) eqn:Ht; [|done]. cbn.
  destruct (MemoryAdapter.getVerificationToken t (db w)) as [td|] eqn:Hg; [|done].
  destruct (TokenData.expiresAt td <? Clock.expiry clk) eqn:He; [done|].
  destruct (MemoryAdapter.verifyUserEmail _ _ _ _) as [[] s'|m s'] eqn:Hv; [|done].
  intros [= <-]. exists t, td, s'.
  repeat split; try done; [by apply truthy_true | by apply Z.ltb_ge].
Qed.

Section ResetPassword.

Variables (env : Collaborators.t) (ipHash : string) (clk : Clock.t) (w : World).
Variable rl' : RLState.
Hypothesis Hrl : passesRateLimit ipHash "reset-password" RATE_LIMITS.PASSWORD_RESET clk w rl'.

Lemma resetPassword_POST_missing body :
  (ResetPasswordRoute.token body = None \/ ResetPasswordRoute.token body = Some ""
   \/ ResetPasswordRoute.password body = None
   \/ ResetPasswordRoute.password body = Some "") ->
  ResetPasswordRoute.POST env ipHash body clk w
  = (JsonError HTTP_STATUS.BAD_REQUEST ERROR_CODES.VALIDATION_ERROR
       "Token and password are required", mkWorld (db w) rl').
Proof.
  intros H. unfold ResetPasswordRoute.POST. red in Hrl. rewrite Hrl.
  destruct body as [[t|] [p|]]; cbn in *; try done.
  destruct H as [H|[H|[H|H]]]; try done; injection H as ->; [done|].
  by rewrite andb_false_r.
Qed.

Lemma resetPassword_POST_short t p :
  t <> "" -> p <> "" -> strLength p < 8 ->
  ResetPasswordRoute.POST env ipHash (ResetPasswordRoute.mkBody (Some t) (Some p)) clk w
  = (JsonError HTTP_STATUS.BAD_REQUEST ERROR_CODES.VALIDATION_ERROR
       "Password must be at least 8 characters", mkWorld (db w) rl').
Proof.
  intros Ht Hp Hlen. unfold ResetPasswordRoute.POST. red in Hrl. rewrite Hrl. cbn.
  apply truthy_true in Ht, Hp. rewrite Ht, Hp. cbn.
  apply Z.ltb_lt in Hlen. by rewrite Hlen.
Qed.

Lemma resetPassword_POST_unknown t p :
  t <> "" -> 8 <= strLength p ->
  MemoryAdapter.getPasswordResetToken t (db w) = None ->
  ResetPasswordRoute.POST env ipHash (ResetPasswordRoute.mkBody (Some t) (Some p)) clk w
  = (invalidResetToken, mkWorld (db w) rl').
Proof.
  intros Ht Hlen Hg. unfold ResetPasswordRoute.POST. red in Hrl. rewrite Hrl. cbn.
  assert (Hp : truthy p = true) by (by apply long_truthy).
  apply truthy_true in Ht. rewrite Ht, Hp. cbn.
  assert (Hl : (strLength p <? 8) = false) by (apply Z.ltb_ge; lia).
  by rewrite Hl, Hg.
Qed.

Lemma resetPassword_POST_expired t p td :
  t <> "" -> 8 <= strLength p ->
  MemoryAdapter.getPasswordResetToken t (db w) = Some td ->
  TokenData.expiresAt td < Clock.expiry clk ->
  ResetPasswordRoute.POST env ipHash (ResetPasswordRoute.mkBody (Some t) (Some p)) clk w
  = (resetTokenExpired, mkWorld (db w) rl').
Proof.
  intros Ht Hlen Hg He. unfold ResetPasswordRoute.POST. red in Hrl. rewrite Hrl. cbn.
  assert (Hp : truthy p = true) by (by apply long_truthy).
  apply truthy_true in Ht. rewrite Ht, Hp. cbn.
  assert (Hl : (strLength p <? 8) = false) by (apply Z.ltb_ge; lia).
  rewrite Hl, Hg. cbn. apply Z.ltb_lt in He. by rewrite He.
Qed.

Lemma resetPassword_POST_live t p td :
  t <> "" -> 8 <= strLength p ->
  MemoryAdapter.getPasswordResetToken t (db w) = Some td ->
  Clock.expiry clk <= TokenData.expiresAt td ->
  exists s',
    MemoryAdapter.updatePassword (TokenData.userId td) (Collaborators.hash env p 12)
      (Clock.write clk) (db w) = Returned tt s'
    /\ ResetPasswordRoute.POST env ipHash (ResetPasswordRoute.mkBody (Some t) (Some p)) clk w
       = (JsonSuccess, mkWorld s' rl').
Proof.
  intros Ht Hlen Hg He. unfold ResetPasswordRoute.POST. red in Hrl. rewrite Hrl. cbn.
  assert (Hp : truthy p = true) by (by apply long_truthy).
  apply truthy_true in Ht. rewrite Ht, Hp. cbn.
  assert (Hl : (strLength p <? 8) = false) by (apply Z.ltb_ge; lia).
  rewrite Hl, Hg. cbn.
  assert (Hlt : (TokenData.expiresAt td <? Clock.expiry clk) = false)
    by (apply Z.ltb_ge; lia).
  rewrite Hlt.
  apply getPasswordResetToken_Some in Hg as (usr & _ & Hu & _).
  destruct (updatePassword_found _ (Collaborators.hash env p 12) (Clock.write clk) _ usr Hu)
    as (s' & _ & -> & _).
  by exists s'.
Qed.

End ResetPassword.

Lemma resetPassword_POST_limited env ipHash body clk w r rl' :
  applyRateLimit ipHash "reset-password" RATE_LIMITS.PASSWORD_RESET (Clock.cleanup clk)
    (Clock.check clk) (Clock.retry clk) (rl w) = (Some r, rl') ->
  ResetPasswordRoute.POST env ipHash body clk w = (r, mkWorld (db w) rl').
Proof. intros H. unfold ResetPasswordRoute.POST. by rewrite H. Qed.

(** A successful reset went through every check. *)
Lemma resetPassword_POST_success_inv env ipHash body clk w w' :
  ResetPasswordRoute.POST env ipHash body clk w = (JsonSuccess, w') ->
  exists t p td s' rl',
    body = ResetPasswordRoute.mkBody (Some t) (Some p)
    /\ t <> "" /\ 8 <= strLength p
    /\ passesRateLimit ipHash "reset-password" RATE_LIMITS.PASSWORD_RESET clk w rl'
    /\ MemoryAdapter.getPasswordResetToken t (db w) = Some td
    /\ Clock.expiry clk <= TokenData.expiresAt td
    /\ MemoryAdapter.updatePassword (TokenData.userId td) (Collaborators.hash env p 12)
         (Clock.write clk) (db w) = Returned tt s'
    /\ w' = mkWorld s' rl'.
Proof.
  unfold ResetPasswordRoute.POST, passesRateLimit.
  destruct (applyRateLimit _ _ _ _ _ _ _) as [[r|] rl'] eqn:Hrl.
  { apply applyRateLimit_Some in Hrl as (a & b & ->). done. }
  destruct body as [[t|] [p|]]; cbn; try done.
  destruct (truthy t) eqn:Ht; [|done].
  destruct (truthy p) eqn:Hp; [|done]. cbn.
  destruct (strLength p <? 8) eqn:Hl; [done|].
  destruct (MemoryAdapter.getPasswordResetToken t (db w)) as [td|] eqn:Hg; [|done].
  destruct (TokenData.expiresAt td <? Clock.expiry clk) eqn:He; [done|].
  destruct (MemoryAdapter.updatePassword _ _ _ _) as [[] s'|m s'] eqn:Hv; [|done].
  intros [= <-]. exists t, p, td, s', rl'.
  repeat split; try done; [by apply truthy_true | by apply Z.ltb_ge | by apply Z.ltb_ge].
Qed.

(** C4. After a confirmation that consumed a token, the token resolves to
    nobody, so a second confirmation with it is answered with the
    invalid-token error (for the reset route: unless the rate limiter rejects
    the request first); and in every store the adapter can reach, the same
    [updateUser] call that rewrote the record removed the index entry and
    cleared the record's token and expiry. *)
Theorem token_single_use (w w' : World) :
  (forall tok clk,
      VerifyEmailRoute.GET tok clk w = (Redirect "/verify-email/success", w') ->
      exists t td,
        tok = Some t
        /\ MemoryAdapter.getVerificationToken t (db w) = Some td
        /\ MemoryAdapter.getVerificationToken t (db w') = None
        /\ (forall clk', VerifyEmailRoute.GET tok clk' w' = (invalidVerificationToken, w'))
        /\ (reachable (db w) ->
            verificationTokenIndex (db w') !! t = None
            /\ exists usr', users (db w') !! TokenData.userId td = Some usr'
                            /\ User.emailVerificationToken usr' = None
                            /\ User.emailVerificationTokenExpiresAt usr' = None))
  /\ (forall env ipHash body clk,
      ResetPasswordRoute.POST env ipHash body clk w = (JsonSuccess, w') ->
      exists t td,
        ResetPasswordRoute.token body = Some t
        /\ MemoryAdapter.getPasswordResetToken t (db w) = Some td
        /\ MemoryAdapter.getPasswordResetToken t (db w') = None
        /\ (forall env' ipHash' clk',
              (ResetPasswordRoute.POST env' ipHash' body clk' w').1 = invalidResetToken
              \/ exists a b,
                  (ResetPasswordRoute.POST env' ipHash' body clk' w').1 = JsonRateLimited a b)
        /\ (reachable (db w) ->
            passwordResetTokenIndex (db w') !! t = None
            /\ exists usr', users (db w') !! TokenData.userId td = Some usr'
                            /\ User.passwordResetToken usr' = None
                            /\ User.passwordResetTokenExpiresAt usr' = None)).
Proof.
  split.
  - intros tok clk Hok.
    apply verifyEmail_GET_success_inv in Hok as (t & td & s' & -> & Ht & Hg & _ & Hv & ->).
    exists t, td. split; [done|]. split; [done|].
    pose proof (verifyUserEmail_unreachable t _ td _ _ s' Hg Hv) as Hnone.
    split; [done|]. split.
    + intros clk'. by apply verifyEmail_GET_unknown.
    + intros Hr. by eapply (verifyUserEmail_unindexed t (db w) td).
  - intros env ipHash body clk Hok.
    apply resetPassword_POST_success_inv in Hok
      as (t & p & td & s' & rl' & -> & Ht & Hlen & _ & Hg & _ & Hv & ->).
    exists t, td. split; [done|]. split; [done|].
    pose proof (updatePassword_unreachable t _ td _ _ s' Hg Hv) as Hnone.
    split; [done|]. split.
    + intros env' ipHash' clk'.
      destruct (applyRateLimit ipHash' "reset-password" RATE_LIMITS.PASSWORD_RESET
                  (Clock.cleanup clk') (Clock.check clk') (Clock.retry clk')
                  (rl (mkWorld s' rl'))) as [[r|] rl2] eqn:Hrl.
      * right. rewrite (resetPassword_POST_limited _ _ _ _ _ r rl2 Hrl). cbn.
        by apply applyRateLimit_Some in Hrl.
      * left. by rewrite (resetPassword_POST_unknown env' ipHash' clk' _ rl2 Hrl t p).
    + intros Hr. by eapply (updatePassword_unindexed t (db w) td).
Qed.

Lemma token_single_use_witness :
  let s := storeOf (MemoryAdapter.createUser "u1" 0
                      (CreateUserInput.mk "a@x.com" "h" "Ann" (Some "t0") (Some 100))
                      emptyStore) in
  let w := mkWorld s (mkRL ∅ 0) in
  let clk := Clock.mk 50 50 50 50 50 50 50 in
  let w' := (VerifyEmailRoute.GET (Some "t0") clk w).2 in
  MemoryAdapter.getVerificationToken "t0" (db w') = None
  /\ VerifyEmailRoute.GET (Some "t0") clk w' = (invalidVerificationToken, w').
Proof.
  intros s w clk w'.
  destruct (token_single_use w w') as [Hv _].
  destruct (Hv (Some "t0") clk eq_refl) as (t & td & Ht & _ & Hnone & Hagain & _).
  injection Ht as <-. split; [exact Hnone | apply Hagain].
Defined.

(** C2, as the code has it.  A stored token is expired exactly when its
    [expiresAt] is strictly before the clock reading of the confirmation: the
    handler then answers [VERIFICATION_TOKEN_EXPIRED] (resp.
    [RESET_TOKEN_EXPIRED]) and leaves the store as it was; at any reading up to and
    including [expiresAt] the confirmation does not fail with the expiry
    error, it succeeds. *)
Theorem token_expiry_boundary (t : string) (td : TokenData.t) (clk : Clock.t) (w : World) :
  t <> "" ->
  (MemoryAdapter.getVerificationToken t (db w) = Some td ->
     (TokenData.expiresAt td < Clock.expiry clk ->
        VerifyEmailRoute.GET (Some t) clk w = (verificationTokenExpired, w))
     /\ (Clock.expiry clk <= TokenData.expiresAt td ->
        (VerifyEmailRoute.GET (Some t) clk w).1 = Redirect "/verify-email/success"))
  /\ (forall env ipHash p rl',
     passesRateLimit ipHash "reset-password" RATE_LIMITS.PASSWORD_RESET clk w rl' ->
     8 <= strLength p ->
     MemoryAdapter.getPasswordResetToken t (db w) = Some td ->
     let body := ResetPasswordRoute.mkBody (Some t) (Some p) in
     (TokenData.expiresAt td < Clock.expiry clk ->
        ResetPasswordRoute.POST env ipHash body clk w
        = (resetTokenExpired, mkWorld (db w) rl'))
     /\ (Clock.expiry clk <= TokenData.expiresAt td ->
        (ResetPasswordRoute.POST env ipHash body clk w).1 = JsonSuccess)).
Proof.
  intros Ht. split.
  - intros Hg. split; intros He.
    + by apply (verifyEmail_GET_expired t clk w Ht td).
    + destruct (verifyEmail_GET_live t clk w Ht td Hg He) as (s' & _ & ->). done.
  - intros env ipHash p rl' Hrl Hlen Hg body. subst body. split; intros He.
    + by apply (resetPassword_POST_expired env ipHash clk w rl' Hrl t p td).
    + destruct (resetPassword_POST_live env ipHash clk w rl' Hrl t p td Ht Hlen Hg He)
        as (s' & _ & ->). done.
Qed.

Lemma token_expiry_boundary_witness :
  VerifyEmailRoute.GET (Some "t0") (Clock.mk 0 0 0 0 101 101 101) demoWorld
  = (verificationTokenExpired, demoWorld)
  /\ (ResetPasswordRoute.POST demoEnv "ip" (ResetPasswordRoute.mkBody (Some "r0") (Some "Abcdef12"))
        (Clock.mk 0 0 0 0 100 100 100) demoWorld).1 = JsonSuccess.
Proof.
  split.
  - destruct (token_expiry_boundary "t0" (TokenData.mk "u1" "t0" 100)
                (Clock.mk 0 0 0 0 101 101 101) demoWorld) as [Hv _]; [done|].
    destruct (Hv eq_refl) as [Hexp _]. apply Hexp. cbn. lia.
  - destruct (token_expiry_boundary "r0" (TokenData.mk "u1" "r0" 100)
                (Clock.mk 0 0 0 0 100 100 100) demoWorld) as [_ Hp]; [done|].
    destruct (Hp demoEnv "ip" "Abcdef12" (mkRL {[ "ip:reset-password" := RateLimitEntry.mk 1 3600000 ]} 0))
      as [_ Hlive].
    + reflexivity.
    + unfold strLength; cbn; lia.
    + reflexivity.
    + apply Hlive. cbn. lia.
Defined.

(** Counterexample to C2 as stated: a verification token and a reset token
    that expire at 100 are both accepted by a confirmation whose clock reads
    exactly 100. *)
Lemma token_expiry_boundary_counterexample :
  let clk := Clock.mk 0 0 0 0 100 100 100 in
  MemoryAdapter.getVerificationToken "t0" demoStore = Some (TokenData.mk "u1" "t0" 100)
  /\ MemoryAdapter.getPasswordResetToken "r0" demoStore = Some (TokenData.mk "u1" "r0" 100)
  /\ Clock.expiry clk >= 100
  /\ (VerifyEmailRoute.GET (Some "t0") clk demoWorld).1 = Redirect "/verify-email/success"
  /\ (VerifyEmailRoute.GET (Some "t0") clk demoWorld).1 <> verificationTokenExpired
  /\ (ResetPasswordRoute.POST demoEnv "ip"
        (ResetPasswordRoute.mkBody (Some "r0") (Some "Abcdef12")) clk demoWorld).1 = JsonSuccess
  /\ (ResetPasswordRoute.POST demoEnv "ip"
        (ResetPasswordRoute.mkBody (Some "r0") (Some "Abcdef12")) clk demoWorld).1
     <> resetTokenExpired.
Proof.
  cbv zeta. repeat split; try reflexivity; try (cbn; lia); vm_compute; discriminate.
Qed.

(** C3, as the code has it.  For a reset request that got past the rate
    limiter with a valid, unexpired token, the answer is a validation error
    exactly when the password is missing, empty or shorter than 8 characters
    (the handler checks nothing else about it); in particular every password
    the registration schema accepts is accepted. *)
Theorem reset_password_policy
    (env : Collaborators.t) (ipHash : string) (clk : Clock.t) (w : World) (rl' : RLState)
    (t : string) (td : TokenData.t) (password : option string) :
  passesRateLimit ipHash "reset-password" RATE_LIMITS.PASSWORD_RESET clk w rl' ->
  t <> "" ->
  MemoryAdapter.getPasswordResetToken t (db w) = Some td ->
  Clock.expiry clk <= TokenData.expiresAt td ->
  let r := (ResetPasswordRoute.POST env ipHash (ResetPasswordRoute.mkBody (Some t) password)
              clk w).1 in
  (isValidationError r
   <-> (password = None \/ exists p, password = Some p /\ strLength p < 8))
  /\ (forall p, password = Some p -> 8 <= strLength p -> r = JsonSuccess)
  /\ (forall p, password = Some p -> passwordSchema p = true -> r = JsonSuccess).
Proof.
  intros Hrl Ht Hg He r. subst r.
  assert (Hlong : forall p, password = Some p -> 8 <= strLength p ->
            (ResetPasswordRoute.POST env ipHash (ResetPasswordRoute.mkBody (Some t) password)
               clk w).1 = JsonSuccess).
  { intros p -> Hlen.
    destruct (resetPassword_POST_live env ipHash clk w rl' Hrl t p td Ht Hlen Hg He)
      as (s' & _ & ->). done. }
  split; [|split]; [|exact Hlong|].
  - destruct password as [p|].
    + destruct (Z.lt_ge_cases (strLength p) 8) as [Hshort|Hlen].
      * split; [intros _; right; eauto|]. intros _.
        destruct (Strings.String.string_dec p "") as [->|Hp].
        -- rewrite (resetPassword_POST_missing env ipHash clk w rl' Hrl); cbn; [|tauto].
           by eexists.
        -- rewrite (resetPassword_POST_short env ipHash clk w rl' Hrl t p Ht Hp Hshort).
           by eexists.
      * rewrite (Hlong p eq_refl Hlen). split.
        -- intros [m Hm]. discriminate.
        -- intros [H|(p' & [= <-] & Hs)]; [done | lia].
    + rewrite (resetPassword_POST_missing env ipHash clk w rl' Hrl); cbn; [|tauto].
      split; [by left | intros _; by eexists].
  - intros p Hp Hs. apply (Hlong p Hp).
    unfold passwordSchema in Hs. apply andb_prop in Hs as [Hs _].
    apply andb_prop in Hs as [Hs _]. apply andb_prop in Hs as [Hs _].
    apply andb_prop in Hs as [Hs _]. by apply Z.leb_le.
Qed.

Lemma reset_password_policy_witness :
  isValidationError
    (ResetPasswordRoute.POST demoEnv "ip" (ResetPasswordRoute.mkBody (Some "r0") (Some "Ab1"))
       (Clock.mk 0 0 0 0 50 50 50) demoWorld).1
  /\ (ResetPasswordRoute.POST demoEnv "ip"
        (ResetPasswordRoute.mkBody (Some "r0") (Some "Abcdef12"))
        (Clock.mk 0 0 0 0 50 50 50) demoWorld).1 = JsonSuccess.
Proof.
  pose (rl1 := mkRL {[ "ip:reset-password" := RateLimitEntry.mk 1 3600000 ]} 0).
  split.
  - destruct (reset_password_policy demoEnv "ip" (Clock.mk 0 0 0 0 50 50 50) demoWorld rl1
                "r0" (TokenData.mk "u1" "r0" 100) (Some "Ab1")) as [Hiff _].
    + reflexivity.
    + done.
    + reflexivity.
    + cbn; lia.
    + apply Hiff. right. exists "Ab1". split; [done|]. unfold strLength; cbn; lia.
  - destruct (reset_password_policy demoEnv "ip" (Clock.mk 0 0 0 0 50 50 50) demoWorld rl1
                "r0" (TokenData.mk "u1" "r0" 100) (Some "Abcdef12")) as (_ & _ & Hok).
    + reflexivity.
    + done.
    + reflexivity.
    + cbn; lia.
    + by apply (Hok "Abcdef12").
Defined.

(** Counterexample to C3 as stated: the registration schema rejects
    ["abcdefgh"] (no uppercase letter, no digit) and a password of 129
    characters, yet a reset with a valid, unexpired token accepts both. *)
Lemma reset_password_policy_counterexample :
  let clk := Clock.mk 0 0 0 0 50 50 50 in
  let long := "Aa1" ++ String.concat "" (repeat "x" 126) in
  MemoryAdapter.getPasswordResetToken "r0" demoStore = Some (TokenData.mk "u1" "r0" 100)
  /\ passwordSchema "abcdefgh" = false
  /\ (ResetPasswordRoute.POST demoEnv "ip"
        (ResetPasswordRoute.mkBody (Some "r0") (Some "abcdefgh")) clk demoWorld).1 = JsonSuccess
  /\ strLength long = 129
  /\ passwordSchema long = false
  /\ (ResetPasswordRoute.POST demoEnv "ip"
        (ResetPasswordRoute.mkBody (Some "r0") (Some long)) clk demoWorld).1 = JsonSuccess.
Proof. cbv zeta. repeat split; vm_compute; reflexivity. Qed.

(** ** Forgot password *)

Lemma reachable_keysOk s : reachable s -> keysOk s.
Proof.
  induction 1 as [|s s' _ IH Hstep]; [intros k usr H; cbn in H; by rewrite lookup_empty in H|].
  assert (Hins : forall u usr', (forall usr, users s !! u = Some usr -> User.id usr' = u) ->
            is_Some (users s !! u) \/ User.id usr' = u ->
            forall k usr0, <[u := usr']> (users s) !! k = Some usr0 -> User.id usr0 = k).
  { intros u usr' Hsame Hcase k usr0 Hk.
    destruct (Strings.String.string_dec u k) as [<-|Hne].
    - rewrite lookup_insert_eq in Hk. injection Hk as <-.
      destruct Hcase as [[usr Hu]|Hid]; [by apply (Hsame usr)|done].
    - rewrite lookup_insert_ne in Hk by done. by apply IH. }
  destruct Hstep as
    [uuid now data s Hfresh | id data now s | u t e now s Ht | u now s
    | u t e now s Ht | u now s]; intros k usr0; cbn.
  - apply Hins; [done | by right].
  - unfold MemoryAdapter.updateUser.
    destruct (users s !! id) as [user|] eqn:Hu; cbn; [|apply IH].
    apply Hins; [|left; by rewrite Hu]. intros usr _. cbn. by apply IH.
  - unfold MemoryAdapter.setVerificationToken.
    destruct (users s !! u) as [user|] eqn:Hu; cbn; [|apply IH].
    apply Hins; [|left; by rewrite Hu]. intros usr _. cbn. by apply IH.
  - unfold MemoryAdapter.clearVerificationToken.
    destruct (users s !! u) as [user|] eqn:Hu; cbn; [|apply IH].
    apply Hins; [|left; by rewrite Hu]. intros usr _. cbn. by apply IH.
  - unfold MemoryAdapter.setPasswordResetToken.
    destruct (users s !! u) as [user|] eqn:Hu; cbn; [|apply IH].
    apply Hins; [|left; by rewrite Hu]. intros usr _. cbn. by apply IH.
  - unfold MemoryAdapter.clearPasswordResetToken.
    destruct (users s !! u) as [user|] eqn:Hu; cbn; [|apply IH].
    apply Hins; [|left; by rewrite Hu]. intros usr _. cbn. by apply IH.
Qed.

Lemma findUserByEmail_Some email s user :
  MemoryAdapter.findUserByEmail email s = Some user ->
  exists k usr, users s !! k = Some usr /\ UserForAuth.id user = User.id usr.
Proof.
  unfold MemoryAdapter.findUserByEmail.
  destruct (emailIndex s !! toLowerCase email) as [k|]; [|done].
  destruct (truthy k); [|done].
  destruct (users s !! k) as [usr|] eqn:Hu; [|done].
  intros [= <-]. by exists k, usr.
Qed.

(** Past the rate limiter, with a non-empty email and a mail sender that
    does not throw, the answer is [{ success: true }] whoever the email
    belongs to. *)
Lemma forgotPassword_POST_success env ipHash email tokenUuid clk w rl' :
  reachable (db w) ->
  passesRateLimit ipHash "forgot-password" RATE_LIMITS.PASSWORD_RESET clk w rl' ->
  email <> "" ->
  (forall to tok, Collaborators.sendPasswordResetEmail env to tok "en" = true) ->
  (ForgotPasswordRoute.POST env ipHash (ForgotPasswordRoute.mkBody (Some email))
     tokenUuid clk w).1 = JsonSuccess.
Proof.
  intros Hr Hrl He Hsend. unfold ForgotPasswordRoute.POST.
  red in Hrl. rewrite Hrl. cbn.
  apply truthy_true in He. rewrite He. cbn.
  destruct (MemoryAdapter.findUserByEmail email (db w)) as [user|] eqn:Hf; [|done].
  apply findUserByEmail_Some in Hf as (k & usr & Hu & Hid).
  pose proof (reachable_keysOk _ Hr k usr Hu) as Hk.
  unfold MemoryAdapter.setPasswordResetToken.
  rewrite Hid, Hk, Hu. by rewrite Hsend.
Qed.

(** C7. Two forgot-password requests that differ only in the email, one
    belonging to an existing user and one not, get the same answer
    [{ success: true }], provided the rate limiter lets the request through
    and the mail sender does not throw. *)
Theorem forgot_password_no_enumeration
    (env : Collaborators.t) (ipHash known unknown tokenUuid : string)
    (clk : Clock.t) (w : World) (rl' : RLState) :
  reachable (db w) ->
  passesRateLimit ipHash "forgot-password" RATE_LIMITS.PASSWORD_RESET clk w rl' ->
  (forall to tok, Collaborators.sendPasswordResetEmail env to tok "en" = true) ->
  known <> "" -> unknown <> "" ->
  is_Some (MemoryAdapter.findUserByEmail known (db w)) ->
  MemoryAdapter.findUserByEmail unknown (db w) = None ->
  let r1 := (ForgotPasswordRoute.POST env ipHash (ForgotPasswordRoute.mkBody (Some known))
               tokenUuid clk w).1 in
  let r2 := (ForgotPasswordRoute.POST env ipHash (ForgotPasswordRoute.mkBody (Some unknown))
               tokenUuid clk w).1 in
  r1 = JsonSuccess /\ r2 = JsonSuccess /\ r1 = r2.
Proof.
  intros Hr Hrl Hsend Hk Hu _ _ r1 r2. subst r1 r2.
  rewrite !(forgotPassword_POST_success env ipHash _ tokenUuid clk w rl') by done.
  done.
Qed.

Lemma demoStore_reachable : reachable demoStore.
Proof.
  eapply reachable_step.
  - apply (reachable_step emptyStore); [apply reachable_empty|].
    by apply (step_createUser "u1" 0).
  - by apply (step_setPasswordResetToken "u1" "r0" 100 1).
Qed.

Lemma forgot_password_no_enumeration_witness :
  let clk := Clock.mk 0 0 0 0 50 50 50 in
  (ForgotPasswordRoute.POST demoEnv "ip" (ForgotPasswordRoute.mkBody (Some "A@x.com"))
     "r1" clk demoWorld).1
  = (ForgotPasswordRoute.POST demoEnv "ip" (ForgotPasswordRoute.mkBody (Some "nobody@x.com"))
       "r1" clk demoWorld).1.
Proof.
  intros clk.
  apply (forgot_password_no_enumeration demoEnv "ip" "A@x.com" "nobody@x.com" "r1" clk
           demoWorld (mkRL {[ "ip:forgot-password" := RateLimitEntry.mk 1 3600000 ]} 0)).
  - apply demoStore_reachable.
  - reflexivity.
  - reflexivity.
  - done.
  - done.
  - vm_compute. eauto.
  - reflexivity.
Defined.

(** ** Registration and duplicate emails *)

Lemma lowerChar_idem c : lowerChar (lowerChar c) = lowerChar c.
Proof. destruct c as [[] [] [] [] [] [] [] []]; reflexivity. Qed.

Lemma toLowerCase_idem s : toLowerCase (toLowerCase s) = toLowerCase s.
Proof. induction s as [|c r IH]; cbn; [done|]. by rewrite lowerChar_idem, IH. Qed.

Lemma registerSchema_email isEmail body data :
  registerSchema isEmail body = Some data ->
  exists raw, RegisterBody.email body = Some raw
              /\ RegisterInput.email data = toLowerCase raw.
Proof.
  unfold registerSchema. destruct body as [[e|] [p|] [n|]]; cbn; try done.
  destruct (_ && _)%bool; [|done]. intros [= <-]. by exists e.
Qed.

(** C1, as the code has it.  [createUser] on the in-memory adapter makes no
    duplicate check: in every store it returns the new record, stored under
    the generated id, with the email index entry of the normalized email
    pointing at it.  Duplicate emails are turned away one level up: a valid
    registration whose email normalizes to an indexed email, once past the
    rate limiter, is answered 409 [EMAIL_EXISTS] by the handler's
    [emailExists] pre-check and changes nothing in the store. *)
Theorem createUser_unchecked_register_prechecked :
  (forall uuid now data s,
      exists user s',
        MemoryAdapter.createUser uuid now data s = Returned user s'
        /\ users s' !! uuid = Some user
        /\ User.email user = toLowerCase (CreateUserInput.email data)
        /\ emailIndex s' !! toLowerCase (CreateUserInput.email data) = Some uuid)
  /\ (forall env ipHash body idUuid tokenUuid clk w rl' data raw,
      passesRateLimit ipHash "register" RATE_LIMITS.REGISTRATION clk w rl' ->
      registerSchema (Collaborators.isEmail env) body = Some data ->
      RegisterBody.email body = Some raw ->
      is_Some (emailIndex (db w) !! toLowerCase raw) ->
      RegisterRoute.POST env ipHash body idUuid tokenUuid clk w
      = (JsonError HTTP_STATUS.CONFLICT "EMAIL_EXISTS" "Email already in use",
         mkWorld (db w) rl')).
Proof.
  split.
  - intros uuid now data s. unfold MemoryAdapter.createUser.
    eexists _, _. split; [reflexivity|]. cbn.
    rewrite !lookup_insert_eq. done.
  - intros env ipHash body idUuid tokenUuid clk w rl' data raw Hrl Hparse Hraw Hdup.
    unfold RegisterRoute.POST. red in Hrl. rewrite Hrl, Hparse.
    apply registerSchema_email in Hparse as (raw' & Hraw' & ->).
    assert (raw' = raw) as -> by congruence.
    unfold MemoryAdapter.emailExists. rewrite toLowerCase_idem.
    by rewrite bool_decide_eq_true_2.
Qed.

Lemma createUser_unchecked_register_prechecked_witness :
  let body := RegisterBody.mk (Some "A@X.com") (Some "Abcdef12") (Some "Bob") in
  RegisterRoute.POST demoEnv "ip" body "u2" "t9" (Clock.mk 0 0 0 0 50 50 50) demoWorld
  = (JsonError HTTP_STATUS.CONFLICT "EMAIL_EXISTS" "Email already in use",
     mkWorld demoStore (mkRL {[ "ip:register" := RateLimitEntry.mk 1 3600000 ]} 0)).
Proof.
  intros body.
  destruct createUser_unchecked_register_prechecked as [_ Hreg].
  apply (Hreg demoEnv "ip" body "u2" "t9" (Clock.mk 0 0 0 0 50 50 50) demoWorld _
           (RegisterInput.mk "a@x.com" "Abcdef12" "Bob") "A@X.com").
  - reflexivity.
  - reflexivity.
  - reflexivity.
  - vm_compute. eauto.
Defined.

(** Counterexample to C1 as stated: with ["a@x.com"] already stored for user
    ["u1"], [createUser] for ["A@X.com"] returns instead of failing, adds a
    second record and repoints the email index. *)
Lemma createUser_duplicate_counterexample :
  let data := CreateUserInput.mk "A@X.com" "h2" "Bob" None None in
  let r := MemoryAdapter.createUser "u2" 5 data demoStore in
  emailIndex demoStore !! toLowerCase "A@X.com" = Some "u1"
  /\ (exists user, r = Returned user (storeOf r))
  /\ users (storeOf r) <> users demoStore
  /\ emailIndex (storeOf r) <> emailIndex demoStore
  /\ emailIndex (storeOf r) !! "a@x.com" = Some "u2"
  /\ is_Some (users (storeOf r) !! "u1") /\ is_Some (users (storeOf r) !! "u2").
Proof.
  cbv zeta. split; [reflexivity|]. split; [eexists; reflexivity|].
  split; [|split].
  - intros H. apply (f_equal (fun m => m !! "u2")) in H. vm_compute in H. discriminate.
  - intros H. apply (f_equal (fun m => m !! "a@x.com")) in H. vm_compute in H. discriminate.
  - split; [reflexivity|]. split; vm_compute; eauto.
Qed.

(** ** The gate *)

Lemma prefix_app p s : String.prefix p s = true <-> exists r, s = p ++ r.
Proof.
  revert s. induction p as [|a p IH]; intros s; cbn.
  - destruct s; split; eauto.
  - destruct s as [|b s]; cbn.
    + split; [done|]. intros [r Hr]. discriminate.
    + destruct (ascii_dec a b) as [->|Hne].
      * rewrite IH. split; intros [r Hr]; exists r.
        -- by rewrite Hr.
        -- change (String b s = String b (p ++ r)) in Hr. congruence.
      * split; [done|]. intros [r Hr].
        change (String b s = String a (p ++ r)) in Hr. congruence.
Qed.

Lemma append_assoc (a b c : string) : a ++ b ++ c = (a ++ b) ++ c.
Proof.
  induction a as [|x a IH]; [done|].
  change (String x (a ++ b ++ c) = String x ((a ++ b) ++ c)). by rewrite IH.
Qed.

Lemma isProtectedRoute_spec pathname :
  Middleware.isProtectedRoute pathname = true <-> inProtectedSet pathname.
Proof.
  unfold Middleware.isProtectedRoute, inProtectedSet. rewrite existsb_exists.
  split; intros (route & Hin & H); exists route; (split; [done|]).
  - apply orb_prop in H as [H|H].
    + left. by apply String.eqb_eq.
    + right. apply prefix_app in H as [r ->]. exists r. by rewrite append_assoc.
  - apply orb_true_intro. destruct H as [->|[r ->]].
    + left. apply String.eqb_refl.
    + right. apply prefix_app. exists r. by rewrite append_assoc.
Qed.

Lemma isAuthRoute_spec pathname :
  Middleware.isAuthRoute pathname = true <-> inAuthSet pathname.
Proof.
  unfold Middleware.isAuthRoute, inAuthSet. rewrite existsb_exists. split.
  - intros (route & Hin & H).
    destruct (String.eqb route "/verify-email") eqn:Er.
    + apply String.eqb_eq in Er as ->. apply orb_prop in H as [H|H].
      * left. apply String.eqb_eq in H as ->. done.
      * right. by apply prefix_app in H.
    + left. apply String.eqb_eq in H as ->. done.
  - intros [Hin|[r ->]].
    + exists pathname. split; [done|].
      destruct (String.eqb pathname "/verify-email"); rewrite ?String.eqb_refl; done.
    + exists "/verify-email". split; [cbn; tauto|].
      rewrite String.eqb_refl. apply orb_true_intro. right.
      apply prefix_app. by exists r.
Qed.

(** C8. The gate decision: a path in the protected set without a session is
    redirected to the login page with the path as [callbackUrl]; a path in
    the auth set with a session is redirected to [/dashboard]; every other
    request is let through.  [middleware] returns that decision whenever the
    secret check does not throw. *)
Theorem gate_decision (pathname : string) (isAuthenticated : bool) :
  (inProtectedSet pathname -> isAuthenticated = false ->
     Middleware.gate pathname isAuthenticated = Middleware.RedirectLogin pathname)
  /\ (inAuthSet pathname -> isAuthenticated = true ->
     Middleware.gate pathname isAuthenticated = Middleware.RedirectDashboard)
  /\ (¬ (inProtectedSet pathname /\ isAuthenticated = false) ->
      ¬ (inAuthSet pathname /\ isAuthenticated = true) ->
     Middleware.gate pathname isAuthenticated = Middleware.Next)
  /\ (forall (JWT : Type) secret production flag flag' (token : option JWT),
      Middleware.validateSecret secret production flag = Some flag' ->
      isAuthenticated = match token with Some _ => true | None => false end ->
      Middleware.middleware secret production flag pathname token
      = Some (Middleware.gate pathname isAuthenticated, flag')).
Proof.
  unfold Middleware.gate. repeat split.
  - intros Hp ->. apply isProtectedRoute_spec in Hp. by rewrite Hp.
  - intros Ha ->. apply isAuthRoute_spec in Ha. rewrite Ha.
    by destruct (Middleware.isProtectedRoute pathname).
  - intros Hnp Hna.
    destruct (Middleware.isProtectedRoute pathname) eqn:Ep,
      (Middleware.isAuthRoute pathname) eqn:Ea, isAuthenticated;
      try reflexivity; exfalso;
      first [ apply Hna; split; [by apply isAuthRoute_spec | done]
            | apply Hnp; split; [by apply isProtectedRoute_spec | done] ].
  - intros JWT secret production flag flag' token Hv ->.
    unfold Middleware.middleware. by rewrite Hv.
Qed.

Lemma gate_decision_witness :
  Middleware.gate "/dashboard/settings" false = Middleware.RedirectLogin "/dashboard/settings"
  /\ Middleware.gate "/verify-email/success" true = Middleware.RedirectDashboard
  /\ Middleware.gate "/dashboard" true = Middleware.Next
  /\ Middleware.gate "/login" false = Middleware.Next.
Proof.
  split; [|split; [|split]].
  - apply (gate_decision "/dashboard/settings" false); [|done].
    exists "/dashboard". split; [cbn; tauto|]. right. by exists "settings".
  - apply (gate_decision "/verify-email/success" true); [|done].
    right. by exists "success".
  - apply (gate_decision "/dashboard" true); intros [H1 H2]; [done|].
    destruct H1 as [H1|[r Hr]]; [|done]. cbn in H1. intuition discriminate.
  - apply (gate_decision "/login" false); intros [H1 H2]; [|done].
    destruct H1 as (route & Hin & H). cbn in Hin. destruct Hin as [<-|[]].
    destruct H as [H|[r Hr]]; discriminate.
Defined.

(** * Further properties of the adapter *)

(** X1. A user just created is found by email whatever the letter case of
    the query, with the normalized address, the given name and hash, and not
    yet verified; and [emailExists] answers [true] for that query. *)
Theorem createUser_findUserByEmail
    (uuid : string) (now : Date) (data : CreateUserInput.t) (s : Store) (query : string) :
  uuid <> "" ->
  toLowerCase query = toLowerCase (CreateUserInput.email data) ->
  let s' := storeOf (MemoryAdapter.createUser uuid now data s) in
  MemoryAdapter.findUserByEmail query s'
  = Some (UserForAuth.mk uuid (toLowerCase (CreateUserInput.email data))
            (CreateUserInput.name data) (CreateUserInput.passwordHash data) None)
  /\ MemoryAdapter.emailExists query s' = true
  /\ MemoryAdapter.findUserById uuid s'
     = Some (User.mk uuid (toLowerCase (CreateUserInput.email data))
               (CreateUserInput.passwordHash data) (CreateUserInput.name data) None
               (orNull (CreateUserInput.emailVerificationToken data))
               (CreateUserInput.emailVerificationTokenExpiresAt data) None None now now).
Proof.
  intros Hid Hq s'. subst s'.
  unfold MemoryAdapter.findUserByEmail, MemoryAdapter.emailExists,
    MemoryAdapter.findUserById, MemoryAdapter.createUser. cbn.
  rewrite Hq, !lookup_insert_eq.
  apply truthy_true in Hid. rewrite Hid.
  split; [done|]. split; [|done]. apply bool_decide_eq_true_2. eauto.
Qed.

Lemma createUser_findUserByEmail_witness :
  MemoryAdapter.findUserByEmail "Bob@Example.COM"
    (storeOf (MemoryAdapter.createUser "u7" 3
                (CreateUserInput.mk "BOB@example.com" "h" "Bob" None None) demoStore))
  = Some (UserForAuth.mk "u7" "bob@example.com" "Bob" "h" None).
Proof.
  apply (createUser_findUserByEmail "u7" 3
           (CreateUserInput.mk "BOB@example.com" "h" "Bob" None None) demoStore
           "Bob@Example.COM"); [done | reflexivity].
Defined.

(** X2. For a stored user with a non-empty id, a token just set is found by
    [get] with that user's id and the expiry given, for both purposes. *)
Theorem set_get_token_roundtrip
    (s : Store) (userId token : string) (expiresAt now : Date) :
  is_Some (users s !! userId) ->
  userId <> "" ->
  MemoryAdapter.getVerificationToken token
    (storeOf (MemoryAdapter.setVerificationToken userId token expiresAt now s))
  = Some (TokenData.mk userId token expiresAt)
  /\ MemoryAdapter.getPasswordResetToken token
       (storeOf (MemoryAdapter.setPasswordResetToken userId token expiresAt now s))
     = Some (TokenData.mk userId token expiresAt).
Proof.
  intros [usr Hu] Hid. apply truthy_true in Hid.
  unfold MemoryAdapter.setVerificationToken, MemoryAdapter.setPasswordResetToken.
  rewrite Hu. cbn.
  unfold MemoryAdapter.getVerificationToken, MemoryAdapter.getPasswordResetToken. cbn.
  by rewrite !lookup_insert_eq, Hid.
Qed.

Lemma set_get_token_roundtrip_witness :
  MemoryAdapter.getVerificationToken "t5"
    (storeOf (MemoryAdapter.setVerificationToken "u1" "t5" 900 4 demoStore))
  = Some (TokenData.mk "u1" "t5" 900)
  /\ MemoryAdapter.getPasswordResetToken "r5"
       (storeOf (MemoryAdapter.setPasswordResetToken "u1" "r5" 900 4 demoStore))
     = Some (TokenData.mk "u1" "r5" 900).
Proof.
  split.
  - apply (set_get_token_roundtrip demoStore "u1" "t5" 900 4); [vm_compute; eauto | done].
  - apply (set_get_token_roundtrip demoStore "u1" "r5" 900 4); [vm_compute; eauto | done].
Defined.

(** X3. After [clearVerificationToken] (resp. [clearPasswordResetToken]) for
    user [u], in any store, no token of that purpose resolves to [u]; and a
    token that resolved to another user still resolves as before, unless
    [u]'s record held that same token string. *)
Theorem clear_token_unreachable (s : Store) (u : string) (now : Date) :
  (let s' := storeOf (MemoryAdapter.clearVerificationToken u now s) in
   (forall t td, MemoryAdapter.getVerificationToken t s' = Some td ->
                 TokenData.userId td <> u)
   /\ (forall t td,
         MemoryAdapter.getVerificationToken t s = Some td ->
         TokenData.userId td <> u ->
         (forall usr, users s !! u = Some usr -> User.emailVerificationToken usr <> Some t) ->
         MemoryAdapter.getVerificationToken t s' = Some td))
  /\ (let s' := storeOf (MemoryAdapter.clearPasswordResetToken u now s) in
      (forall t td, MemoryAdapter.getPasswordResetToken t s' = Some td ->
                    TokenData.userId td <> u)
      /\ (forall t td,
            MemoryAdapter.getPasswordResetToken t s = Some td ->
            TokenData.userId td <> u ->
            (forall usr, users s !! u = Some usr -> User.passwordResetToken usr <> Some t) ->
            MemoryAdapter.getPasswordResetToken t s' = Some td)).
Proof.
  split; cbv zeta.
  - unfold MemoryAdapter.clearVerificationToken.
    destruct (users s !! u) as [usr|] eqn:Hu; cbn.
    + split.
      * intros t td Hg Heq. apply getVerificationToken_Some in Hg as (usr' & _ & Hu' & He & _).
        rewrite Heq in Hu'. cbn in Hu'. rewrite lookup_insert_eq in Hu'.
        injection Hu' as <-. done.
      * intros t td Hg Hne Htok. rewrite <- Hg.
        pose proof Hg as Hg'. apply getVerificationToken_Some in Hg' as (_ & Hi & _).
        apply getVerificationToken_ext; cbn.
        -- apply dropOld_lookup_ne. by apply Htok.
        -- intros uid Hi'. rewrite lookup_insert_ne; [done|]. congruence.
    + split; [|done]. intros t td Hg Heq.
      apply getVerificationToken_Some in Hg as (usr' & _ & Hu' & _). congruence.
  - unfold MemoryAdapter.clearPasswordResetToken.
    destruct (users s !! u) as [usr|] eqn:Hu; cbn.
    + split.
      * intros t td Hg Heq. apply getPasswordResetToken_Some in Hg as (usr' & _ & Hu' & He & _).
        rewrite Heq in Hu'. cbn in Hu'. rewrite lookup_insert_eq in Hu'.
        injection Hu' as <-. done.
      * intros t td Hg Hne Htok. rewrite <- Hg.
        pose proof Hg as Hg'. apply getPasswordResetToken_Some in Hg' as (_ & Hi & _).
        apply getPasswordResetToken_ext; cbn.
        -- apply dropOld_lookup_ne. by apply Htok.
        -- intros uid Hi'. rewrite lookup_insert_ne; [done|]. congruence.
    + split; [|done]. intros t td Hg Heq.
      apply getPasswordResetToken_Some in Hg as (usr' & _ & Hu' & _). congruence.
Qed.

Lemma clear_token_unreachable_witness :
  let s2 := storeOf (MemoryAdapter.createUser "u2" 5
                       (CreateUserInput.mk "b@x.com" "h" "Bob" (Some "t9") (Some 500))
                       demoStore) in
  let s' := storeOf (MemoryAdapter.clearVerificationToken "u1" 9 s2) in
  MemoryAdapter.getVerificationToken "t0" s' = None
  /\ MemoryAdapter.getVerificationToken "t9" s' = Some (TokenData.mk "u2" "t9" 500).
Proof.
  intros s2 s'.
  destruct (clear_token_unreachable s2 "u1" 9) as [[Hv Hframe] _].
  split.
  - destruct (MemoryAdapter.getVerificationToken "t0" s') as [td|] eqn:Hg; [|done].
    exfalso. apply (Hv "t0" td Hg).
    apply getVerificationToken_Some in Hg as (_ & Hi & _).
    vm_compute in Hi. congruence.
  - apply Hframe; [reflexivity | done |].
    intros usr Hu. vm_compute in Hu. injection Hu as <-. done.
Defined.

Lemma findUserByEmail_view q s :
  MemoryAdapter.findUserByEmail q s
  = match emailIndex s !! toLowerCase q with
    | Some uid => if truthy uid then authView <$> users s !! uid else None
    | None => None
    end.
Proof.
  unfold MemoryAdapter.findUserByEmail.
  destruct (emailIndex s !! toLowerCase q) as [uid|]; [|done].
  destruct (truthy uid); [|done]. by destruct (users s !! uid).
Qed.

Lemma getVerificationToken_view t s :
  MemoryAdapter.getVerificationToken t s
  = match verificationTokenIndex s !! t with
    | Some uid =>
        if truthy uid then
          match mjoin (User.emailVerificationTokenExpiresAt <$> users s !! uid) with
          | Some exp => Some (TokenData.mk uid t exp)
          | None => None
          end
        else None
    | None => None
    end.
Proof.
  unfold MemoryAdapter.getVerificationToken.
  destruct (verificationTokenIndex s !! t) as [uid|]; [|done].
  destruct (truthy uid); [|done]. by destruct (users s !! uid).
Qed.

Lemma getPasswordResetToken_view t s :
  MemoryAdapter.getPasswordResetToken t s
  = match passwordResetTokenIndex s !! t with
    | Some uid =>
        if truthy uid then
          match mjoin (User.passwordResetTokenExpiresAt <$> users s !! uid) with
          | Some exp => Some (TokenData.mk uid t exp)
          | None => None
          end
        else None
    | None => None
    end.
Proof.
  unfold MemoryAdapter.getPasswordResetToken.
  destruct (passwordResetTokenIndex s !! t) as [uid|]; [|done].
  destruct (truthy uid); [|done]. by destruct (users s !! uid).
Qed.

(** Rewriting one record in a way a projection [f] cannot see. *)
Lemma lookup_insert_view {A} (f : User.t -> A) (us : gmap string User.t) u usr usr' uid :
  us !! u = Some usr -> f usr' = f usr ->
  f <$> (<[u := usr']> us !! uid) = f <$> (us !! uid).
Proof.
  intros Hu Hf. destruct (Strings.String.string_dec u uid) as [<-|Hne].
  - rewrite lookup_insert_eq, Hu. cbn. by rewrite Hf.
  - by rewrite lookup_insert_ne.
Qed.

(** X4. Setting or clearing a token of either purpose never changes what
    [findUserByEmail] and [emailExists] answer: credentials, name and
    verification state are out of reach of the token methods. *)
Theorem token_methods_preserve_credentials
    (s : Store) (u t : string) (e now : Date) (q : string) :
  let same s' :=
    MemoryAdapter.findUserByEmail q s' = MemoryAdapter.findUserByEmail q s
    /\ MemoryAdapter.emailExists q s' = MemoryAdapter.emailExists q s in
  same (storeOf (MemoryAdapter.setVerificationToken u t e now s))
  /\ same (storeOf (MemoryAdapter.clearVerificationToken u now s))
  /\ same (storeOf (MemoryAdapter.setPasswordResetToken u t e now s))
  /\ same (storeOf (MemoryAdapter.clearPasswordResetToken u now s)).
Proof.
  intros same. subst same. cbv beta.
  unfold MemoryAdapter.setVerificationToken, MemoryAdapter.clearVerificationToken,
    MemoryAdapter.setPasswordResetToken, MemoryAdapter.clearPasswordResetToken,
    MemoryAdapter.emailExists.
  destruct (users s !! u) as [usr|] eqn:Hu; cbn; [|done].
  rewrite !findUserByEmail_view. cbn.
  destruct (emailIndex s !! toLowerCase q) as [uid|]; [|done].
  destruct (truthy uid); [|done].
  by rewrite !(lookup_insert_view authView (users s) u usr) by done.
Qed.

(** X5. The two token purposes do not interfere: setting, clearing or
    consuming a verification token leaves every password-reset lookup as it
    was, and setting, clearing or consuming a reset token leaves every
    verification lookup as it was. *)
Theorem token_purposes_independent
    (s : Store) (u t h : string) (e now nowV : Date) (q : string) :
  (MemoryAdapter.getPasswordResetToken q
     (storeOf (MemoryAdapter.setVerificationToken u t e now s))
   = MemoryAdapter.getPasswordResetToken q s
   /\ MemoryAdapter.getPasswordResetToken q
        (storeOf (MemoryAdapter.clearVerificationToken u now s))
      = MemoryAdapter.getPasswordResetToken q s
   /\ MemoryAdapter.getPasswordResetToken q
        (storeOf (MemoryAdapter.verifyUserEmail u nowV now s))
      = MemoryAdapter.getPasswordResetToken q s)
  /\ (MemoryAdapter.getVerificationToken q
        (storeOf (MemoryAdapter.setPasswordResetToken u t e now s))
      = MemoryAdapter.getVerificationToken q s
      /\ MemoryAdapter.getVerificationToken q
           (storeOf (MemoryAdapter.clearPasswordResetToken u now s))
         = MemoryAdapter.getVerificationToken q s
      /\ MemoryAdapter.getVerificationToken q
           (storeOf (MemoryAdapter.updatePassword u h now s))
         = MemoryAdapter.getVerificationToken q s).
Proof.
  unfold MemoryAdapter.setVerificationToken, MemoryAdapter.clearVerificationToken,
    MemoryAdapter.setPasswordResetToken, MemoryAdapter.clearPasswordResetToken,
    MemoryAdapter.verifyUserEmail, MemoryAdapter.updatePassword, MemoryAdapter.updateUser.
  destruct (users s !! u) as [usr|] eqn:Hu; cbn; [|done].
  rewrite !getPasswordResetToken_view, !getVerificationToken_view. cbn.
  split.
  - destruct (passwordResetTokenIndex s !! q) as [uid|]; [|done].
    destruct (truthy uid); [|done].
    by rewrite !(lookup_insert_view User.passwordResetTokenExpiresAt (users s) u usr)
      by done.
  - destruct (verificationTokenIndex s !! q) as [uid|]; [|done].
    destruct (truthy uid); [|done].
    by rewrite !(lookup_insert_view User.emailVerificationTokenExpiresAt (users s) u usr)
      by done.
Qed.

(** X6. Consuming a token changes one credential and nothing else that a
    login can see: for a stored user [u], after [updatePassword] a lookup by
    an email that the index maps to [u] returns the record with the new hash
    and the verification state it had, after [verifyUserEmail] it returns the
    record with the verified timestamp and the hash it had, and lookups by
    any other email are unchanged. *)
Theorem consume_changes_one_credential
    (s : Store) (u h : string) (now nowV : Date) (usr : User.t) (q : string) :
  users s !! u = Some usr ->
  let sp := storeOf (MemoryAdapter.updatePassword u h now s) in
  let sv := storeOf (MemoryAdapter.verifyUserEmail u nowV now s) in
  (emailIndex s !! toLowerCase q = Some u -> u <> "" ->
     MemoryAdapter.findUserByEmail q sp
     = Some (UserForAuth.mk (User.id usr) (User.email usr) (User.name usr) h
               (User.emailVerified usr))
     /\ MemoryAdapter.findUserByEmail q sv
        = Some (UserForAuth.mk (User.id usr) (User.email usr) (User.name usr)
                  (User.passwordHash usr) (Some nowV)))
  /\ (emailIndex s !! toLowerCase q <> Some u ->
      MemoryAdapter.findUserByEmail q sp = MemoryAdapter.findUserByEmail q s
      /\ MemoryAdapter.findUserByEmail q sv = MemoryAdapter.findUserByEmail q s).
Proof.
  intros Hu sp sv. subst sp sv.
  unfold MemoryAdapter.updatePassword, MemoryAdapter.verifyUserEmail,
    MemoryAdapter.updateUser.
  rewrite Hu. cbn. rewrite !findUserByEmail_view. cbn. split.
  - intros -> Hne. apply truthy_true in Hne. by rewrite Hne, !lookup_insert_eq.
  - intros Hq. destruct (emailIndex s !! toLowerCase q) as [uid|]; [|done].
    destruct (truthy uid); [|done].
    rewrite !lookup_insert_ne; [done | congruence | congruence].
Qed.

Lemma consume_changes_one_credential_witness :
  MemoryAdapter.findUserByEmail "A@x.com"
    (storeOf (MemoryAdapter.updatePassword "u1" "h2" 8 demoStore))
  = Some (UserForAuth.mk "u1" "a@x.com" "Ann" "h2" None)
  /\ MemoryAdapter.findUserByEmail "A@x.com"
       (storeOf (MemoryAdapter.verifyUserEmail "u1" 7 8 demoStore))
     = Some (UserForAuth.mk "u1" "a@x.com" "Ann" "h" (Some 7)).
Proof.
  pose (usr := User.mk "u1" "a@x.com" "h" "Ann" None (Some "t0") (Some 100)
                 (Some "r0") (Some 100) 0 1).
  destruct (consume_changes_one_credential demoStore "u1" "h2" 8 7 usr "A@x.com")
    as [H _]; [reflexivity|].
  apply H; [reflexivity | done].
Defined.

(** X7. In every store the adapter can reach, a token that resolves is
    non-empty and is the current token, with the returned expiry, on the
    record of the user it resolves to; hence two tokens of one purpose never
    resolve to the same user. *)
Theorem live_tokens_are_current (s : Store) :
  reachable s ->
  (forall t td,
      MemoryAdapter.getVerificationToken t s = Some td ->
      t <> ""
      /\ exists usr, users s !! TokenData.userId td = Some usr
                     /\ User.emailVerificationToken usr = Some t
                     /\ User.emailVerificationTokenExpiresAt usr
                        = Some (TokenData.expiresAt td))
  /\ (forall t1 t2 td1 td2,
      MemoryAdapter.getVerificationToken t1 s = Some td1 ->
      MemoryAdapter.getVerificationToken t2 s = Some td2 ->
      TokenData.userId td1 = TokenData.userId td2 -> t1 = t2)
  /\ (forall t td,
      MemoryAdapter.getPasswordResetToken t s = Some td ->
      t <> ""
      /\ exists usr, users s !! TokenData.userId td = Some usr
                     /\ User.passwordResetToken usr = Some t
                     /\ User.passwordResetTokenExpiresAt usr
                        = Some (TokenData.expiresAt td))
  /\ (forall t1 t2 td1 td2,
      MemoryAdapter.getPasswordResetToken t1 s = Some td1 ->
      MemoryAdapter.getPasswordResetToken t2 s = Some td2 ->
      TokenData.userId td1 = TokenData.userId td2 -> t1 = t2).
Proof.
  intros Hr. apply reachable_Consistent in Hr as [Hv Hp].
  assert (Hcv : forall t td,
            MemoryAdapter.getVerificationToken t s = Some td ->
            t <> ""
            /\ exists usr, users s !! TokenData.userId td = Some usr
                           /\ User.emailVerificationToken usr = Some t
                           /\ User.emailVerificationTokenExpiresAt usr
                              = Some (TokenData.expiresAt td)).
  { intros t td Hg. apply getVerificationToken_Some in Hg as (usr & Hi & Hu & He & _).
    destruct (Hv t _ Hi) as (Hne & usr' & Hu' & Ht).
    split; [done|]. exists usr. split; [done|]. split; [congruence|done]. }
  assert (Hcp : forall t td,
            MemoryAdapter.getPasswordResetToken t s = Some td ->
            t <> ""
            /\ exists usr, users s !! TokenData.userId td = Some usr
                           /\ User.passwordResetToken usr = Some t
                           /\ User.passwordResetTokenExpiresAt usr
                              = Some (TokenData.expiresAt td)).
  { intros t td Hg. apply getPasswordResetToken_Some in Hg as (usr & Hi & Hu & He & _).
    destruct (Hp t _ Hi) as (Hne & usr' & Hu' & Ht).
    split; [done|]. exists usr. split; [done|]. split; [congruence|done]. }
  split; [exact Hcv|]. split; [|split; [exact Hcp|]].
  - intros t1 t2 td1 td2 H1 H2 Heq.
    destruct (Hcv t1 td1 H1) as (_ & usr1 & Hu1 & Ht1 & _).
    destruct (Hcv t2 td2 H2) as (_ & usr2 & Hu2 & Ht2 & _).
    rewrite Heq in Hu1. congruence.
  - intros t1 t2 td1 td2 H1 H2 Heq.
    destruct (Hcp t1 td1 H1) as (_ & usr1 & Hu1 & Ht1 & _).
    destruct (Hcp t2 td2 H2) as (_ & usr2 & Hu2 & Ht2 & _).
    rewrite Heq in Hu1. congruence.
Qed.

Lemma live_tokens_are_current_witness :
  "r0" <> ""
  /\ exists usr, users demoStore !! "u1" = Some usr
                 /\ User.passwordResetToken usr = Some "r0"
                 /\ User.passwordResetTokenExpiresAt usr = Some 100.
Proof.
  destruct (live_tokens_are_current demoStore demoStore_reachable) as (_ & _ & Hcur & _).
  apply (Hcur "r0" (TokenData.mk "u1" "r0" 100)). reflexivity.
Defined.

(** The email index stays consistent along every adapter call. *)
Lemma reachable_emailIndexOk s : reachable s -> emailIndexOk s.
Proof.
  induction 1 as [|s s' Hr IH Hstep].
  { split; intros ? ? H; cbn in H; by rewrite lookup_empty in H. }
  destruct IH as [Hidx Hnorm].
  assert (Hsame : forall u usr usr',
            users s !! u = Some usr -> User.email usr' = User.email usr ->
            emailIndexOk (mkStore (<[u := usr']> (users s)) (emailIndex s)
                            (verificationTokenIndex s') (passwordResetTokenIndex s'))).
  { intros u usr usr' Hu He. split; cbn.
    - intros e uid Hi. destruct (Hidx e uid Hi) as (usr0 & Hu0 & He0).
      destruct (Strings.String.string_dec u uid) as [<-|Hne].
      + exists usr'. rewrite lookup_insert_eq. split; [done|]. congruence.
      + exists usr0. by rewrite lookup_insert_ne.
    - intros uid usr0 Hu0. destruct (Strings.String.string_dec u uid) as [<-|Hne].
      + rewrite lookup_insert_eq in Hu0. injection Hu0 as <-. rewrite He. by eapply Hnorm.
      + rewrite lookup_insert_ne in Hu0 by done. by eapply Hnorm. }
  destruct Hstep as
    [uuid now data s Hfresh | id data now s | u t e now s Ht | u now s
    | u t e now s Ht | u now s].
  - split; cbn.
    + intros e uid Hi.
      destruct (Strings.String.string_dec (toLowerCase (CreateUserInput.email data)) e)
        as [<-|Hne].
      * rewrite lookup_insert_eq in Hi. injection Hi as <-.
        eexists. by rewrite lookup_insert_eq.
      * rewrite lookup_insert_ne in Hi by done.
        destruct (Hidx e uid Hi) as (usr0 & Hu0 & He0).
        exists usr0. rewrite lookup_insert_ne; [done|]. congruence.
    + intros uid usr0 Hu0. destruct (Strings.String.string_dec uuid uid) as [<-|Hne].
      * rewrite lookup_insert_eq in Hu0. injection Hu0 as <-. cbn.
        apply toLowerCase_idem.
      * rewrite lookup_insert_ne in Hu0 by done. by eapply Hnorm.
  - unfold MemoryAdapter.updateUser.
    destruct (users s !! id) as [user|] eqn:Hu; cbn; [|by split].
    destruct (UpdateUserInput.email data) as [e|] eqn:Ee; cbn.
    + destruct (truthy e) eqn:Et; cbn.
      * destruct (String.eqb e (User.email user)) eqn:Eeq; cbn.
        -- apply String.eqb_eq in Eeq. eapply (Hsame id user); [done|]. cbn.
           rewrite Eeq. by eapply Hnorm.
        -- split; cbn.
           ++ intros e0 uid Hi.
              destruct (Strings.String.string_dec (toLowerCase e) e0) as [<-|Hne].
              ** rewrite lookup_insert_eq in Hi. injection Hi as <-.
                 eexists. by rewrite lookup_insert_eq.
              ** rewrite lookup_insert_ne in Hi by done.
                 apply lookup_delete_Some in Hi as [Hne0 Hi].
                 destruct (Hidx e0 uid Hi) as (usr0 & Hu0 & He0).
                 exists usr0. rewrite lookup_insert_ne; [done|].
                 intros <-. congruence.
           ++ intros uid usr0 Hu0. destruct (Strings.String.string_dec id uid) as [<-|Hne].
              ** rewrite lookup_insert_eq in Hu0. injection Hu0 as <-. cbn.
                 apply toLowerCase_idem.
              ** rewrite lookup_insert_ne in Hu0 by done. by eapply Hnorm.
      * by eapply (Hsame id user).
    + by eapply (Hsame id user).
  - unfold MemoryAdapter.setVerificationToken.
    destruct (users s !! u) as [user|] eqn:Hu; cbn; [|by split]. by eapply (Hsame u user).
  - unfold MemoryAdapter.clearVerificationToken.
    destruct (users s !! u) as [user|] eqn:Hu; cbn; [|by split]. by eapply (Hsame u user).
  - unfold MemoryAdapter.setPasswordResetToken.
    destruct (users s !! u) as [user|] eqn:Hu; cbn; [|by split]. by eapply (Hsame u user).
  - unfold MemoryAdapter.clearPasswordResetToken.
    destruct (users s !! u) as [user|] eqn:Hu; cbn; [|by split]. by eapply (Hsame u user).
Qed.

(** X8. In every store the adapter can reach, every stored email is in
    lower case, and a lookup by email returns a user stored under the
    returned id whose address is the lower-cased query; an email that
    [emailExists] reports always belongs to a stored user. *)
Theorem email_lookup_sound (s : Store) :
  reachable s ->
  (forall uid usr, users s !! uid = Some usr ->
     toLowerCase (User.email usr) = User.email usr /\ User.id usr = uid)
  /\ (forall q uf,
      MemoryAdapter.findUserByEmail q s = Some uf ->
      UserForAuth.email uf = toLowerCase q
      /\ exists usr, MemoryAdapter.findUserById (UserForAuth.id uf) s = Some usr
                     /\ uf = authView usr)
  /\ (forall q,
      MemoryAdapter.emailExists q s = true ->
      exists uid usr, emailIndex s !! toLowerCase q = Some uid
                      /\ users s !! uid = Some usr
                      /\ User.email usr = toLowerCase q).
Proof.
  intros Hr. pose proof (reachable_keysOk s Hr) as Hk.
  destruct (reachable_emailIndexOk s Hr) as [Hidx Hnorm].
  split; [|split].
  - intros uid usr Hu. split; [by eapply Hnorm | by apply Hk].
  - intros q uf Hf. rewrite findUserByEmail_view in Hf.
    destruct (emailIndex s !! toLowerCase q) as [uid|] eqn:Hi; [|done].
    destruct (truthy uid); [|done].
    destruct (users s !! uid) as [usr|] eqn:Hu; [|done].
    cbn in Hf. injection Hf as <-. cbn.
    destruct (Hidx _ _ Hi) as (usr' & Hu' & He').
    split; [congruence|]. exists usr. unfold MemoryAdapter.findUserById.
    by rewrite (Hk uid usr Hu).
  - intros q Hex. unfold MemoryAdapter.emailExists in Hex.
    apply bool_decide_eq_true_1 in Hex as [uid Hi].
    destruct (Hidx _ _ Hi) as (usr & Hu & He). by exists uid, usr.
Qed.

Lemma email_lookup_sound_witness :
  let uf := UserForAuth.mk "u1" "a@x.com" "Ann" "h" None in
  UserForAuth.email uf = toLowerCase "A@X.COM"
  /\ exists usr, MemoryAdapter.findUserById (UserForAuth.id uf) demoStore = Some usr
                 /\ uf = authView usr.
Proof.
  intros uf.
  destruct (email_lookup_sound demoStore demoStore_reachable) as (_ & Hfind & _).
  apply (Hfind "A@X.COM" uf). reflexivity.
Defined.

(** X9. Only [createUser] changes the number of users: with a fresh id it
    adds one, while [updateUser], the token methods, [verifyUserEmail] and
    [updatePassword] leave the count as it is, whether they return or throw;
    [clear] brings it to zero. *)
Theorem getUserCount_changes (s : Store) :
  (forall uuid now data,
      users s !! uuid = None ->
      MemoryAdapter.getUserCount (storeOf (MemoryAdapter.createUser uuid now data s))
      = S (MemoryAdapter.getUserCount s))
  /\ (forall id data now,
      MemoryAdapter.getUserCount (storeOf (MemoryAdapter.updateUser id data now s))
      = MemoryAdapter.getUserCount s)
  /\ (forall u t e now,
      MemoryAdapter.getUserCount (storeOf (MemoryAdapter.setVerificationToken u t e now s))
      = MemoryAdapter.getUserCount s
      /\ MemoryAdapter.getUserCount (storeOf (MemoryAdapter.setPasswordResetToken u t e now s))
         = MemoryAdapter.getUserCount s
      /\ MemoryAdapter.getUserCount (storeOf (MemoryAdapter.clearVerificationToken u now s))
         = MemoryAdapter.getUserCount s
      /\ MemoryAdapter.getUserCount (storeOf (MemoryAdapter.clearPasswordResetToken u now s))
         = MemoryAdapter.getUserCount s)
  /\ (forall u h nowV now,
      MemoryAdapter.getUserCount (storeOf (MemoryAdapter.verifyUserEmail u nowV now s))
      = MemoryAdapter.getUserCount s
      /\ MemoryAdapter.getUserCount (storeOf (MemoryAdapter.updatePassword u h now s))
         = MemoryAdapter.getUserCount s)
  /\ MemoryAdapter.getUserCount (MemoryAdapter.clear s) = 0%nat.
Proof.
  unfold MemoryAdapter.getUserCount.
  assert (Hupd : forall id data now,
            size (users (storeOf (MemoryAdapter.updateUser id data now s))) = size (users s)).
  { intros id data now. unfold MemoryAdapter.updateUser.
    destruct (users s !! id) as [usr|] eqn:Hu; cbn; [|done].
    apply map_size_insert_Some. eauto. }
  split; [|split; [exact Hupd|split; [|split]]].
  - intros uuid now data Hfresh. cbn. by apply map_size_insert_None.
  - intros u t e now.
    unfold MemoryAdapter.setVerificationToken, MemoryAdapter.setPasswordResetToken,
      MemoryAdapter.clearVerificationToken, MemoryAdapter.clearPasswordResetToken.
    destruct (users s !! u) as [usr|] eqn:Hu; cbn; [|done].
    rewrite !map_size_insert_Some by eauto. done.
  - intros u h nowV now. unfold MemoryAdapter.verifyUserEmail, MemoryAdapter.updatePassword.
    split.
    + rewrite <- (Hupd u (UpdateUserInput.mk None None None (Some (Some nowV)) (Some None)
                            (Some None) None None) now).
      by destruct (MemoryAdapter.updateUser _ _ _ _).
    + rewrite <- (Hupd u (UpdateUserInput.mk None (Some h) None None None None
                            (Some None) (Some None)) now).
      by destruct (MemoryAdapter.updateUser _ _ _ _).
  - cbn. apply map_size_empty.
Qed.

Lemma getUserCount_changes_witness :
  MemoryAdapter.getUserCount
    (storeOf (MemoryAdapter.createUser "u2" 5
                (CreateUserInput.mk "A@X.com" "h2" "Bob" None None) demoStore)) = 2%nat.
Proof.
  destruct (getUserCount_changes demoStore) as [Hc _].
  rewrite (Hc "u2" 5 (CreateUserInput.mk "A@X.com" "h2" "Bob" None None)); reflexivity.
Defined.

(** * Further properties of the rate limiter *)

(** What a check answers and stores depends only on the entry of its key. *)
Lemma checkRateLimit_by_entry identifier endpoint config nowC now st :
  nowC <= now ->
  let key := rateLimitKey identifier endpoint in
  let limit := RateLimitConfig.limit config in
  let resetAt := now + RateLimitConfig.windowSeconds config * 1000 in
  let fresh := (RateLimitResult.mk true (limit - 1) resetAt,
                Some (RateLimitEntry.mk 1 resetAt)) in
  let r := checkRateLimit identifier endpoint config nowC now st in
  (r.1, rateLimitStore r.2 !! key)
  = match rateLimitStore st !! key with
    | None => fresh
    | Some e =>
        if RateLimitEntry.resetAt e <? now then fresh
        else if limit <=? RateLimitEntry.count e
             then (RateLimitResult.mk false 0 (RateLimitEntry.resetAt e), Some e)
             else (RateLimitResult.mk true (limit - (RateLimitEntry.count e + 1))
                     (RateLimitEntry.resetAt e),
                   Some (RateLimitEntry.mk (RateLimitEntry.count e + 1)
                           (RateLimitEntry.resetAt e)))
    end.
Proof.
  intros Hle key limit resetAt fresh r. subst key limit resetAt fresh r.
  destruct (rateLimitStore st !! rateLimitKey identifier endpoint) as [e|] eqn:Hk.
  - destruct (RateLimitEntry.resetAt e <? now) eqn:Hexp.
    + pose proof (checkRateLimit_fresh identifier endpoint config nowC now st Hle) as Hf.
      destruct (checkRateLimit identifier endpoint config nowC now st) as [r st'].
      destruct Hf as [-> Hs]; [right; exists e; split; [done | by apply Z.ltb_lt]|].
      cbn [fst snd]. by rewrite Hs.
    + apply Z.ltb_ge in Hexp.
      destruct (RateLimitConfig.limit config <=? RateLimitEntry.count e) eqn:Hc.
      * pose proof (checkRateLimit_denied identifier endpoint config nowC now st e Hle Hk
                      ltac:(lia) ltac:(by apply Z.leb_le)) as Hf.
        destruct (checkRateLimit identifier endpoint config nowC now st) as [r st'].
        destruct Hf as [-> Hs]. cbn [fst snd]. by rewrite Hs.
      * pose proof (checkRateLimit_counted identifier endpoint config nowC now st e Hle Hk
                      ltac:(lia) ltac:(by apply Z.leb_gt)) as Hf.
        destruct (checkRateLimit identifier endpoint config nowC now st) as [r st'].
        destruct Hf as [-> Hs]. cbn [fst snd]. by rewrite Hs.
  - pose proof (checkRateLimit_fresh identifier endpoint config nowC now st Hle) as Hf.
    destruct (checkRateLimit identifier endpoint config nowC now st) as [r st'].
    destruct Hf as [-> Hs]; [by left|]. cbn [fst snd]. by rewrite Hs.
Qed.

(** X10. The lazy sweep is transparent: two limiter states that agree on the
    entry of a key give the same answer and the same new entry for that key,
    whenever each sweep's clock reading is no later than the check's,
    whatever else the stores hold and whenever they were last swept. *)
Theorem checkRateLimit_sweep_transparent
    (identifier endpoint : string) (config : RateLimitConfig.t)
    (nowC1 nowC2 now : Z) (st1 st2 : RLState) :
  nowC1 <= now -> nowC2 <= now ->
  rateLimitStore st1 !! rateLimitKey identifier endpoint
  = rateLimitStore st2 !! rateLimitKey identifier endpoint ->
  let r1 := checkRateLimit identifier endpoint config nowC1 now st1 in
  let r2 := checkRateLimit identifier endpoint config nowC2 now st2 in
  r1.1 = r2.1
  /\ rateLimitStore r1.2 !! rateLimitKey identifier endpoint
     = rateLimitStore r2.2 !! rateLimitKey identifier endpoint.
Proof.
  intros H1 H2 Heq r1 r2. subst r1 r2.
  pose proof (checkRateLimit_by_entry identifier endpoint config nowC1 now st1 H1) as E1.
  pose proof (checkRateLimit_by_entry identifier endpoint config nowC2 now st2 H2) as E2.
  cbv zeta in E1, E2. rewrite Heq in E1. rewrite <- E2 in E1.
  by injection E1.
Qed.

Lemma checkRateLimit_sweep_transparent_witness :
  let e := RateLimitEntry.mk 2 60000 in
  let st1 := mkRL {[ "ip:login" := e ]} 0 in
  let st2 := mkRL {[ "ip:login" := e; "old:login" := RateLimitEntry.mk 9 5 ]} (-400000) in
  (checkRateLimit "ip" "login" RATE_LIMITS.LOGIN 10 10 st1).1
  = (checkRateLimit "ip" "login" RATE_LIMITS.LOGIN 10 10 st2).1.
Proof.
  intros e st1 st2.
  apply (checkRateLimit_sweep_transparent "ip" "login" RATE_LIMITS.LOGIN 10 10 10 st1 st2);
    [lia | lia | reflexivity].
Defined.

(** X11. A check touches no key but its own: an entry of another key after
    the call was there before, unchanged, and an entry of another key that
    has not expired at the sweep's clock reading is still there, unchanged. *)
Theorem checkRateLimit_other_keys
    (identifier endpoint : string) (config : RateLimitConfig.t)
    (nowC now : Z) (st : RLState) (k : string) (e : RateLimitEntry.t) :
  k <> rateLimitKey identifier endpoint ->
  let st' := (checkRateLimit identifier endpoint config nowC now st).2 in
  (rateLimitStore st' !! k = Some e -> rateLimitStore st !! k = Some e)
  /\ (rateLimitStore st !! k = Some e -> ¬ (RateLimitEntry.resetAt e < nowC) ->
      rateLimitStore st' !! k = Some e).
Proof.
  intros Hne st'. subst st'.
  assert (Hk : rateLimitStore (checkRateLimit identifier endpoint config nowC now st).2 !! k
               = rateLimitStore (cleanupExpiredEntries nowC st) !! k).
  { unfold checkRateLimit.
    destruct (rateLimitStore (cleanupExpiredEntries nowC st) !! _) as [e0|]; cbn.
    - destruct (RateLimitEntry.resetAt e0 <? now); cbn;
        [by rewrite lookup_insert_ne|].
      destruct (RateLimitConfig.limit config <=? RateLimitEntry.count e0); cbn;
        [done | by rewrite lookup_insert_ne].
    - by rewrite lookup_insert_ne. }
  rewrite Hk. split.
  - apply cleanup_lookup_Some.
  - intros He Hlive. apply (cleanup_lookup_live nowC nowC); [lia | done | done].
Qed.

Lemma checkRateLimit_other_keys_witness :
  let e := RateLimitEntry.mk 3 60000 in
  let st := mkRL {[ "ip:login" := e ]} 0 in
  rateLimitStore (checkRateLimit "ip" "register" RATE_LIMITS.REGISTRATION 10 10 st).2
    !! "ip:login" = Some e.
Proof.
  intros e st.
  apply (checkRateLimit_other_keys "ip" "register" RATE_LIMITS.REGISTRATION 10 10 st
           "ip:login" e); [done | reflexivity | cbn; lia].
Defined.



(** Requests inside the window of an entry that has reached the limit are
    all denied and leave the entry alone. *)
Lemma checkMany_denied identifier endpoint config times : forall st e,
  rateLimitStore st !! rateLimitKey identifier endpoint = Some e ->
  RateLimitConfig.limit config <= RateLimitEntry.count e ->
  Forall (fun ct : Z * Z => ct.1 <= ct.2 /\ ct.2 <= RateLimitEntry.resetAt e) times ->
  let run := checkMany identifier endpoint config times st in
  map RateLimitResult.allowed run.1 = repeat false (length times)
  /\ rateLimitStore run.2 !! rateLimitKey identifier endpoint = Some e.
Proof.
  induction times as [|[c t] rest IH]; intros st e Hk Hfull Hall; [done|].
  apply Forall_cons in Hall as [[Hct HtR] Hall]. cbn in Hct, HtR.
  pose proof (checkRateLimit_denied identifier endpoint config c t st e Hct Hk
                ltac:(lia) Hfull) as Hstep.
  cbn [checkMany].
  destruct (checkRateLimit identifier endpoint config c t st) as [r st1].
  destruct Hstep as [-> Hk1].
  specialize (IH st1 e Hk1 Hfull Hall). cbn in IH.
  destruct (checkMany identifier endpoint config rest st1) as [rs st2].
  cbn in *. destruct IH as [-> ->]. done.
Qed.

(** X13. A window lets through exactly [limit] requests.  For a limit of at
    least 1 and a key with no live entry, any number of requests made before
    the window opened by the first one ends are answered: allowed for the
    first [limit] of them, denied for all the rest. *)
Theorem checkMany_window
    (identifier endpoint : string) (config : RateLimitConfig.t)
    (st : RLState) (c0 t0 : Z) (rest : list (Z * Z)) :
  let key := rateLimitKey identifier endpoint in
  let limit := RateLimitConfig.limit config in
  let window := RateLimitConfig.windowSeconds config * 1000 in
  1 <= limit ->
  c0 <= t0 ->
  (rateLimitStore st !! key = None
   \/ exists e, rateLimitStore st !! key = Some e /\ RateLimitEntry.resetAt e < t0) ->
  Forall (fun ct : Z * Z => ct.1 <= ct.2 /\ ct.2 <= t0 + window) rest ->
  let n := S (length rest) in
  map RateLimitResult.allowed (checkMany identifier endpoint config ((c0, t0) :: rest) st).1
  = (repeat true (Nat.min n (Z.to_nat limit))
     ++ repeat false (n - Z.to_nat limit))%list.
Proof.
  intros key limit window Hlim Hc0 Hpre Hall n. subst key limit window n.
  pose proof (checkRateLimit_fresh identifier endpoint config c0 t0 st Hc0 Hpre) as Hf.
  cbn [checkMany].
  destruct (checkRateLimit identifier endpoint config c0 t0 st) as [r0 st0].
  destruct Hf as [-> Hk0].
  set (L := Z.to_nat (RateLimitConfig.limit config)).
  pose (m := (L - 1)%nat).
  assert (HL : L = S m) by (subst m L; lia).
  pose (l1 := take m rest). pose (l2 := drop m rest).
  assert (Hrest : rest = (l1 ++ l2)%list) by (symmetry; apply take_drop).
  assert (Hl1 : (length l1 <= m)%nat) by (subst l1; rewrite length_take; lia).
  assert (Hl2 : l2 = nil \/ length l1 = m).
  { destruct (Nat.le_gt_cases (length rest) m) as [Hshort|Hlong].
    - left. subst l2. by apply drop_ge.
    - right. subst l1. rewrite length_take. lia. }
  clearbody l1 l2. subst rest. rewrite checkMany_app.
  apply Forall_app in Hall as [Htake Hdrop].
  pose proof (checkMany_counted identifier endpoint config l1 st0 1 _ Hk0 Htake
                ltac:(lia)) as [Hrs Hk1].
  destruct (checkMany identifier endpoint config l1 st0) as [rs st1].
  cbn [fst snd] in *. rewrite length_app, HL.
  destruct Hl2 as [-> | Hm].
  - cbn [checkMany fst length]. rewrite app_nil_r, Nat.add_0_r.
    replace (Nat.min (S (length l1)) (S m)) with (S (length l1)) by lia.
    replace (S (length l1) - S m)%nat with 0%nat by lia.
    cbn. by rewrite app_nil_r, Hrs.
  - pose proof (checkMany_denied identifier endpoint config l2 st1 _ Hk1) as Hden.
    destruct Hden as [Hds _]; [cbn; lia | done |].
    destruct (checkMany identifier endpoint config l2 st1) as [ds st2].
    cbn [fst snd] in *. rewrite Hm.
    replace (Nat.min (S (m + length l2)) (S m)) with (S m) by lia.
    replace (S (m + length l2) - S m)%nat with (length l2) by lia.
    cbn. by rewrite map_app, Hrs, Hds, Hm.
Qed.

Lemma checkMany_window_witness :
  map RateLimitResult.allowed
    (checkMany "ip" "verify-email" RATE_LIMITS.VERIFICATION_EMAIL
       ((0, 0) :: (1, 1) :: (2, 2) :: (3, 3) :: (4, 3600000) :: nil) (mkRL ∅ 0)).1
  = true :: true :: true :: false :: false :: nil.
Proof.
  apply (checkMany_window "ip" "verify-email" RATE_LIMITS.VERIFICATION_EMAIL (mkRL ∅ 0) 0 0
           ((1, 1) :: (2, 2) :: (3, 3) :: (4, 3600000) :: nil)).
  - cbn; lia.
  - lia.
  - by left.
  - repeat constructor; cbn; lia.
Defined.

(** X14. Keys of the store do not collide for identifiers without a colon
    (such as the hexadecimal IP hashes the handlers pass): equal keys then
    mean equal identifier and equal endpoint.  An identifier that contains a
    colon can share its counter with another pair. *)
Theorem rateLimitKey_injective (i1 e1 i2 e2 : string) :
  (colonFree i1 = true -> colonFree i2 = true ->
   rateLimitKey i1 e1 = rateLimitKey i2 e2 -> i1 = i2 /\ e1 = e2)
  /\ rateLimitKey (i1 ++ ":" ++ e1) e2 = rateLimitKey i1 (e1 ++ ":" ++ e2).
Proof.
  unfold rateLimitKey. split.
  - revert i2. induction i1 as [|a i1 IH]; intros [|b i2] H1 H2 Heq.
    + change (String ":" e1 = String ":" e2) in Heq. split; congruence.
    + change (String ":" e1 = String b (i2 ++ ":" ++ e2)) in Heq.
      cbn in H2. injection Heq as <- _. done.
    + change (String a (i1 ++ ":" ++ e1) = String ":" e2) in Heq.
      cbn in H1. injection Heq as -> _. done.
    + change (String a (i1 ++ ":" ++ e1) = String b (i2 ++ ":" ++ e2)) in Heq.
      injection Heq as -> Heq. cbn in H1, H2.
      apply andb_prop in H1 as [_ H1]. apply andb_prop in H2 as [_ H2].
      destruct (IH i2 H1 H2 Heq) as [-> ->]. done.
  - by rewrite <- append_assoc.
Qed.

Lemma rateLimitKey_injective_witness :
  rateLimitKey "9f2c" "login" <> rateLimitKey "9f2" "c:login"
  /\ rateLimitKey "a:b" "login" = rateLimitKey "a" "b:login".
Proof.
  split.
  - intros Heq.
    destruct (rateLimitKey_injective "9f2c" "login" "9f2" "c:login") as [Hinj _].
    destruct (Hinj eq_refl eq_refl Heq) as [H _]. discriminate.
  - apply (rateLimitKey_injective "a" "b" "" "login").
Defined.

Lemma ceilDiv1000_spec x : 1000 * (ceilDiv1000 x - 1) < x <= 1000 * ceilDiv1000 x.
Proof.
  unfold ceilDiv1000.
  pose proof (Z.div_mod (- x) 1000 ltac:(lia)) as Hdm.
  pose proof (Z.mod_pos_bound (- x) 1000 ltac:(lia)) as Hb. lia.
Qed.

(** X15. A request is turned away with 429 only in the denied branch: the
    key then holds a live entry whose count has reached the limit, the entry
    is left as it is, and the [retryAfter] sent is the time to the entry's
    [resetAt] in whole seconds, rounded up. *)
Theorem applyRateLimit_denied
    (identifier endpoint : string) (config : RateLimitConfig.t)
    (nowC now nowR : Z) (st st' : RLState) (r : Response) :
  nowC <= now ->
  applyRateLimit identifier endpoint config nowC now nowR st = (Some r, st') ->
  exists e retryAfter,
    rateLimitStore st !! rateLimitKey identifier endpoint = Some e
    /\ RateLimitConfig.limit config <= RateLimitEntry.count e
    /\ now <= RateLimitEntry.resetAt e
    /\ rateLimitStore st' !! rateLimitKey identifier endpoint = Some e
    /\ r = JsonRateLimited retryAfter (ceilDiv1000 (RateLimitEntry.resetAt e))
    /\ 1000 * (retryAfter - 1) < RateLimitEntry.resetAt e - nowR <= 1000 * retryAfter.
Proof.
  intros Hle. unfold applyRateLimit.
  pose proof (checkRateLimit_by_entry identifier endpoint config nowC now st Hle) as Hby.
  cbv zeta in Hby.
  destruct (checkRateLimit identifier endpoint config nowC now st) as [res st1].
  cbn [fst snd] in Hby.
  destruct (rateLimitStore st !! rateLimitKey identifier endpoint) as [e|] eqn:Hk.
  - destruct (RateLimitEntry.resetAt e <? now) eqn:Hexp.
    + injection Hby as -> _. done.
    + destruct (RateLimitConfig.limit config <=? RateLimitEntry.count e) eqn:Hc.
      * injection Hby as -> Hk1. cbn. intros [= <- <-].
        exists e, (ceilDiv1000 (RateLimitEntry.resetAt e - nowR)).
        split; [done|]. split; [by apply Z.leb_le|]. split; [by apply Z.ltb_ge|].
        split; [done|]. split; [done|]. apply ceilDiv1000_spec.
      * injection Hby as -> _. done.
  - injection Hby as -> _. done.
Qed.

Lemma applyRateLimit_denied_witness :
  let st := mkRL {[ "ip:register" := RateLimitEntry.mk 5 3600000 ]} 0 in
  exists e retryAfter,
    rateLimitStore st !! "ip:register" = Some e
    /\ JsonRateLimited 3599 3600
       = JsonRateLimited retryAfter (ceilDiv1000 (RateLimitEntry.resetAt e))
    /\ 1000 * (retryAfter - 1) < RateLimitEntry.resetAt e - 1500 <= 1000 * retryAfter.
Proof.
  intros st.
  destruct (applyRateLimit_denied "ip" "register" RATE_LIMITS.REGISTRATION 1000 1000 1500
              st st (JsonRateLimited 3599 3600) ltac:(lia) eq_refl)
    as (e & retryAfter & Hk & _ & _ & _ & Hr & Hb).
  by exists e, retryAfter.
Defined.

(** X16. [clearRateLimits] refuses in production and changes nothing there;
    elsewhere it empties the store, so that the next check of any key is
    allowed and opens a new window. *)
Theorem clearRateLimits_spec (st : RLState) :
  clearRateLimits true st = (false, st)
  /\ (clearRateLimits false st).1 = true
  /\ forall identifier endpoint config nowC now,
       let r := checkRateLimit identifier endpoint config nowC now
                  (clearRateLimits false st).2 in
       r.1 = RateLimitResult.mk true (RateLimitConfig.limit config - 1)
               (now + RateLimitConfig.windowSeconds config * 1000)
       /\ rateLimitStore r.2 !! rateLimitKey identifier endpoint
          = Some (RateLimitEntry.mk 1 (now + RateLimitConfig.windowSeconds config * 1000)).
Proof.
  split; [done|]. split; [done|].
  intros identifier endpoint config nowC now r. subst r. cbn.
  unfold checkRateLimit.
  rewrite (cleanup_lookup_None nowC (mkRL ∅ (lastCleanupTime st))) by apply lookup_empty.
  cbn. split; [done|]. apply lookup_insert_eq.
Qed.

(** One check keeps the counter of its key between 1 and the limit. *)
Lemma checkRateLimit_range identifier endpoint config nowC now st :
  1 <= RateLimitConfig.limit config ->
  (forall e, rateLimitStore st !! rateLimitKey identifier endpoint = Some e ->
             1 <= RateLimitEntry.count e <= RateLimitConfig.limit config) ->
  let r := checkRateLimit identifier endpoint config nowC now st in
  0 <= RateLimitResult.remaining r.1 <= RateLimitConfig.limit config - 1
  /\ (RateLimitResult.allowed r.1 = false -> RateLimitResult.remaining r.1 = 0)
  /\ exists e, rateLimitStore r.2 !! rateLimitKey identifier endpoint = Some e
               /\ 1 <= RateLimitEntry.count e <= RateLimitConfig.limit config
               /\ (RateLimitResult.allowed r.1 = true ->
                   RateLimitResult.remaining r.1
                   = RateLimitConfig.limit config - RateLimitEntry.count e).
Proof.
  intros Hlim Hrange r. subst r. unfold checkRateLimit.
  destruct (rateLimitStore (cleanupExpiredEntries nowC st) !! _) as [e|] eqn:Hk; cbn.
  - apply cleanup_lookup_Some in Hk as Hk0. specialize (Hrange e Hk0).
    destruct (RateLimitEntry.resetAt e <? now); cbn.
    + split; [lia|]. split; [done|]. eexists. rewrite lookup_insert_eq.
      split; [done|]. cbn. split; [lia | done].
    + destruct (RateLimitConfig.limit config <=? RateLimitEntry.count e) eqn:Hc; cbn.
      * split; [lia|]. split; [done|]. exists e. split; [done|]. split; [lia | done].
      * apply Z.leb_gt in Hc. split; [lia|]. split; [done|]. eexists.
        rewrite lookup_insert_eq. split; [done|]. cbn. split; [lia | done].
  - split; [lia|]. split; [done|]. eexists. rewrite lookup_insert_eq.
    split; [done|]. cbn. split; [lia | done].
Qed.

(** X17. For a limit of at least 1, along any sequence of checks of one key,
    at any clock readings, the stored count stays between 1 and the limit,
    and every answer reports a [remaining] between 0 and [limit - 1], zero
    when denied; after at least one check the key has an entry. *)
Theorem counter_stays_in_range
    (identifier endpoint : string) (config : RateLimitConfig.t)
    (times : list (Z * Z)) (st : RLState) :
  let key := rateLimitKey identifier endpoint in
  let limit := RateLimitConfig.limit config in
  1 <= limit ->
  (forall e, rateLimitStore st !! key = Some e -> 1 <= RateLimitEntry.count e <= limit) ->
  let run := checkMany identifier endpoint config times st in
  Forall (fun r => 0 <= RateLimitResult.remaining r <= limit - 1
                   /\ (RateLimitResult.allowed r = false -> RateLimitResult.remaining r = 0))
    run.1
  /\ (forall e, rateLimitStore run.2 !! key = Some e -> 1 <= RateLimitEntry.count e <= limit)
  /\ (times <> nil \/ is_Some (rateLimitStore st !! key) ->
      is_Some (rateLimitStore run.2 !! key)).
Proof.
  intros key limit Hlim. subst key limit. revert st.
  induction times as [|[c t] rest IH]; intros st Hrange run; subst run.
  - cbn. split; [constructor|]. split; [exact Hrange|]. by intros [?|?].
  - cbn [checkMany].
    pose proof (checkRateLimit_range identifier endpoint config c t st Hlim Hrange)
      as (Hrem & Hzero & e1 & Hk1 & Hr1 & _).
    destruct (checkRateLimit identifier endpoint config c t st) as [r st1].
    cbn [fst snd] in *.
    assert (Hrange1 : forall e, rateLimitStore st1 !! rateLimitKey identifier endpoint
                                = Some e ->
                                1 <= RateLimitEntry.count e <= RateLimitConfig.limit config).
    { intros e He. rewrite Hk1 in He. by injection He as <-. }
    specialize (IH st1 Hrange1). cbn zeta in IH.
    destruct (checkMany identifier endpoint config rest st1) as [rs st2].
    cbn [fst snd] in *. destruct IH as (Hall & Hfin & Hsome).
    split; [by constructor|]. split; [exact Hfin|]. intros _.
    apply Hsome. right. by rewrite Hk1.
Qed.

Lemma counter_stays_in_range_witness :
  let run := checkMany "ip" "login" (RateLimitConfig.mk 2 60)
               ((9, 1) :: (0, 70000) :: (5, 3) :: (5, 4) :: nil) (mkRL ∅ (-900000)) in
  Forall (fun r => 0 <= RateLimitResult.remaining r <= 2 - 1
                   /\ (RateLimitResult.allowed r = false -> RateLimitResult.remaining r = 0))
    run.1
  /\ is_Some (rateLimitStore run.2 !! "ip:login").
Proof.
  intros run.
  destruct (counter_stays_in_range "ip" "login" (RateLimitConfig.mk 2 60)
              ((9, 1) :: (0, 70000) :: (5, 3) :: (5, 4) :: nil) (mkRL ∅ (-900000)))
    as (Hall & _ & Hsome).
  - cbn; lia.
  - intros e He. cbn in He. by rewrite lookup_empty in He.
  - split; [exact Hall|]. apply Hsome. by left.
Defined.

(** * Properties of the IP helpers *)

Lemma trimEnd_idem s : trimEnd (trimEnd s) = trimEnd s.
Proof.
  induction s as [|c r IH]; [done|]. cbn.
  destruct (trimEnd r) as [|c' r'] eqn:Er.
  - destruct (isSpace c) eqn:Ec; [done|]. cbn. by rewrite Ec.
  - cbn. cbn in IH. by rewrite IH.
Qed.

(** A string that is empty or starts with a non-space character. *)
Lemma trimStart_fix s :
  match s with EmptyString => True | String c _ => isSpace c = false end ->
  trimStart s = s.
Proof. destruct s as [|c r]; [done|]. cbn. by intros ->. Qed.

Lemma trimStart_head s :
  match trimStart s with EmptyString => True | String c _ => isSpace c = false end.
Proof.
  induction s as [|c r IH]; [done|]. cbn.
  destruct (isSpace c) eqn:Ec; [done|]. done.
Qed.

Lemma trimEnd_head s :
  match s with EmptyString => True | String c _ => isSpace c = false end ->
  match trimEnd s with EmptyString => True | String c _ => isSpace c = false end.
Proof.
  destruct s as [|c r]; [done|]. cbn. intros Hc.
  destruct (trimEnd r); [by rewrite Hc | done].
Qed.

Lemma trim_idem s : trim (trim s) = trim s.
Proof.
  unfold trim. rewrite (trimStart_fix (trimEnd (trimStart s))).
  - apply trimEnd_idem.
  - apply trimEnd_head, trimStart_head.
Qed.

Lemma firstField_app_comma f x : IpHash.firstField (f ++ "," ++ x) = IpHash.firstField f.
Proof.
  induction f as [|c r IH]; [done|].
  change (IpHash.firstField (String c (r ++ "," ++ x)) = IpHash.firstField (String c r)).
  cbn. destruct (Ascii.eqb c ","); [done|]. by rewrite IH.
Qed.

(** X18. The client IP read from the headers carries no surrounding white
    space; it is empty only when [x-real-ip] is a non-empty string of white
    space; and hops appended to a non-empty [x-forwarded-for] after a comma
    never change it. *)
Theorem getClientIP_props (headers : string -> option string) :
  trim (IpHash.getClientIP headers) = IpHash.getClientIP headers
  /\ (IpHash.getClientIP headers = "" ->
      exists realIP, headers "x-real-ip" = Some realIP /\ realIP <> "" /\ trim realIP = "")
  /\ (forall f hop headers',
      headers "x-forwarded-for" = Some f -> f <> "" ->
      headers' "x-forwarded-for" = Some (f ++ "," ++ hop) ->
      headers' "x-real-ip" = headers "x-real-ip" ->
      IpHash.getClientIP headers' = IpHash.getClientIP headers).
Proof.
  unfold IpHash.getClientIP. split; [|split].
  - assert (Hreal : trim (match headers "x-real-ip" with
                          | Some realIP => if truthy realIP then trim realIP else "unknown-ip"
                          | None => "unknown-ip"
                          end)
                    = match headers "x-real-ip" with
                      | Some realIP => if truthy realIP then trim realIP else "unknown-ip"
                      | None => "unknown-ip"
                      end).
    { destruct (headers "x-real-ip") as [r|]; [|done].
      destruct (truthy r); [apply trim_idem | done]. }
    destruct (headers "x-forwarded-for") as [f|]; [|done].
    destruct (truthy f); [|done].
    destruct (truthy (trim (IpHash.firstField f))); [apply trim_idem | done].
  - assert (Hreal : match headers "x-real-ip" with
                    | Some realIP => if truthy realIP then trim realIP else "unknown-ip"
                    | None => "unknown-ip"
                    end = "" ->
                    exists realIP, headers "x-real-ip" = Some realIP /\ realIP <> ""
                                   /\ trim realIP = "").
    { destruct (headers "x-real-ip") as [r|]; [|done].
      destruct (truthy r) eqn:Hr; [|done]. intros Ht. exists r.
      split; [done|]. split; [by apply truthy_true | done]. }
    destruct (headers "x-forwarded-for") as [f|]; [|done].
    destruct (truthy f); [|done].
    destruct (truthy (trim (IpHash.firstField f))) eqn:Hc; [|done].
    intros Heq. rewrite Heq in Hc. done.
  - intros f hop headers' Hf Hne Hf' Hr'. rewrite Hf, Hf', Hr'.
    apply truthy_true in Hne. rewrite Hne.
    assert (Ht : truthy (f ++ "," ++ hop) = true) by (destruct f; done).
    by rewrite Ht, firstField_app_comma.
Qed.

Lemma getClientIP_props_witness :
  IpHash.getClientIP (fun name => if String.eqb name "x-forwarded-for"
                                  then Some " 203.0.113.7 , 10.0.0.1,10.0.0.2" else None)
  = "203.0.113.7".
Proof.
  pose (h := fun name : string =>
               if String.eqb name "x-forwarded-for" then Some " 203.0.113.7 " else None).
  destruct (getClientIP_props h) as (_ & _ & Hhop).
  rewrite (Hhop " 203.0.113.7 " " 10.0.0.1,10.0.0.2" _ eq_refl ltac:(done) eq_refl eq_refl).
  reflexivity.
Defined.

(** X19. [hashIP] fails only on the first call of a production process that
    has no salt; and once a call has succeeded the salt is fixed: every later
    call, whatever the environment has become, succeeds, keeps the cache, and
    maps any address that is equal up to surrounding white space and letter
    case to the same hash. *)
Theorem hashIP_stable
    (sha256hex : string -> string) (envSalt : option string) (production : bool)
    (ip : string) (resolvedSalt : option string) :
  (IpHash.hashIP sha256hex envSalt production ip resolvedSalt = None
   <-> resolvedSalt = None /\ orNull envSalt = None /\ production = true)
  /\ (forall h cache,
      IpHash.hashIP sha256hex envSalt production ip resolvedSalt = Some (h, cache) ->
      forall envSalt' production' ip',
        toLowerCase (trim ip') = toLowerCase (trim ip) ->
        IpHash.hashIP sha256hex envSalt' production' ip' cache = Some (h, cache)).
Proof.
  unfold IpHash.hashIP, IpHash.getEffectiveSalt. split.
  - destruct resolvedSalt as [salt|]; cbn.
    + split; [done | by intros [? _]].
    + destruct (orNull envSalt) as [v|]; cbn.
      * split; [done | by intros (_ & ? & _)].
      * destruct production; cbn; [by split | split; [done | by intros (_ & _ & ?)]].
  - intros h cache Hh envSalt' production' ip' Hip. rewrite Hip.
    destruct resolvedSalt as [salt|]; cbn in *.
    + by injection Hh as <- <-.
    + destruct (orNull envSalt) as [v|]; cbn in *.
      * by injection Hh as <- <-.
      * destruct production; [done|]. by injection Hh as <- <-.
Qed.

Lemma hashIP_stable_witness :
  let sha := fun s : string => "#" ++ s in
  IpHash.hashIP sha None true " 2001:DB8::1 " (Some "pepper")
  = Some ("#pepper:2001:db8::1", Some "pepper").
Proof.
  intros sha.
  destruct (hashIP_stable sha (Some "pepper") false "2001:db8::1" None) as [_ Hst].
  apply (Hst _ _ eq_refl None true " 2001:DB8::1 "). reflexivity.
Defined.

(** * Properties of the login and of the flows end to end *)

(** X20. What each answer of [authorize] tells.  It resolves only for a
    stored, verified user whose hash matches, with that user's id, address
    and name.  [EMAIL_NOT_VERIFIED] is thrown only when the user exists and
    the password matches.  When no user is stored for the address, and when
    one is stored but the password does not match, the message is the same
    ["Invalid email or password"]. *)
Theorem authorize_answers
    (isEmail : string -> bool) (compare : string -> string -> bool)
    (credentials : Credentials.t) (s : Store) :
  let r := authorize isEmail compare (Some credentials) s in
  (forall id email name,
      r = Authorized id email name ->
      exists input uf ts,
        loginSchema isEmail credentials = Some input
        /\ MemoryAdapter.findUserByEmail (LoginInput.email input) s = Some uf
        /\ compare (LoginInput.password input) (UserForAuth.passwordHash uf) = true
        /\ UserForAuth.emailVerified uf = Some ts
        /\ id = UserForAuth.id uf /\ email = UserForAuth.email uf
        /\ name = UserForAuth.name uf)
  /\ (r = AuthError "EMAIL_NOT_VERIFIED" ->
      exists input uf,
        loginSchema isEmail credentials = Some input
        /\ MemoryAdapter.findUserByEmail (LoginInput.email input) s = Some uf
        /\ compare (LoginInput.password input) (UserForAuth.passwordHash uf) = true
        /\ UserForAuth.emailVerified uf = None)
  /\ (forall input,
      loginSchema isEmail credentials = Some input ->
      LoginInput.email input <> "" ->
      (MemoryAdapter.findUserByEmail (LoginInput.email input) s = None
       \/ exists uf, MemoryAdapter.findUserByEmail (LoginInput.email input) s = Some uf
                     /\ compare (LoginInput.password input) (UserForAuth.passwordHash uf)
                        = false) ->
      r = AuthError "Invalid email or password").
Proof.
  intros r. subst r. unfold authorize.
  destruct (negb _) eqn:Hpresent.
  { split; [done|]. split; [done|]. intros input Hin Hne _. exfalso.
    unfold loginSchema in Hin.
    destruct (Credentials.email credentials) as [e|]; [|done].
    destruct (Credentials.password credentials) as [p|]; [|done].
    destruct (isEmail e && (1 <=? strLength p))%bool eqn:Hok; [|done].
    injection Hin as <-. cbn in Hne.
    apply andb_prop in Hok as [_ Hp]. apply Z.leb_le in Hp.
    assert (He : truthy e = true) by (destruct e; [done | done]).
    assert (Hp' : truthy p = true) by (destruct p; [unfold strLength in Hp; cbn in Hp; lia | done]).
    cbn in Hpresent. by rewrite He, Hp' in Hpresent. }
  destruct (loginSchema isEmail credentials) as [input|] eqn:Hin.
  2:{ split; [done|]. split; [done|]. done. }
  destruct (MemoryAdapter.findUserByEmail (LoginInput.email input) s) as [uf|] eqn:Hf.
  2:{ split; [done|]. split; [done|]. done. }
  destruct (compare (LoginInput.password input) (UserForAuth.passwordHash uf)) eqn:Hc; cbn.
  - destruct (UserForAuth.emailVerified uf) as [ts|] eqn:Hv.
    + split; [|split; [done|]].
      * intros id email name [= <- <- <-]. by exists input, uf, ts.
      * intros input' [= <-] _ [H|(uf' & H & H')]; rewrite Hf in H;
          [done | injection H as <-; congruence].
    + split; [done|]. split.
      * intros _. by exists input, uf.
      * intros input' [= <-] _ [H|(uf' & H & H')]; rewrite Hf in H;
          [done | injection H as <-; congruence].
  - split; [done|]. split; [done|]. done.
Qed.

Lemma authorize_answers_witness :
  authorize (fun _ => true) (fun p h => String.eqb h "h")
    (Some (Credentials.mk (Some "nobody@x.com") (Some "pw"))) demoStore
  = AuthError "Invalid email or password"
  /\ authorize (fun _ => true) (fun p h => String.eqb p "right")
       (Some (Credentials.mk (Some "a@x.com") (Some "wrong"))) demoStore
     = AuthError "Invalid email or password".
Proof.
  split.
  - destruct (authorize_answers (fun _ => true) (fun p h => String.eqb h "h")
                (Credentials.mk (Some "nobody@x.com") (Some "pw")) demoStore)
      as (_ & _ & H).
    apply (H (LoginInput.mk "nobody@x.com" "pw")); [reflexivity | done | by left].
  - destruct (authorize_answers (fun _ => true) (fun p h => String.eqb p "right")
                (Credentials.mk (Some "a@x.com") (Some "wrong")) demoStore)
      as (_ & _ & H).
    apply (H (LoginInput.mk "a@x.com" "wrong")); [reflexivity | done |].
    right. eexists. split; reflexivity.
Defined.

Lemma registerSchema_inv isEmail raw password name data :
  registerSchema isEmail (RegisterBody.mk (Some raw) (Some password) (Some name)) = Some data ->
  isEmail raw = true /\ 8 <= strLength password
  /\ data = RegisterInput.mk (toLowerCase raw) password (trim name).
Proof.
  unfold registerSchema. cbn.
  destruct (_ && _)%bool eqn:Hok; [|done]. intros [= <-].
  apply andb_prop in Hok as [Hok _]. apply andb_prop in Hok as [Hok _].
  apply andb_prop in Hok as [Hok Hpw]. apply andb_prop in Hok as [Hem _].
  unfold passwordSchema in Hpw.
  apply andb_prop in Hpw as [Hpw _]. apply andb_prop in Hpw as [Hpw _].
  apply andb_prop in Hpw as [Hpw _]. apply andb_prop in Hpw as [Hpw _].
  split; [done|]. split; [by apply Z.leb_le | done].
Qed.

(** X21. Register, then verify, then log in.  A valid registration with an
    unused address, past the rate limiter, answers 201 with the generated id,
    the lower-cased address and the trimmed name.  Logging in with the same
    address and password is then refused with [EMAIL_NOT_VERIFIED]; following
    the emailed link no later than 24 hours after issue succeeds; after that
    the same login resolves to the new user, and the link is dead. *)
Theorem register_verify_login
    (env : Collaborators.t) (compare : string -> string -> bool)
    (ipHash raw password name idUuid tokenUuid : string)
    (clk clk2 : Clock.t) (w : World) (rl' : RLState) (data : RegisterInput.t) :
  passesRateLimit ipHash "register" RATE_LIMITS.REGISTRATION clk w rl' ->
  registerSchema (Collaborators.isEmail env)
    (RegisterBody.mk (Some raw) (Some password) (Some name)) = Some data ->
  raw <> "" -> idUuid <> "" -> tokenUuid <> "" ->
  MemoryAdapter.emailExists raw (db w) = false ->
  compare password (Collaborators.hash env password 12) = true ->
  Clock.expiry clk2 <= Clock.issue clk + 24 * 60 * 60 * 1000 ->
  let credentials := Some (Credentials.mk (Some raw) (Some password)) in
  let registered :=
    RegisterRoute.POST env ipHash (RegisterBody.mk (Some raw) (Some password) (Some name))
      idUuid tokenUuid clk w in
  let verified := VerifyEmailRoute.GET (Some tokenUuid) clk2 registered.2 in
  registered.1
  = JsonCreated idUuid (toLowerCase raw) (trim name) (Clock.write clk)
      "VERIFICATION_EMAIL_SENT"
  /\ authorize (Collaborators.isEmail env) compare credentials (db registered.2)
     = AuthError "EMAIL_NOT_VERIFIED"
  /\ verified.1 = Redirect "/verify-email/success"
  /\ authorize (Collaborators.isEmail env) compare credentials (db verified.2)
     = Authorized idUuid (toLowerCase raw) (trim name)
  /\ MemoryAdapter.getVerificationToken tokenUuid (db verified.2) = None.
Proof.
  intros Hrl Hparse Hraw Hid Htok Hnew Hcmp Hexp credentials registered verified.
  pose proof (registerSchema_inv _ _ _ _ _ Hparse) as (Hem & Hlen & ->).
  apply truthy_true in Hraw as Hraw', Hid as Hid', Htok as Htok'.
  pose proof (long_truthy password Hlen) as Hpw'.
  assert (Hnew' : MemoryAdapter.emailExists (toLowerCase raw) (db w) = false).
  { unfold MemoryAdapter.emailExists in *. by rewrite toLowerCase_idem. }
  pose (s1 := storeOf (MemoryAdapter.createUser idUuid (Clock.write clk)
                         (CreateUserInput.mk (toLowerCase raw)
                            (Collaborators.hash env password 12) (trim name)
                            (Some tokenUuid) (Some (Clock.issue clk + 24 * 60 * 60 * 1000)))
                         (db w))).
  pose (s2 := storeOf (MemoryAdapter.verifyUserEmail idUuid (Clock.stamp clk2)
                         (Clock.write clk2) s1)).
  assert (Hreg : registered
                 = (JsonCreated idUuid (toLowerCase raw) (trim name) (Clock.write clk)
                      "VERIFICATION_EMAIL_SENT", mkWorld s1 rl')).
  { subst registered s1. unfold RegisterRoute.POST. red in Hrl.
    rewrite Hrl, Hparse. cbn [RegisterInput.email]. rewrite Hnew'. cbn.
    by rewrite toLowerCase_idem. }
  assert (Hlogin : loginSchema (Collaborators.isEmail env)
                     (Credentials.mk (Some raw) (Some password))
                   = Some (LoginInput.mk (toLowerCase raw) password)).
  { unfold loginSchema. cbn. rewrite Hem.
    assert ((1 <=? strLength password) = true) as -> by (apply Z.leb_le; lia). done. }
  assert (Hget : MemoryAdapter.getVerificationToken tokenUuid s1
                 = Some (TokenData.mk idUuid tokenUuid
                           (Clock.issue clk + 24 * 60 * 60 * 1000))).
  { subst s1. unfold MemoryAdapter.getVerificationToken. cbn.
    by rewrite Htok', lookup_insert_eq, Hid', lookup_insert_eq. }
  assert (Hver : verified = (Redirect "/verify-email/success", mkWorld s2 rl')).
  { subst verified. rewrite Hreg. cbn [snd].
    destruct (verifyEmail_GET_live tokenUuid clk2 (mkWorld s1 rl') Htok _ Hget Hexp)
      as (s' & Hs' & ->).
    subst s2. cbn [db TokenData.userId] in Hs'. by rewrite Hs'. }
  rewrite Hver, Hreg. cbn [fst snd db]. subst credentials.
  split; [done|]. split; [|split; [done|split]].
  - unfold authorize. cbn [Credentials.email Credentials.password].
    rewrite Hraw', Hpw', Hlogin. cbn [negb andb LoginInput.email LoginInput.password].
    rewrite findUserByEmail_view. subst s1. cbn.
    rewrite toLowerCase_idem, !lookup_insert_eq, Hid'. cbn. by rewrite Hcmp.
  - unfold authorize. cbn [Credentials.email Credentials.password].
    rewrite Hraw', Hpw', Hlogin. cbn [negb andb LoginInput.email LoginInput.password].
    rewrite findUserByEmail_view. subst s2 s1.
    unfold MemoryAdapter.verifyUserEmail, MemoryAdapter.updateUser. cbn.
    rewrite lookup_insert_eq. cbn.
    rewrite toLowerCase_idem, !lookup_insert_eq, Hid'. cbn. by rewrite Hcmp.
  - subst s2. eapply verifyUserEmail_unreachable; [exact Hget|].
    destruct (MemoryAdapter.verifyUserEmail _ _ _ s1) as [[] s'|m s'] eqn:Hv; [done|].
    exfalso. revert Hv. subst s1. unfold MemoryAdapter.verifyUserEmail,
      MemoryAdapter.updateUser. cbn. by rewrite lookup_insert_eq.
Qed.

Lemma register_verify_login_witness :
  let body := RegisterBody.mk (Some "Ann@X.com") (Some "Abcdef12") (Some " Ann ") in
  let cmp := fun p h : string => String.eqb h ("$2b$12$" ++ p) in
  let creds := Some (Credentials.mk (Some "Ann@X.com") (Some "Abcdef12")) in
  let w0 := mkWorld emptyStore (mkRL ∅ 0) in
  let w1 := (RegisterRoute.POST demoEnv "ip" body "u1" "t1" (Clock.mk 0 0 0 0 0 0 0) w0).2 in
  let w2 := (VerifyEmailRoute.GET (Some "t1") (Clock.mk 0 0 0 0 5000 5000 5000) w1).2 in
  authorize (fun _ => true) cmp creds (db w1) = AuthError "EMAIL_NOT_VERIFIED"
  /\ authorize (fun _ => true) cmp creds (db w2) = Authorized "u1" "ann@x.com" "Ann".
Proof.
  intros body cmp creds w0 w1 w2.
  destruct (register_verify_login demoEnv cmp "ip" "Ann@X.com" "Abcdef12" " Ann " "u1" "t1"
              (Clock.mk 0 0 0 0 0 0 0) (Clock.mk 0 0 0 0 5000 5000 5000) w0
              (mkRL {[ "ip:register" := RateLimitEntry.mk 1 3600000 ]} 0)
              (RegisterInput.mk "ann@x.com" "Abcdef12" "Ann"))
    as (_ & Hbefore & _ & Hafter & _); try reflexivity; try done.
Defined.

(** X22. Forgot password, then reset, then log in.  For a stored, verified
    user, in a store the adapter can reach: the forgot-password request
    answers success; a reset with the issued token and a new password of at
    least 8 characters, made no later than one hour after issue, answers
    success; after it the login resolves with the new password, is refused
    with the generic message for a password the new hash does not match, and
    the token is dead. *)
Theorem forgot_reset_login
    (env : Collaborators.t) (compare : string -> string -> bool)
    (ipHash q oldPassword newPassword tok : string)
    (clk clk2 : Clock.t) (w : World) (rl1 rl2 : RLState)
    (uf : UserForAuth.t) (ts : Date) :
  reachable (db w) ->
  passesRateLimit ipHash "forgot-password" RATE_LIMITS.PASSWORD_RESET clk w rl1 ->
  passesRateLimit ipHash "reset-password" RATE_LIMITS.PASSWORD_RESET clk2
    (mkWorld (db w) rl1) rl2 ->
  q <> "" -> tok <> "" -> oldPassword <> "" ->
  Collaborators.isEmail env q = true ->
  MemoryAdapter.findUserByEmail q (db w) = Some uf ->
  UserForAuth.emailVerified uf = Some ts ->
  Collaborators.sendPasswordResetEmail env (UserForAuth.email uf) tok "en" = true ->
  8 <= strLength newPassword ->
  compare newPassword (Collaborators.hash env newPassword 12) = true ->
  compare oldPassword (Collaborators.hash env newPassword 12) = false ->
  Clock.expiry clk2 <= Clock.issue clk + 60 * 60 * 1000 ->
  let requested :=
    ForgotPasswordRoute.POST env ipHash (ForgotPasswordRoute.mkBody (Some q)) tok clk w in
  let reset :=
    ResetPasswordRoute.POST env ipHash
      (ResetPasswordRoute.mkBody (Some tok) (Some newPassword)) clk2 requested.2 in
  let login p :=
    authorize (Collaborators.isEmail env) compare
      (Some (Credentials.mk (Some q) (Some p))) (db reset.2) in
  requested.1 = JsonSuccess
  /\ reset.1 = JsonSuccess
  /\ login newPassword
     = Authorized (UserForAuth.id uf) (UserForAuth.email uf) (UserForAuth.name uf)
  /\ login oldPassword = AuthError "Invalid email or password"
  /\ MemoryAdapter.getPasswordResetToken tok (db reset.2) = None.
Proof.
  intros Hr Hrl1 Hrl2 Hq Htok Hold Hem Hf Hver Hsend Hlen Hcmp Hcmp' Hexp
    requested reset login.
  pose proof Hf as Hf'. rewrite findUserByEmail_view in Hf'.
  destruct (emailIndex (db w) !! toLowerCase q) as [uid|] eqn:Hi; [|done].
  destruct (truthy uid) eqn:Huid; [|done].
  destruct (users (db w) !! uid) as [usr|] eqn:Hu; [|done].
  cbn in Hf'. injection Hf' as <-. cbn in Hver, Hsend |- *.
  pose proof (reachable_keysOk _ Hr uid usr Hu) as Hk.
  apply truthy_true in Hq as Hq', Htok as Htok', Hold as Hold'.
  pose proof (long_truthy newPassword Hlen) as Hnew'.
  pose (s1 := storeOf (MemoryAdapter.setPasswordResetToken uid tok
                         (Clock.issue clk + 60 * 60 * 1000) (Clock.write clk) (db w))).
  assert (Hreq : requested = (JsonSuccess, mkWorld s1 rl1)).
  { subst requested s1. unfold ForgotPasswordRoute.POST. red in Hrl1. rewrite Hrl1. cbn.
    rewrite Hq', Hf. cbn. unfold MemoryAdapter.setPasswordResetToken.
    rewrite Hk, Hu. cbn. by rewrite Hsend. }
  assert (Hget : MemoryAdapter.getPasswordResetToken tok s1
                 = Some (TokenData.mk uid tok (Clock.issue clk + 60 * 60 * 1000))).
  { subst s1. unfold MemoryAdapter.setPasswordResetToken. rewrite Hu. cbn.
    unfold MemoryAdapter.getPasswordResetToken. cbn.
    by rewrite !lookup_insert_eq, Huid. }
  assert (Hrl2' : passesRateLimit ipHash "reset-password" RATE_LIMITS.PASSWORD_RESET clk2
                    (mkWorld s1 rl1) rl2) by exact Hrl2.
  destruct (resetPassword_POST_live env ipHash clk2 (mkWorld s1 rl1) rl2 Hrl2' tok
              newPassword _ Htok Hlen Hget Hexp) as (s2 & Hs2 & Hreset).
  cbn [db TokenData.userId] in Hs2.
  assert (Hres : reset = (JsonSuccess, mkWorld s2 rl2)).
  { subst reset. rewrite Hreq. cbn [snd]. exact Hreset. }
  assert (Hfind : MemoryAdapter.findUserByEmail q s2
                  = Some (UserForAuth.mk (User.id usr) (User.email usr) (User.name usr)
                            (Collaborators.hash env newPassword 12) (Some ts))).
  { revert Hs2. subst s1.
    unfold MemoryAdapter.updatePassword, MemoryAdapter.updateUser,
      MemoryAdapter.setPasswordResetToken.
    rewrite Hu. cbn. rewrite lookup_insert_eq. cbn. intros [= <-].
    rewrite findUserByEmail_view. cbn. rewrite Hi, Huid, lookup_insert_eq. cbn.
    by rewrite Hver. }
  assert (Hlen1 : forall p, p <> "" -> (1 <=? strLength p) = true).
  { intros p Hp. apply Z.leb_le. destruct p; [done|]. unfold strLength. cbn. lia. }
  assert (Hfind' : MemoryAdapter.findUserByEmail (toLowerCase q) s2
                   = MemoryAdapter.findUserByEmail q s2).
  { rewrite !findUserByEmail_view. by rewrite toLowerCase_idem. }
  subst login. cbv beta. rewrite Hreq, Hres. cbn [fst snd db].
  split; [done|]. split; [done|]. split; [|split].
  - unfold authorize, loginSchema. cbn [Credentials.email Credentials.password].
    rewrite Hq', Hnew', Hem, (Hlen1 newPassword) by (by apply truthy_true).
    cbn [negb andb LoginInput.email LoginInput.password].
    rewrite Hfind', Hfind. cbn. by rewrite Hcmp.
  - unfold authorize, loginSchema. cbn [Credentials.email Credentials.password].
    rewrite Hq', Hold', Hem, (Hlen1 oldPassword) by done.
    cbn [negb andb LoginInput.email LoginInput.password].
    rewrite Hfind', Hfind. cbn. by rewrite Hcmp'.
  - by eapply (updatePassword_unreachable tok s1).
Qed.

Lemma forgot_reset_login_witness :
  let cmp := fun p h : string => String.eqb h ("$2b$12$" ++ p) in
  let s := storeOf (MemoryAdapter.verifyUserEmail "u1" 2 2 demoStore) in
  let w := mkWorld s (mkRL ∅ 0) in
  let w1 := (ForgotPasswordRoute.POST demoEnv "ip" (ForgotPasswordRoute.mkBody (Some "a@x.com"))
               "r9" (Clock.mk 10 10 10 10 10 10 10) w).2 in
  let w2 := (ResetPasswordRoute.POST demoEnv "ip"
               (ResetPasswordRoute.mkBody (Some "r9") (Some "Newpass12"))
               (Clock.mk 20 20 20 20 20 20 20) w1).2 in
  authorize (fun _ => true) cmp (Some (Credentials.mk (Some "a@x.com") (Some "Newpass12")))
    (db w2) = Authorized "u1" "a@x.com" "Ann"
  /\ authorize (fun _ => true) cmp (Some (Credentials.mk (Some "a@x.com") (Some "Abcdef12")))
       (db w2) = AuthError "Invalid email or password".
Proof.
  intros cmp s w w1 w2.
  assert (Hr : reachable s).
  { apply (reachable_step demoStore); [apply demoStore_reachable|].
    apply (step_updateUser "u1" (UpdateUserInput.mk None None None (Some (Some 2))
                                   (Some None) (Some None) None None) 2 demoStore). }
  destruct (forgot_reset_login demoEnv cmp "ip" "a@x.com" "Abcdef12" "Newpass12" "r9"
              (Clock.mk 10 10 10 10 10 10 10) (Clock.mk 20 20 20 20 20 20 20) w
              (mkRL {[ "ip:forgot-password" := RateLimitEntry.mk 1 3600010 ]} 0)
              (mkRL {[ "ip:reset-password" := RateLimitEntry.mk 1 3600020;
                       "ip:forgot-password" := RateLimitEntry.mk 1 3600010 ]} 0)
              (UserForAuth.mk "u1" "a@x.com" "Ann" "h" (Some 2)) 2)
    as (_ & _ & Hnew & Hold & _); try reflexivity; try done.
Defined.

(** X23. Resending the verification email, past the rate limiter, for a
    non-empty address: an unknown address gets 404 and a verified user gets
    success, both without touching the store; for an unverified user of a
    reachable store the new token resolves to the user with an expiry 24
    hours after issue and every other token that resolved to the user or to
    nobody resolves to nobody, and this holds even when the mail sender
    throws and the answer is the internal error. *)
Theorem resend_verification
    (env : Collaborators.t) (ipHash q tok : string) (clk : Clock.t) (w : World)
    (rl' : RLState) :
  passesRateLimit ipHash "verify-email" RATE_LIMITS.VERIFICATION_EMAIL clk w rl' ->
  q <> "" ->
  let r := VerifyEmailRoute.POST env ipHash (VerifyEmailRoute.mkBody (Some q)) tok clk w in
  (MemoryAdapter.findUserByEmail q (db w) = None ->
   r = (JsonError HTTP_STATUS.NOT_FOUND ERROR_CODES.NOT_FOUND "Email not found",
        mkWorld (db w) rl'))
  /\ (forall uf ts,
      MemoryAdapter.findUserByEmail q (db w) = Some uf ->
      UserForAuth.emailVerified uf = Some ts ->
      r = (JsonSuccess, mkWorld (db w) rl'))
  /\ (forall uf,
      reachable (db w) -> tok <> "" ->
      MemoryAdapter.findUserByEmail q (db w) = Some uf ->
      UserForAuth.emailVerified uf = None ->
      r.1 = (if Collaborators.sendVerificationEmail env (UserForAuth.email uf) tok "en"
             then JsonSuccess else internalError)
      /\ MemoryAdapter.getVerificationToken tok (db r.2)
         = Some (TokenData.mk (UserForAuth.id uf) tok (Clock.issue clk + 24 * 60 * 60 * 1000))
      /\ forall t1, t1 <> tok ->
           (forall td, MemoryAdapter.getVerificationToken t1 (db w) = Some td ->
                       TokenData.userId td = UserForAuth.id uf) ->
           MemoryAdapter.getVerificationToken t1 (db r.2) = None).
Proof.
  intros Hrl Hq r. subst r. unfold VerifyEmailRoute.POST. red in Hrl. rewrite Hrl.
  apply truthy_true in Hq. cbn [VerifyEmailRoute.email]. rewrite Hq. cbn [negb].
  split; [by intros ->|]. split; [by intros uf ts -> ->|].
  intros uf Hr Htok Hf Hv. rewrite Hf, Hv.
  pose proof Hf as Hf'. rewrite findUserByEmail_view in Hf'.
  destruct (emailIndex (db w) !! toLowerCase q) as [uid|] eqn:Hi; [|done].
  destruct (truthy uid) eqn:Huid; [|done].
  destruct (users (db w) !! uid) as [usr|] eqn:Hu; [|done].
  cbn in Hf'. injection Hf' as <-. cbn [authView UserForAuth.id UserForAuth.email].
  rewrite (reachable_keysOk _ Hr uid usr Hu).
  destruct (MemoryAdapter.setVerificationToken uid tok _ (Clock.write clk) (db w))
    as [[] s'|m s'] eqn:Hset.
  2:{ exfalso. revert Hset. unfold MemoryAdapter.setVerificationToken. by rewrite Hu. }
  pose proof (setVerificationToken_supersedes _ _ _ _ _ _ Hset) as (_ & Hsup & _).
  assert (Hget : MemoryAdapter.getVerificationToken tok s'
                 = Some (TokenData.mk uid tok (Clock.issue clk + 24 * 60 * 60 * 1000))).
  { revert Hset. unfold MemoryAdapter.setVerificationToken. rewrite Hu. intros [= <-].
    unfold MemoryAdapter.getVerificationToken. cbn.
    by rewrite !lookup_insert_eq, Huid. }
  destruct (Collaborators.sendVerificationEmail env (User.email usr) tok "en");
    cbn [fst snd db]; (split; [done|]); (split; [done|]); intros t1 Hne Hown;
    by apply Hsup.
Qed.

Lemma resend_verification_witness :
  let r := VerifyEmailRoute.POST demoEnv "ip" (VerifyEmailRoute.mkBody (Some "a@x.com")) "t7"
             (Clock.mk 0 0 0 5 0 0 6) demoWorld in
  MemoryAdapter.getVerificationToken "t7" (db r.2)
  = Some (TokenData.mk "u1" "t7" 86400005)
  /\ MemoryAdapter.getVerificationToken "t0" (db r.2) = None.
Proof.
  intros r.
  destruct (resend_verification demoEnv "ip" "a@x.com" "t7" (Clock.mk 0 0 0 5 0 0 6) demoWorld
              (mkRL {[ "ip:verify-email" := RateLimitEntry.mk 1 3600000 ]} 0)
              eq_refl ltac:(done)) as (_ & _ & H).
  destruct (H (UserForAuth.mk "u1" "a@x.com" "Ann" "h" None) demoStore_reachable
              ltac:(done) eq_refl eq_refl) as (_ & Hnew & Hold).
  split; [exact Hnew|]. apply Hold; [done|].
  intros td Hg. vm_compute in Hg. by injection Hg as <-.
Defined.

(** X24. What forgot-password does depends on the mail sender only for a
    known address.  Past the rate limiter, for a non-empty address in a
    reachable store: an unknown address gets success and the store is not
    touched; a known address has the new reset token stored, resolving to the
    user with an expiry one hour after issue, and gets success when the send
    resolves, but the internal error (status 500) when the send throws, the
    token staying stored. *)
Theorem forgot_password_outcomes
    (env : Collaborators.t) (ipHash q tok : string) (clk : Clock.t) (w : World)
    (rl' : RLState) :
  reachable (db w) ->
  passesRateLimit ipHash "forgot-password" RATE_LIMITS.PASSWORD_RESET clk w rl' ->
  q <> "" ->
  let r := ForgotPasswordRoute.POST env ipHash (ForgotPasswordRoute.mkBody (Some q)) tok clk w in
  (MemoryAdapter.findUserByEmail q (db w) = None -> r = (JsonSuccess, mkWorld (db w) rl'))
  /\ (forall uf,
      MemoryAdapter.findUserByEmail q (db w) = Some uf ->
      r.1 = (if Collaborators.sendPasswordResetEmail env (UserForAuth.email uf) tok "en"
             then JsonSuccess else internalError)
      /\ MemoryAdapter.getPasswordResetToken tok (db r.2)
         = Some (TokenData.mk (UserForAuth.id uf) tok (Clock.issue clk + 60 * 60 * 1000))).
Proof.
  intros Hr Hrl Hq r. subst r. unfold ForgotPasswordRoute.POST. red in Hrl. rewrite Hrl.
  apply truthy_true in Hq. cbn [ForgotPasswordRoute.email]. rewrite Hq. cbn [negb].
  split; [by intros ->|].
  intros uf Hf. rewrite Hf.
  pose proof Hf as Hf'. rewrite findUserByEmail_view in Hf'.
  destruct (emailIndex (db w) !! toLowerCase q) as [uid|] eqn:Hi; [|done].
  destruct (truthy uid) eqn:Huid; [|done].
  destruct (users (db w) !! uid) as [usr|] eqn:Hu; [|done].
  cbn in Hf'. injection Hf' as <-. cbn [authView UserForAuth.id UserForAuth.email].
  rewrite (reachable_keysOk _ Hr uid usr Hu).
  unfold MemoryAdapter.setPasswordResetToken. rewrite Hu.
  destruct (Collaborators.sendPasswordResetEmail env (User.email usr) tok "en");
    cbn [fst snd db]; (split; [done|]);
    unfold MemoryAdapter.getPasswordResetToken; cbn;
    by rewrite !lookup_insert_eq, Huid.
Qed.

Lemma forgot_password_outcomes_witness :
  let failing := Collaborators.mk (fun p _ => p) (fun _ => true) (fun _ _ _ => true)
                   (fun _ _ _ => false) in
  let clk := Clock.mk 0 0 0 7 0 0 8 in
  (ForgotPasswordRoute.POST failing "ip" (ForgotPasswordRoute.mkBody (Some "a@x.com")) "r7"
     clk demoWorld).1 = internalError
  /\ (ForgotPasswordRoute.POST failing "ip" (ForgotPasswordRoute.mkBody (Some "zed@x.com")) "r7"
        clk demoWorld).1 = JsonSuccess.
Proof.
  intros failing clk.
  pose (rl1 := mkRL {[ "ip:forgot-password" := RateLimitEntry.mk 1 3600000 ]} 0).
  split.
  - destruct (forgot_password_outcomes failing "ip" "a@x.com" "r7" clk demoWorld rl1
                demoStore_reachable eq_refl ltac:(done)) as [_ Hknown].
    by destruct (Hknown (UserForAuth.mk "u1" "a@x.com" "Ann" "h" None) eq_refl) as [-> _].
  - destruct (forgot_password_outcomes failing "ip" "zed@x.com" "r7" clk demoWorld rl1
                demoStore_reachable eq_refl ltac:(done)) as [Hunknown _].
    by rewrite Hunknown.
Defined.

Lemma updateUser_Thrown id data now s m s' :
  MemoryAdapter.updateUser id data now s = Thrown m s' -> s' = s.
Proof.
  unfold MemoryAdapter.updateUser. destruct (users s !! id); [done|]. by intros [= _ <-].
Qed.

(** X25. Only a successful answer writes to the store.  Whenever the
    verification link handler answers anything but the redirect to the
    success page, the reset handler anything but success, or the register
    handler anything but 201, the adapter's maps are exactly as before; the
    verification link handler never touches the rate limiter. *)
Theorem only_success_writes (w : World) :
  (forall tok clk,
      rl (VerifyEmailRoute.GET tok clk w).2 = rl w
      /\ ((VerifyEmailRoute.GET tok clk w).1 <> Redirect "/verify-email/success" ->
          db (VerifyEmailRoute.GET tok clk w).2 = db w))
  /\ (forall env ipHash body clk,
      (ResetPasswordRoute.POST env ipHash body clk w).1 <> JsonSuccess ->
      db (ResetPasswordRoute.POST env ipHash body clk w).2 = db w)
  /\ (forall env ipHash body idUuid tokenUuid clk,
      (forall id email name createdAt message,
          (RegisterRoute.POST env ipHash body idUuid tokenUuid clk w).1
          <> JsonCreated id email name createdAt message) ->
      db (RegisterRoute.POST env ipHash body idUuid tokenUuid clk w).2 = db w).
Proof.
  split; [|split].
  - intros tok clk. unfold VerifyEmailRoute.GET.
    destruct tok as [t|]; [|done]. destruct (truthy t); [|done]. cbn [negb].
    destruct (MemoryAdapter.getVerificationToken t (db w)) as [td|]; [|done].
    destruct (TokenData.expiresAt td <? Clock.expiry clk); [done|].
    unfold MemoryAdapter.verifyUserEmail.
    destruct (MemoryAdapter.updateUser _ _ _ _) as [u s'|m s'] eqn:Hu; cbn; [done|].
    split; [done|]. intros _. by apply updateUser_Thrown in Hu.
  - intros env ipHash body clk. unfold ResetPasswordRoute.POST.
    destruct (applyRateLimit _ _ _ _ _ _ _) as [[r|] rl']; [done|].
    destruct body as [[t|] [p|]]; cbn; try done.
    destruct (truthy t && truthy p)%bool; [|done]. cbn [negb].
    destruct (strLength p <? 8); [done|].
    destruct (MemoryAdapter.getPasswordResetToken t (db w)) as [td|]; [|done].
    destruct (TokenData.expiresAt td <? Clock.expiry clk); [done|].
    unfold MemoryAdapter.updatePassword.
    destruct (MemoryAdapter.updateUser _ _ _ _) as [u s'|m s'] eqn:Hu; cbn; [done|].
    intros _. by apply updateUser_Thrown in Hu.
  - intros env ipHash body idUuid tokenUuid clk. unfold RegisterRoute.POST.
    destruct (applyRateLimit _ _ _ _ _ _ _) as [[r|] rl']; [done|].
    destruct (registerSchema _ body) as [data|]; [|done].
    destruct (MemoryAdapter.emailExists _ _); [done|].
    cbn. intros H. exfalso. by eapply H.
Qed.

Lemma only_success_writes_witness :
  db (ResetPasswordRoute.POST demoEnv "ip" (ResetPasswordRoute.mkBody (Some "r0") (Some "short"))
        (Clock.mk 0 0 0 0 50 50 50) demoWorld).2 = demoStore
  /\ db (VerifyEmailRoute.GET (Some "t0") (Clock.mk 0 0 0 0 101 101 101) demoWorld).2
     = demoStore.
Proof.
  destruct (only_success_writes demoWorld) as (Hget & Hreset & _). split.
  - apply Hreset. vm_compute. discriminate.
  - apply Hget. vm_compute. discriminate.
Defined.

(** X26. The gate is coherent: no path is both a protected route and an auth
    route; a visitor without a session is never sent to the dashboard and one
    with a session never to the login page; and following a redirect leads to
    a page the gate lets through, so there is no redirect loop. *)
Theorem gate_coherent (pathname : string) (isAuthenticated : bool) :
  (Middleware.isProtectedRoute pathname = true -> Middleware.isAuthRoute pathname = false)
  /\ (Middleware.gate pathname false <> Middleware.RedirectDashboard)
  /\ (forall callbackUrl, Middleware.gate pathname true <> Middleware.RedirectLogin callbackUrl)
  /\ (forall target,
      redirectTarget (Middleware.gate pathname isAuthenticated) = Some target ->
      Middleware.gate target isAuthenticated = Middleware.Next).
Proof.
  split; [|split; [|split]].
  - intros Hp. apply isProtectedRoute_spec in Hp as (route & Hin & Hp).
    cbn in Hin. destruct Hin as [<-|[]].
    destruct Hp as [->|[rest ->]]; [reflexivity|].
    unfold Middleware.isAuthRoute, Middleware.AUTH_ROUTES, startsWith. cbv. reflexivity.
  - unfold Middleware.gate.
    destruct (Middleware.isProtectedRoute pathname); cbn; [done|].
    by rewrite andb_false_r.
  - intros callbackUrl. unfold Middleware.gate. rewrite andb_false_r.
    by destruct (Middleware.isAuthRoute pathname && true)%bool.
  - intros target. unfold Middleware.gate.
    destruct isAuthenticated.
    + rewrite andb_false_r.
      destruct (Middleware.isAuthRoute pathname && true)%bool; cbn; [|done].
      by intros [= <-].
    + destruct (Middleware.isProtectedRoute pathname && negb false)%bool; cbn.
      * by intros [= <-].
      * rewrite andb_false_r. done.
Qed.

Lemma gate_coherent_witness :
  Middleware.isAuthRoute "/dashboard/settings" = false
  /\ Middleware.gate "/login" false = Middleware.Next.
Proof.
  destruct (gate_coherent "/dashboard/settings" false) as (Hdisj & _ & _ & Hloop).
  split; [by apply Hdisj | by apply Hloop].
Defined.

(** X27. The middleware throws exactly on a request that finds the secret
    not yet validated, in production, with [NEXTAUTH_SECRET] missing or
    empty; and once a request has passed, the flag is set and no later
    request throws, whatever the environment has become. *)
Theorem middleware_throws_iff
    (JWT : Type) (secret : option string) (production secretValidated : bool)
    (pathname : string) (token : option JWT) :
  (Middleware.middleware secret production secretValidated pathname token = None
   <-> secretValidated = false /\ production = true /\ orNull secret = None)
  /\ (forall outcome flag,
      Middleware.middleware secret production secretValidated pathname token
      = Some (outcome, flag) ->
      flag = true
      /\ forall secret' production' pathname' (token' : option JWT),
           Middleware.middleware secret' production' flag pathname' token' <> None).
Proof.
  unfold Middleware.middleware, Middleware.validateSecret. split.
  - destruct secretValidated; cbn; [split; [done | by intros [? _]]|].
    destruct secret as [v|]; cbn.
    + destruct (truthy v); cbn; [split; [done | by intros (_ & _ & ?)]|].
      destruct production; cbn; [by split | split; [done | by intros (_ & ? & _)]].
    + destruct production; cbn; [by split | split; [done | by intros (_ & ? & _)]].
  - intros outcome flag H.
    assert (flag = true) as ->.
    { destruct secretValidated; cbn in H; [by injection H as _ <-|].
      destruct (negb _ && production)%bool; [done | by injection H as _ <-]. }
    split; [done|]. done.
Qed.

Lemma middleware_throws_iff_witness :
  Middleware.middleware (Some "") true false "/dashboard" (Some tt) = None
  /\ Middleware.middleware None true true "/dashboard" (None : option unit)
     = Some (Middleware.RedirectLogin "/dashboard", true).
Proof.
  split.
  - apply (middleware_throws_iff unit (Some "") true false "/dashboard" (Some tt)). done.
  - reflexivity.
Defined.

(** * Properties of the register schema and of [updateUser] *)

Lemma trimStart_length s : (String.length (trimStart s) <= String.length s)%nat.
Proof.
  induction s as [|c r IH]; [done|]. cbn. destruct (isSpace c); cbn; lia.
Qed.

Lemma trimEnd_length s : (String.length (trimEnd s) <= String.length s)%nat.
Proof.
  induction s as [|c r IH]; [done|]. cbn.
  destruct (trimEnd r) as [|c' r']; [destruct (isSpace c); cbn; lia|].
  cbn in *. lia.
Qed.

Lemma regexTest_toLowerCase_upper s : regexTest isUpper (toLowerCase s) = false.
Proof.
  induction s as [|c r IH]; [done|]. cbn. rewrite IH, orb_false_r.
  destruct c as [[] [] [] [] [] [] [] []]; reflexivity.
Qed.

(** X28. What the register schema lets through is normalized and within the
    policy: the address is lower-cased (it contains no upper-case letter),
    the name carries no surrounding white space and has at most 100
    characters, and the password has 8 to 128 characters with at least one
    upper-case letter, one lower-case letter and one digit. *)
Theorem registerSchema_output
    (isEmail : string -> bool) (body : RegisterBody.t) (data : RegisterInput.t) :
  registerSchema isEmail body = Some data ->
  toLowerCase (RegisterInput.email data) = RegisterInput.email data
  /\ regexTest isUpper (RegisterInput.email data) = false
  /\ trim (RegisterInput.name data) = RegisterInput.name data
  /\ strLength (RegisterInput.name data) <= 100
  /\ 8 <= strLength (RegisterInput.password data) <= 128
  /\ regexTest isUpper (RegisterInput.password data) = true
  /\ regexTest isLower (RegisterInput.password data) = true
  /\ regexTest isDigit (RegisterInput.password data) = true
  /\ RegisterBody.password body = Some (RegisterInput.password data).
Proof.
  unfold registerSchema. destruct body as [[e|] [p|] [n|]]; cbn; try done.
  destruct (_ && _)%bool eqn:Hok; [|done]. intros [= <-]. cbn.
  apply andb_prop in Hok as [Hok Hn100]. apply andb_prop in Hok as [Hok _].
  apply andb_prop in Hok as [_ Hpw]. unfold passwordSchema in Hpw.
  apply andb_prop in Hpw as [Hpw Hd]. apply andb_prop in Hpw as [Hpw Hl].
  apply andb_prop in Hpw as [Hpw Hu]. apply andb_prop in Hpw as [H8 H128].
  apply Z.leb_le in Hn100, H8, H128.
  split; [apply toLowerCase_idem|]. split; [apply regexTest_toLowerCase_upper|].
  split; [apply trim_idem|]. split; [|done].
  unfold strLength, trim in *.
  pose proof (trimEnd_length (trimStart n)). pose proof (trimStart_length n). lia.
Qed.

Lemma registerSchema_output_witness :
  let data := RegisterInput.mk "ann@x.com" "Abcdef12" "Ann Lee" in
  toLowerCase (RegisterInput.email data) = RegisterInput.email data
  /\ trim (RegisterInput.name data) = RegisterInput.name data
  /\ strLength (RegisterInput.name data) <= 100.
Proof.
  intros data.
  destruct (registerSchema_output (fun _ => true)
              (RegisterBody.mk (Some "Ann@X.com") (Some "Abcdef12") (Some "  Ann Lee "))
              data eq_refl) as (He & _ & Hn & Hl & _).
  by repeat split.
Defined.

(** X29. [updateUser] and the email index.  For a missing id it throws and
    leaves the store as it was.  For a stored user with a non-empty id, given
    a non-empty address different from the stored one, the updated record
    carries the lower-cased address, a lookup by the new address in any
    letter case returns the updated record, and the index entry of the old
    address, unless that is the lower-cased new one, is gone. *)
Theorem updateUser_email_change
    (s : Store) (id : string) (data : UpdateUserInput.t) (now : Date) :
  (users s !! id = None ->
   MemoryAdapter.updateUser id data now s = Thrown ("User not found: " ++ id) s)
  /\ (forall usr e q,
      users s !! id = Some usr ->
      UpdateUserInput.email data = Some e ->
      id <> "" -> e <> "" -> e <> User.email usr ->
      toLowerCase q = toLowerCase e ->
      exists usr' s',
        MemoryAdapter.updateUser id data now s = Returned usr' s'
        /\ User.email usr' = toLowerCase e
        /\ User.id usr' = User.id usr
        /\ MemoryAdapter.findUserById id s' = Some usr'
        /\ MemoryAdapter.findUserByEmail q s' = Some (authView usr')
        /\ (toLowerCase e <> User.email usr ->
            emailIndex s' !! User.email usr = None)).
Proof.
  unfold MemoryAdapter.updateUser. split; [by intros ->|].
  intros usr e q Hu He Hid Hne Hdiff Hq. rewrite Hu, He.
  apply truthy_true in Hid, Hne. rewrite Hne.
  assert (Heqb : String.eqb e (User.email usr) = false) by (by apply String.eqb_neq).
  rewrite Heqb. cbn [andb negb].
  eexists _, _. split; [reflexivity|]. cbn [User.email User.id].
  split; [done|]. split; [done|]. split; [|split].
  - unfold MemoryAdapter.findUserById. cbn. by rewrite lookup_insert_eq.
  - rewrite findUserByEmail_view. cbn. by rewrite Hq, !lookup_insert_eq, Hid.
  - intros Hold. cbn. rewrite lookup_insert_ne by done. apply lookup_delete_eq.
Qed.

Lemma updateUser_email_change_witness :
  let data := UpdateUserInput.mk (Some "Ann@New.org") None None None None None None None in
  let s' := storeOf (MemoryAdapter.updateUser "u1" data 9 demoStore) in
  (exists uf, MemoryAdapter.findUserByEmail "ANN@new.org" s' = Some uf
              /\ UserForAuth.id uf = "u1" /\ UserForAuth.email uf = "ann@new.org")
  /\ emailIndex s' !! "a@x.com" = None.
Proof.
  intros data s'.
  pose (usr := User.mk "u1" "a@x.com" "h" "Ann" None (Some "t0") (Some 100)
                 (Some "r0") (Some 100) 0 1).
  destruct (updateUser_email_change demoStore "u1" data 9) as [_ H].
  destruct (H usr "Ann@New.org" "ANN@new.org" eq_refl eq_refl ltac:(done) ltac:(done)
              ltac:(done) eq_refl)
    as (usr' & s1 & Hupd & Hemail & Hid' & _ & Hfind & Hold).
  assert (s' = s1) as -> by (subst s'; by rewrite Hupd).
  split.
  - exists (authView usr'). split; [done|]. cbn. by rewrite Hemail, Hid'.
  - by apply Hold.
Defined.
